(** * SpAN: reversal detection, frame selection and the graph viewport

    A shallow embedding of [span/inflection.py], of [GraphWidget] in
    [span/graph_widget.py] with its [_paint], of the lines of
    [span/main_window.py] that turn inflection points into frame numbers
    and that configure the widget, of the frame selection of
    [span/video_sampler.py] and of [span/data_parser.py], with the
    properties the specification states about them and further ones.

    Python integers are [Z]; Python floats are IEEE-754 binary64 values,
    that is Rocq's primitive [float]; an attribute that holds an int or a
    float is a [Py.Num]; a Python list is a [list]; a [dict] with string
    keys is a [gmap string]. A function that may raise returns an
    [option], and [None] is the exception: [IndexError] or [KeyError]
    from a subscript, [ZeroDivisionError] from [/] and [%], [ValueError]
    or [OverflowError] from [int(...)] of a float, [OverflowError] from
    an int too large for a float or for an argument of Qt. A loop that
    may not end is run for a given number of turns. *)

From Stdlib Require Import ZArith Lia Floats.
From stdpp Require Import base option list sorting strings gmap.

#[local] Open Scope Z_scope.

(** ** Python lists and numbers *)

Module Py.

(** [l[i]]: a negative subscript counts from the end, anything outside
    [-len(l) .. len(l)-1] raises [IndexError]. *)
Definition index {B : Type} (l : list B) (i : Z) : option B :=
  let n := Z.of_nat (length l) in
  if 0 <=? i then l !! Z.to_nat i
  else if - n <=? i then l !! Z.to_nat (n + i)
  else None.

(** [l[i] = v], with the same subscript rule. *)
Definition setitem {B : Type} (l : list B) (i : Z) (v : B) : option (list B) :=
  let n := Z.of_nat (length l) in
  if (0 <=? i) && (i <? n) then Some (<[Z.to_nat i := v]> l)
  else if (- n <=? i) && (i <? 0) then Some (<[Z.to_nat (n + i) := v]> l)
  else None.

(** [range(lo, hi)] *)
Definition range (lo hi : Z) : list Z :=
  (λ k : nat, lo + Z.of_nat k) <$> seq 0 (Z.to_nat (hi - lo)).

(** [a and b] on a condition whose operands may raise: [b] is only
    evaluated when [a] is true. *)
Definition and_then (a b : option bool) : option bool :=
  x ← a; if x : bool then b else Some false.

(** A [for] loop whose body may raise: the state is threaded through the
    iterations in order. *)
Fixpoint for_each {St I : Type} (body : St → I → option St) (s : St)
    (items : list I) : option St :=
  match items with
  | [] => Some s
  | i :: rest => s' ← body s i; for_each body s' rest
  end.

(** [enumerate(l)] *)
Fixpoint enumerate_from {B : Type} (i : Z) (l : list B) : list (Z * B) :=
  match l with
  | [] => []
  | x :: rest => (i, x) :: enumerate_from (i + 1) rest
  end.

Definition enumerate {B : Type} (l : list B) : list (Z * B) := enumerate_from 0 l.

(** The [float] an [int] operand becomes in mixed arithmetic, for
    [|z| < 2^63]; every pixel size is far below. *)
Definition float_of_int (z : Z) : float :=
  if z <? 0 then (- PrimFloat.of_uint63 (Uint63.of_Z (- z)))%float
  else PrimFloat.of_uint63 (Uint63.of_Z z).

(** [int(x)] of a float: truncation towards zero; NaN raises [ValueError]
    and an infinity [OverflowError]. *)
Definition int_of_float (x : float) : option Z :=
  match Prim2SF x with
  | S754_zero _ => Some 0
  | S754_finite s m e =>
      let a := Z.shiftl (Z.pos m) e in Some (if s then - a else a)
  | S754_infinity _ => None
  | S754_nan => None
  end.

(** [a / b] on floats: a zero divisor raises [ZeroDivisionError]. *)
Definition truediv (a b : float) : option float :=
  if (b =? 0)%float then None else Some (a / b)%float.

(** The [float] an [int] operand of any size becomes in mixed arithmetic:
    the nearest [float], ties to even, and [OverflowError] ("int too large
    to convert to float") when that is beyond the largest one. *)
Definition as_float (z : Z) : option float :=
  match binary_normalize prec emax z 0 false with
  | S754_infinity _ => None
  | x => Some (SF2Prim x)
  end.

(** C's [fmod]: the exact remainder of the truncated quotient, with the
    sign of [x]. *)
Definition fmod (x y : float) : float :=
  match Prim2SF x, Prim2SF y with
  | S754_nan, _ | _, S754_nan => nan
  | S754_infinity _, _ => nan
  | _, S754_zero _ => nan
  | S754_zero _, _ => x
  | S754_finite _ _ _, S754_infinity _ => x
  | S754_finite sx mx ex, S754_finite _ my ey =>
      let e := Z.min ex ey in
      let r := Z.rem (Z.pos mx * 2 ^ (ex - e)) (Z.pos my * 2 ^ (ey - e)) in
      SF2Prim (binary_normalize prec emax (if sx then - r else r) e sx)
  end.

(** [vx % wx] on floats: [ZeroDivisionError] for a zero divisor; a
    remainder other than zero takes the sign of the divisor by adding the
    divisor once, a zero remainder takes it as a signed zero. *)
Definition float_mod (vx wx : float) : option float :=
  if (wx =? 0)%float then None
  else
    let m := fmod vx wx in
    Some (if (m =? 0)%float then (if get_sign wx then neg_zero else zero)
          else if xorb (wx <? 0)%float (m <? 0)%float then (m + wx)%float
          else m).

(** A Python number: an [int] or a [float]. *)
Inductive Num : Set :=
| PyInt (z : Z)
| PyFloat (x : float).

(** The operand as mixed arithmetic takes it. *)
Definition to_float (a : Num) : option float :=
  match a with
  | PyInt z => as_float z
  | PyFloat x => Some x
  end.

(** [a - b], [a + b] and [a % b]: exact on two ints, on floats otherwise *)
Definition num_sub (a b : Num) : option Num :=
  match a, b with
  | PyInt x, PyInt y => Some (PyInt (x - y))
  | _, _ => x ← to_float a; y ← to_float b; Some (PyFloat (x - y))
  end.

Definition num_add (a b : Num) : option Num :=
  match a, b with
  | PyInt x, PyInt y => Some (PyInt (x + y))
  | _, _ => x ← to_float a; y ← to_float b; Some (PyFloat (x + y))
  end.

Definition num_mod (a b : Num) : option Num :=
  match a, b with
  | PyInt x, PyInt y => if y =? 0 then None else Some (PyInt (x mod y))
  | _, _ => x ← to_float a; y ← to_float b; PyFloat <$> float_mod x y
  end.

(** [x / y] on two ints: the float nearest to the quotient, ties to even;
    [OverflowError] when that is beyond the largest float. *)
Definition int_truediv (x y : Z) : option float :=
  if y =? 0 then None
  else
    match x with
    | Z0 => Some (if y <? 0 then neg_zero else zero)
    | _ =>
        match SFdiv prec emax (S754_finite (x <? 0) (Z.to_pos (Z.abs x)) 0)
                (S754_finite (y <? 0) (Z.to_pos (Z.abs y)) 0) with
        | S754_infinity _ => None
        | q => Some (SF2Prim q)
        end
    end.

(** [a / b]: always a float *)
Definition num_truediv (a b : Num) : option float :=
  match a, b with
  | PyInt x, PyInt y => int_truediv x y
  | _, _ => x ← to_float a; y ← to_float b; truediv x y
  end.

(** An int and a float are compared as the exact values they stand for;
    no order holds with NaN. *)
Definition compare_int_float (z : Z) (x : float) : option comparison :=
  match Prim2SF x with
  | S754_nan => None
  | S754_infinity s => Some (if s then Gt else Lt)
  | S754_zero _ => Some (z ?= 0)
  | S754_finite s m e =>
      let v := if s then Z.neg m else Z.pos m in
      Some (if 0 <=? e then z ?= v * 2 ^ e else z * 2 ^ (- e) ?= v)
  end.

Definition num_compare (a b : Num) : option comparison :=
  match a, b with
  | PyInt x, PyInt y => Some (x ?= y)
  | PyInt x, PyFloat y => compare_int_float x y
  | PyFloat x, PyInt y => CompOpp <$> compare_int_float y x
  | PyFloat x, PyFloat y =>
      if (x <? y)%float then Some Lt
      else if (x =? y)%float then Some Eq
      else if (y <? x)%float then Some Gt
      else None
  end.

(** [a < b] and [a <= b] *)
Definition num_ltb (a b : Num) : bool :=
  match num_compare a b with Some Lt => true | _ => false end.

Definition num_leb (a b : Num) : bool :=
  match num_compare a b with Some (Lt | Eq) => true | _ => false end.

End Py.

Infix "and?" := Py.and_then (at level 41, right associativity).

(** ** span/inflection.py *)

Inductive InflectionType : Set :=
| NORMAL
| DOWN_TO_UP
| UP_TO_DOWN.

#[global] Instance InflectionType_eq_dec : EqDecision InflectionType.
Proof. solve_decision. Defined.

Record InflectionResult : Set := mkInflectionResult { labels : list InflectionType }.

(** The two values, ["up"] and ["down"], that [prev_direction] and
    [current_direction] take; [prev_direction = None] is [None]. *)
Inductive Direction : Set := up | down.

#[global] Instance Direction_eq_dec : EqDecision Direction.
Proof. solve_decision. Defined.

Section Detector.

(** The samples are compared with [<] and [>] and nothing else is done
    with them, so the detector is stated over any sample type with a
    [<]; [a > b] is [b < a], as it is for Python's [int] and [float]. *)
Context {A : Type} (ltb : A → A → bool).

Definition gtb (x y : A) : bool := ltb y x.

(** [flux[i] < flux[j]] and [flux[i] > flux[j]] *)
Definition lt_at (flux : list A) (i j : Z) : option bool :=
  x ← Py.index flux i; y ← Py.index flux j; Some (ltb x y).

Definition gt_at (flux : list A) (i j : Z) : option bool :=
  x ← Py.index flux i; y ← Py.index flux j; Some (gtb x y).

(** Lines 44-50: the first unequal adjacent pair gives the direction. *)
Fixpoint initial_direction (flux : list A) (idxs : list Z)
  : option (option Direction) :=
  match idxs with
  | [] => Some None
  | i :: rest =>
      g ← gt_at flux i (i - 1);
      if g : bool then Some (Some up)
      else l ← lt_at flux i (i - 1);
           if l : bool then Some (Some down)
           else initial_direction flux rest
  end.

(** Lines 57-62: the direction of the pair [(i-1, i)]; [None] is the
    [continue] of equal neighbours. *)
Definition current_direction (flux : list A) (i : Z) : option (option Direction) :=
  g ← gt_at flux i (i - 1);
  if g : bool then Some (Some up)
  else l ← lt_at flux i (i - 1);
       Some (if l : bool then Some down else None).

(** Lines 70-77 *)
Definition valid_down_to_up (flux : list A) (n p : Z) : option bool :=
  Some (p >=? 2) and? Some (p + 2 <? n)
  and? lt_at flux p (p + 1) and? lt_at flux (p + 1) (p + 2)
  and? lt_at flux p (p - 1) and? lt_at flux (p - 1) (p - 2).

(** Lines 82-89 *)
Definition valid_up_to_down (flux : list A) (n p : Z) : option bool :=
  Some (p >=? 2) and? Some (p + 2 <? n)
  and? gt_at flux p (p + 1) and? gt_at flux (p + 1) (p + 2)
  and? gt_at flux p (p - 1) and? gt_at flux (p - 1) (p - 2).

(** The loop state of lines 56-92: [prev_direction] and [labels]. *)
Definition ScanState : Type := Direction * list InflectionType.

(** Lines 64-92, for a pair that has a direction. *)
Definition on_direction (flux : list A) (n : Z) (st : ScanState) (i : Z)
    (cur : Direction) : option ScanState :=
  let '(prev, lbls) := st in
  if bool_decide (cur ≠ prev) then
    let p := i - 1 in
    lbls' ←
      (if bool_decide (prev = down) && bool_decide (cur = up) then
         ok ← valid_down_to_up flux n p;
         if ok : bool then Py.setitem lbls p DOWN_TO_UP else Some lbls
       else if bool_decide (prev = up) && bool_decide (cur = down) then
         ok ← valid_up_to_down flux n p;
         if ok : bool then Py.setitem lbls p UP_TO_DOWN else Some lbls
       else Some lbls);
    Some (cur, lbls')
  else Some st.

(** One iteration of the scan, lines 57-92. *)
Definition scan_step (flux : list A) (n : Z) (st : ScanState) (i : Z)
  : option ScanState :=
  c ← current_direction flux i;
  match c with
  | None => Some st
  | Some cur => on_direction flux n st i cur
  end.

Definition scan (flux : list A) (n : Z) (st : ScanState) (idxs : list Z)
  : option ScanState :=
  Py.for_each (scan_step flux n) st idxs.

Definition detect_inflections (flux : list A) : option InflectionResult :=
  let n := Z.of_nat (length flux) in
  let lbls := replicate (length flux) NORMAL in
  if n <? 5 then Some (mkInflectionResult lbls)
  else
    d ← initial_direction flux (Py.range 1 n);
    match d with
    | None => Some (mkInflectionResult lbls)
    | Some prev_direction =>
        st ← scan flux n (prev_direction, lbls) (Py.range 2 n);
        Some (mkInflectionResult st.2)
    end.

End Detector.

(** The two sample types the program meets: [float] from the parser, and
    [int] when a caller passes whole numbers. *)
Definition detect_float : list float → option InflectionResult :=
  detect_inflections PrimFloat.ltb.

Definition detect_int : list Z → option InflectionResult :=
  detect_inflections Z.ltb.

(** [get_inflection_points], lines 112-119. A point is the tuple
    [(index, flux_value, inflection_type)]. *)
Section Points.

Context {A : Type}.

Definition Point : Type := Z * A * InflectionType.

(** The body of the loop over [enumerate(labels)]: two [continue]s, then
    the [append], whose [flux[i]] may raise. *)
Definition add_point (flux : list A) (filter_type : option InflectionType)
    (points : list Point) (item : Z * InflectionType) : option (list Point) :=
  let '(i, label) := item in
  if bool_decide (label = NORMAL) then Some points
  else if match filter_type with
          | Some t => bool_decide (label ≠ t)
          | None => false
          end
  then Some points
  else v ← Py.index flux i; Some (points ++ [(i, v, label)]).

Definition get_inflection_points (flux : list A) (lbls : list InflectionType)
    (filter_type : option InflectionType) : option (list Point) :=
  Py.for_each (add_point flux filter_type) [] (Py.enumerate lbls).

(** The frame numbers that reach the video step: [_update_inflection_list]
    (main_window.py, lines 543-547) writes [idx + 1] for every point, and
    [_on_subsample_video] reads these numbers back in the same order. *)
Definition listed_frame_indices (flux : list A) (lbls : list InflectionType)
    (filter_type : option InflectionType) : option (list Z) :=
  get_inflection_points flux lbls filter_type
  ≫= λ points : list Point, Some ((λ pt : Point, pt.1.1 + 1) <$> points).

(** A label that passes both [continue]s. *)
Definition selected (filter_type : option InflectionType)
    (label : InflectionType) : Prop :=
  label ≠ NORMAL ∧ (filter_type = None ∨ filter_type = Some label).

#[global] Instance selected_dec filter_type label :
  Decision (selected filter_type label).
Proof. unfold selected. apply _. Defined.

(** What the loop adds for the labels [lbls], the first of which has
    index [i]: no selected label lies beyond [flux]; the new points are
    the selected indices with their sample and label; their indices go
    up strictly. *)
Definition collected (flux : list A) (filter_type : option InflectionType)
    (lbls : list InflectionType) (i : Z) (new : list Point) : Prop :=
  (∀ (k : nat) t, lbls !! k = Some t → selected filter_type t →
                  i + Z.of_nat k < Z.of_nat (length flux)) ∧
  (∀ j v t, (j, v, t) ∈ new ↔
            ∃ k : nat, j = i + Z.of_nat k ∧ lbls !! k = Some t ∧
                       selected filter_type t ∧ flux !! Z.to_nat j = Some v) ∧
  StronglySorted Z.lt (new.*1.*1).

End Points.

#[global] Arguments Point : clear implicits.

(** ** span/main_window.py: the inflection list *)

(** The filter of lines 538-541: entry 0 of the combo box is "Down
    points", any other entry "Up points". *)
Definition shown_type (current_index : Z) : InflectionType :=
  if current_index =? 0 then UP_TO_DOWN else DOWN_TO_UP.

(** What [_update_inflection_list] puts on the window: an item per point,
    each the triple [(idx + 1, val, itype)] that its text is formatted
    from, the count and the average flux. *)
Record InflectionList : Type := mkInflectionList {
  items : list (Z * float * InflectionType);
  count : Z;
  avg : float;
}.

(** [_update_inflection_list], lines 529-553 *)
Definition update_inflection_list (flux : list float) (lbls : list InflectionType)
    (current_index : Z) : option InflectionList :=
  match flux with
  | [] => Some (mkInflectionList [] 0 0)
  | _ =>
      get_inflection_points flux lbls (Some (shown_type current_index))
      ≫= λ points : list (Point float),
        let total_flux := foldl (λ acc (pt : Point float), acc + pt.1.2)%float 0%float points in
        let n_points := Z.of_nat (length points) in
        Some (mkInflectionList
                ((λ pt : Point float, (pt.1.1 + 1, pt.1.2, pt.2)) <$> points)
                n_points
                (if 0 <? n_points
                 then (total_flux / Py.float_of_int n_points)%float
                 else 0%float))
  end.

(** The end of [_on_find_data], lines 438-442: the labels are detected
    from the loaded samples and the list is shown for "Up points". *)
Definition on_find_data (flux : list float) : option InflectionList :=
  detect_float flux ≫= λ r, update_inflection_list flux (labels r) 1.

(** ** span/graph_widget.py *)

Record QColor : Set := mkQColor { red : Z; green : Z; blue : Z }.

Definition DEFAULT_COLORS : gmap string QColor :=
  list_to_map
    [("background", mkQColor 0 0 0);
     ("grid_lines", mkQColor 80 80 80);
     ("grid_text", mkQColor 200 200 200);
     ("line_up", mkQColor 255 255 0);
     ("line_down", mkQColor 255 0 0);
     ("marker_down_to_up", mkQColor 0 100 255);
     ("marker_up_to_down", mkQColor 0 200 0);
     ("point_marker", mkQColor 255 255 255)]%string.

Module GraphWidget.

(** The attributes that [__init__] gives a [GraphWidget]. The widget's
    size, [self.width()] and [self.height()], belongs to Qt and is passed
    to the methods that read it. *)
Record t : Type := mk {
  flux : list float;
  labels : list InflectionType;
  y_low : Py.Num;
  y_high : Py.Num;
  x_step : Z;
  grid_x : Z;
  grid_y : Z;
  grid_font_size : Z;
  line_thickness : Z;
  show_x_grid : bool;
  show_y_grid : bool;
  highlight_inversions : bool;
  draw_slice_number : bool;
  draw_point_marker : bool;
  show_down_to_up : bool;
  show_up_to_down : bool;
  colors : gmap string QColor;
  scroll_offset : Z;
  visible_start : Z;
  visible_end : Z;
}.

(** [__init__], lines 30-61. The range starts as the ints [0] and [5000];
    the text fields give floats later. *)
Definition init : t :=
  {| flux := []; labels := [];
     y_low := Py.PyInt 0; y_high := Py.PyInt 5000;
     x_step := 5; grid_x := 25; grid_y := 100;
     grid_font_size := 10; line_thickness := 1;
     show_x_grid := true; show_y_grid := true; highlight_inversions := true;
     draw_slice_number := false; draw_point_marker := false;
     show_down_to_up := true; show_up_to_down := true;
     colors := DEFAULT_COLORS;
     scroll_offset := 0; visible_start := 0; visible_end := 0 |}.

(** [set_data], lines 70-74: three assignments; [self.update()] only asks
    Qt for a repaint. *)
Definition set_data (g : t) (new_flux : list float)
    (new_labels : list InflectionType) : t :=
  {| flux := new_flux; labels := new_labels;
     y_low := y_low g; y_high := y_high g; x_step := x_step g;
     grid_x := grid_x g; grid_y := grid_y g;
     grid_font_size := grid_font_size g; line_thickness := line_thickness g;
     show_x_grid := show_x_grid g; show_y_grid := show_y_grid g;
     highlight_inversions := highlight_inversions g;
     draw_slice_number := draw_slice_number g;
     draw_point_marker := draw_point_marker g;
     show_down_to_up := show_down_to_up g; show_up_to_down := show_up_to_down g;
     colors := colors g;
     scroll_offset := 0;
     visible_start := visible_start g; visible_end := visible_end g |}.

(** [self.graph.scroll_offset = value], of [_on_scroll] in main_window.py *)
Definition set_scroll_offset (g : t) (value : Z) : t :=
  {| flux := flux g; labels := labels g;
     y_low := y_low g; y_high := y_high g; x_step := x_step g;
     grid_x := grid_x g; grid_y := grid_y g;
     grid_font_size := grid_font_size g; line_thickness := line_thickness g;
     show_x_grid := show_x_grid g; show_y_grid := show_y_grid g;
     highlight_inversions := highlight_inversions g;
     draw_slice_number := draw_slice_number g;
     draw_point_marker := draw_point_marker g;
     show_down_to_up := show_down_to_up g; show_up_to_down := show_up_to_down g;
     colors := colors g;
     scroll_offset := value;
     visible_start := visible_start g; visible_end := visible_end g |}.

(** [self.y_low = ...; self.y_high = ...], of [_apply_settings_to_graph] *)
Definition set_y_range (g : t) (low high : float) : t :=
  {| flux := flux g; labels := labels g;
     y_low := Py.PyFloat low; y_high := Py.PyFloat high; x_step := x_step g;
     grid_x := grid_x g; grid_y := grid_y g;
     grid_font_size := grid_font_size g; line_thickness := line_thickness g;
     show_x_grid := show_x_grid g; show_y_grid := show_y_grid g;
     highlight_inversions := highlight_inversions g;
     draw_slice_number := draw_slice_number g;
     draw_point_marker := draw_point_marker g;
     show_down_to_up := show_down_to_up g; show_up_to_down := show_up_to_down g;
     colors := colors g;
     scroll_offset := scroll_offset g;
     visible_start := visible_start g; visible_end := visible_end g |}.

(** Lines 162-163: [self.visible_start = start; self.visible_end = end - 1] *)
Definition set_visible (g : t) (start stop : Z) : t :=
  {| flux := flux g; labels := labels g;
     y_low := y_low g; y_high := y_high g; x_step := x_step g;
     grid_x := grid_x g; grid_y := grid_y g;
     grid_font_size := grid_font_size g; line_thickness := line_thickness g;
     show_x_grid := show_x_grid g; show_y_grid := show_y_grid g;
     highlight_inversions := highlight_inversions g;
     draw_slice_number := draw_slice_number g;
     draw_point_marker := draw_point_marker g;
     show_down_to_up := show_down_to_up g; show_up_to_down := show_up_to_down g;
     colors := colors g;
     scroll_offset := scroll_offset g;
     visible_start := start; visible_end := stop - 1 |}.

(** [points_per_screen], lines 76-79; [width] is [self.width()]. *)
Definition points_per_screen (g : t) (width : Z) : Z :=
  if x_step g <=? 0 then 1 else Z.max 1 (width / x_step g).

(** [max_scroll], lines 81-82 *)
Definition max_scroll (g : t) (width : Z) : Z :=
  Z.max 0 (Z.of_nat (length (flux g)) - points_per_screen g width).

(** How [_paint] goes on after its first lines. *)
Inductive Guard : Set :=
| ReturnNoArea                     (* line 103 *)
| ReturnNoRange                    (* line 109 *)
| RangeRaised                      (* line 107, on an int too large for a float *)
| Proceed (y_range : Py.Num).

(** [_paint], lines 100-109 *)
Definition paint_guard (g : t) (w h : Z) : Guard :=
  if (w <=? 0) || (h <=? 0) then ReturnNoArea
  else
    match Py.num_sub (y_high g) (y_low g) with
    | None => RangeRaised
    | Some y_range =>
        if Py.num_leb y_range (Py.PyInt 0) then ReturnNoRange else Proceed y_range
    end.

(** [flux_to_y], lines 119-122, the value-to-position mapping; [h] and
    [y_range] are the variables of the enclosing [_paint]. *)
Definition flux_to_y (g : t) (h : Z) (y_range val : Py.Num) : option Z :=
  difference ← Py.num_sub val (y_low g);
  normalized ← Py.num_truediv difference y_range;
  Py.int_of_float (Py.float_of_int h - normalized * Py.float_of_int h).

(** [start] and [end], lines 158-160 *)
Definition visible_range (g : t) (w : Z) : Z * Z :=
  let n := Z.of_nat (length (flux g)) in
  let start := Z.max 0 (scroll_offset g) in
  let fpr := points_per_screen g w in
  (start, Z.min n (start + fpr + 1)).

(** An [int] argument of a method of Qt is passed on as a C [int]. *)
Definition c_int (z : Z) : bool := (-2147483648 <=? z) && (z <=? 2147483647).

(** A call of a method of Qt with the [int] arguments [args]: PyQt raises
    [OverflowError] for an argument that is no C [int]. What the call
    draws is not modelled. *)
Definition qt_call (args : list Z) : option () :=
  if forallb c_int args then Some () else None.

(** How a run of statements with a [while] loop ends. *)
Inductive Ending : Set :=
| Ends                             (* the last statement was run *)
| Raises                           (* an exception left the statements *)
| Running.                         (* the loop was not over after [fuel] turns *)

(** The [while] loop of lines 133-140. Each turn maps [grid_val], draws
    its line and its text, formatted as a float, when the position is on
    the widget, and adds [grid_y]; [fuel] bounds the number of turns. *)
Fixpoint y_grid_loop (fuel : nat) (g : t) (w h : Z) (y_range grid_val : Py.Num)
    : Ending :=
  if Py.num_leb grid_val (y_high g) then
    match fuel with
    | O => Running
    | S fuel' =>
        match
          y ← flux_to_y g h y_range grid_val;
          _ ← (if (0 <=? y) && (y <=? h)
               then _ ← qt_call [0; y; w; y];
                    _ ← Py.to_float grid_val;
                    qt_call [4; y - 3]
               else Some ());
          Py.num_add grid_val (Py.PyInt (grid_y g))
        with
        | Some next => y_grid_loop fuel' g w h y_range next
        | None => Raises
        end
    end
  else Ends.

(** The Y grid, lines 125-140: the font, the first grid value at or above
    [y_low], and the loop. *)
Definition y_grid (fuel : nat) (g : t) (w h : Z) (y_range : Py.Num) : Ending :=
  if show_y_grid g && (0 <? grid_y g) then
    match
      _ ← qt_call [grid_font_size g];
      m ← Py.num_mod (y_low g) (Py.PyInt (grid_y g));
      grid_val ← Py.num_sub (y_low g) m;
      if Py.num_ltb grid_val (y_low g)
      then Py.num_add grid_val (Py.PyInt (grid_y g))
      else Some grid_val
    with
    | Some grid_val => y_grid_loop fuel g w h y_range grid_val
    | None => Raises
    end
  else Ends.

(** The X grid, lines 143-151: the positions of its lines. The loop adds
    [pixel_spacing > 0] to [x] until [x >= w], which takes fewer than [w]
    turns; the lines are drawn at [0 < x < w]. *)
Fixpoint x_grid_loop (turns : nat) (x pixel_spacing w : Z) : list Z :=
  match turns with
  | O => []
  | S turns' =>
      if x <? w then x :: x_grid_loop turns' (x + pixel_spacing) pixel_spacing w
      else []
  end.

Definition x_grid (g : t) (w : Z) : list Z :=
  if show_x_grid g && (0 <? grid_x g) && (0 <? x_step g) then
    let pixel_spacing := grid_x g * x_step g in
    if 0 <? pixel_spacing then x_grid_loop (Z.to_nat w) pixel_spacing pixel_spacing w
    else []
  else [].

(** What the data section has done when [_paint] is left. *)
Inductive Drawn : Set :=
| NoData                           (* the return of line 156 *)
| Polyline (points : list (Z * Z)) (* the [(px, py)] of the loop, in order *)
| Raised.

(** The variables that the loop of lines 170-204 carries from one sample
    to the next, and the pixels it has computed. *)
Record DataLoop : Set := mkDataLoop {
  prev_x : Z;
  prev_y : Z;
  points : list (Z * Z);
  inflection_markers : list (Z * Z * InflectionType);
}.

(** The markers that sample [i] adds, lines 184-189 *)
Definition markers_of (g : t) (i px py : Z)
    : option (list (Z * Z * InflectionType)) :=
  if highlight_inversions g && (i <? Z.of_nat (length (labels g))) then
    lbl ← Py.index (labels g) i;
    Some (if bool_decide (lbl = DOWN_TO_UP) && show_down_to_up g then [(px, py, lbl)]
          else if bool_decide (lbl = UP_TO_DOWN) && show_up_to_down g then [(px, py, lbl)]
          else [])
  else Some [].

(** The body of the loop, lines 171-204, for sample [i] *)
Definition draw_sample (g : t) (h : Z) (y_range : Py.Num) (start : Z)
    (s : DataLoop) (i : Z) : option DataLoop :=
  let px := (i - start) * x_step g in
  val ← Py.index (flux g) i;
  py ← flux_to_y g h y_range (Py.PyFloat val);
  _ ← (if start <? i
       then _ ← Py.index (flux g) (i - 1);
            _ ← Py.as_float (line_thickness g);
            qt_call [prev_x s; prev_y s; px; py]
       else Some ());
  new_markers ← markers_of g i px py;
  _ ← (if draw_point_marker g then qt_call [px - 2; py - 2; 4; 4] else Some ());
  _ ← (if draw_slice_number g && (10 <=? x_step g)
       then qt_call [px - 5; py - 8]
       else Some ());
  Some (mkDataLoop px py (points s ++ [(px, py)])
          (inflection_markers s ++ new_markers)).

(** The circle of a marker, lines 207-214 *)
Definition draw_marker (_ : ()) (marker : Z * Z * InflectionType) : option () :=
  qt_call [marker.1.1 - 6; marker.1.2 - 6; 12; 12].

(** The data section of [_paint], lines 154-214: the widget afterwards and
    what was drawn. Kept are the return on empty data, the two attribute
    writes, every subscript and mapping, and the [int] arguments of every
    call on [painter]. *)
Definition draw_data (g : t) (w h : Z) (y_range : Py.Num) : t * Drawn :=
  let n := Z.of_nat (length (flux g)) in
  if n =? 0 then (g, NoData)
  else
    let '(start, stop) := visible_range g w in
    let g' := set_visible g start stop in
    let drawn :=
      first_y ← (if start <? n
                 then val ← Py.index (flux g) start;
                      flux_to_y g h y_range (Py.PyFloat val)
                 else Some 0);
      s ← Py.for_each (draw_sample g h y_range start)
             (mkDataLoop 0 first_y [] []) (Py.range start stop);
      _ ← Py.for_each draw_marker () (inflection_markers s);
      Some (points s) in
    (g', from_option Polyline Raised drawn).

(** The seven colours that lines 111-117 read: a missing key raises
    [KeyError]. *)
Definition read_colors (g : t) : option () :=
  _ ← colors g !! "grid_lines"; _ ← colors g !! "grid_text";
  _ ← colors g !! "line_up"; _ ← colors g !! "line_down";
  _ ← colors g !! "marker_down_to_up"; _ ← colors g !! "marker_up_to_down";
  _ ← colors g !! "point_marker"; Some ().

(** How a call of [_paint] goes. *)
Inductive Painted : Set :=
| Returned                         (* the return of line 103 or 109 *)
| RaisedEarly                      (* an exception from lines 107-140 *)
| GridRunning                      (* the Y-grid loop was not over after [fuel] turns *)
| Data (d : Drawn).                (* the data section was reached *)

(** [_paint], lines 100-214, with at most [fuel] turns of the Y-grid loop:
    the widget afterwards and how the call went. The X grid of lines
    143-151 comes between the Y grid and the data section; it ends,
    raises nothing and writes no attribute. *)
Definition paint (fuel : nat) (g : t) (w h : Z) : t * Painted :=
  match paint_guard g w h with
  | ReturnNoArea | ReturnNoRange => (g, Returned)
  | RangeRaised => (g, RaisedEarly)
  | Proceed y_range =>
      match read_colors g with
      | None => (g, RaisedEarly)
      | Some _ =>
          match y_grid fuel g w h y_range with
          | Raises => (g, RaisedEarly)
          | Running => (g, GridRunning)
          | Ends => let '(g', d) := draw_data g w h y_range in (g', Data d)
          end
      end
  end.

End GraphWidget.

(** ** span/main_window.py: settings, colours and range labels *)

Module MainWindow.

Import GraphWidget.

(** The label of each colour key, lines 41-50 *)
Definition COLOR_LABELS : gmap string string :=
  list_to_map
    [("background", "Background");
     ("grid_lines", "Grid Lines");
     ("grid_text", "Grid Text");
     ("line_up", "Line Up (rising)");
     ("line_down", "Line Down (falling)");
     ("marker_down_to_up", "Marker Down→Up");
     ("marker_up_to_down", "Marker Up→Down");
     ("point_marker", "Point Marker")]%string.

(** What [_apply_settings_to_graph] reads from the window: for a text
    field the outcome of [float(...)] or [int(...)] on its text, [None]
    when that raises [ValueError], and for a check box its state. *)
Record Form : Type := mkForm {
  txt_low : option float;
  txt_high : option float;
  txt_xstep : option Z;
  txt_grid_y : option Z;
  txt_grid_x : option Z;
  cmb_font_size : option Z;
  chk_x_grid : bool;
  chk_y_grid : bool;
  chk_highlight : bool;
  chk_slice_num : bool;
  chk_point_marker : bool;
  chk_filter_down_up : bool;
  chk_filter_up_down : bool;
}.

(** [_apply_settings_to_graph], lines 460-492: a field that does not
    parse leaves its attribute alone ([except ValueError: pass]). *)
Definition apply_settings_to_graph (g : t) (form : Form) : t :=
  {| flux := flux g; labels := labels g;
     y_low := from_option Py.PyFloat (y_low g) (txt_low form);
     y_high := from_option Py.PyFloat (y_high g) (txt_high form);
     x_step := from_option (Z.max 1) (x_step g) (txt_xstep form);
     grid_x := from_option (Z.max 1) (grid_x g) (txt_grid_x form);
     grid_y := from_option (Z.max 1) (grid_y g) (txt_grid_y form);
     grid_font_size := default (grid_font_size g) (cmb_font_size form);
     line_thickness := line_thickness g;
     show_x_grid := chk_x_grid form; show_y_grid := chk_y_grid form;
     highlight_inversions := chk_highlight form;
     draw_slice_number := chk_slice_num form;
     draw_point_marker := chk_point_marker form;
     show_down_to_up := negb (chk_filter_down_up form);
     show_up_to_down := negb (chk_filter_up_down form);
     colors := colors g;
     scroll_offset := scroll_offset g;
     visible_start := visible_start g; visible_end := visible_end g |}.

(** [self.graph.colors = ...] *)
Definition set_colors (g : t) (c : gmap string QColor) : t :=
  {| flux := flux g; labels := labels g;
     y_low := y_low g; y_high := y_high g; x_step := x_step g;
     grid_x := grid_x g; grid_y := grid_y g;
     grid_font_size := grid_font_size g; line_thickness := line_thickness g;
     show_x_grid := show_x_grid g; show_y_grid := show_y_grid g;
     highlight_inversions := highlight_inversions g;
     draw_slice_number := draw_slice_number g;
     draw_point_marker := draw_point_marker g;
     show_down_to_up := show_down_to_up g; show_up_to_down := show_up_to_down g;
     colors := c;
     scroll_offset := scroll_offset g;
     visible_start := visible_start g; visible_end := visible_end g |}.

(** [_pick_color], lines 301-311, on the widget: [self.graph.colors[key]]
    and [COLOR_LABELS[key]] raise [KeyError] for an unknown key (the
    buttons have the keys of [COLOR_LABELS]); [chosen] is the colour of
    the dialog, [None] when it is not valid (the dialog was cancelled). *)
Definition pick_color (g : t) (key : string) (chosen : option QColor) : option t :=
  _ ← colors g !! key;
  _ ← COLOR_LABELS !! key;
  Some (match chosen with
        | Some color => set_colors g (<[key := color]> (colors g))
        | None => g
        end).

(** [_reset_colours], lines 313-320, on the widget: every default is
    written over the colour of its key. *)
Definition reset_colours (g : t) : t :=
  set_colors g
    (foldl (λ c (kv : string * QColor), <[kv.1 := kv.2]> c) (colors g)
       (map_to_list DEFAULT_COLORS)).

(** The numbers that [_update_range_labels], lines 515-523, writes on the
    two labels; [flux] is the window's copy of the samples. *)
Definition range_labels (flux : list float) (g : t) : Z * Z :=
  match flux with
  | [] => (0, 0)
  | _ => (visible_start g + 1,
          Z.min (visible_end g + 1) (Z.of_nat (length flux)))
  end.

(** The states of the widget that the window can bring about: it is made
    by [__init__] and then changed by [_update_graph] (settings, then
    [set_data]), [_on_scroll], [_pick_color], [_reset_colours] and
    painting, which writes the two attributes of the visible range and
    no other. *)
Inductive reachable : t → Prop :=
| reach_init : reachable init
| reach_settings g form :
    reachable g → reachable (apply_settings_to_graph g form)
| reach_data g new_flux new_labels :
    reachable g → reachable (set_data g new_flux new_labels)
| reach_scroll g value :
    reachable g → reachable (set_scroll_offset g value)
| reach_pick g g' key chosen :
    reachable g → pick_color g key chosen = Some g' → reachable g'
| reach_reset g :
    reachable g → reachable (reset_colours g)
| reach_restore g key color :
    (* [_restore_settings], lines 365-371: a saved colour for a default key *)
    reachable g → is_Some (DEFAULT_COLORS !! key) →
    reachable (set_colors g (<[key := color]> (colors g)))
| reach_paint g w :
    (* [_paint], lines 162-163: a paint that gets there stores the range *)
    reachable g → flux g ≠ [] →
    reachable (set_visible g (visible_range g w).1 (visible_range g w).2).

End MainWindow.

(** ** span/video_sampler.py: which frames are kept *)

Module VideoSampler.

(** [sorted(set(frame_indices))], line 80 *)
Definition sorted_indices (frame_indices : list Z) : list Z :=
  merge_sort Z.le (elements (list_to_set frame_indices : gset Z)).

Section Frames.

(** A directory of numbered image files, [frame_%06d.jpg] or
    [k_%06d.jpg], is the map from the number to the file. *)
Context {Frame : Type}.

(** The body of the loop of lines 81-85: the copy is made only when the
    source frame exists. *)
Definition copy_frame (frames_dir selected_dir : gmap Z Frame) (item : Z * Z)
  : gmap Z Frame :=
  let '(seq_num, frame_idx) := item in
  match frames_dir !! frame_idx with
  | Some frame => <[seq_num := frame]> selected_dir
  | None => selected_dir
  end.

(** Lines 80-85: the directory [selected], empty since lines 55-58, after
    the loop over [enumerate(sorted_indices, start=1)]. *)
Definition select_frames (frames_dir : gmap Z Frame) (frame_indices : list Z)
  : gmap Z Frame :=
  foldl (copy_frame frames_dir) ∅ (Py.enumerate_from 1 (sorted_indices frame_indices)).

End Frames.

End VideoSampler.

(** ** span/data_parser.py *)

Module DataParser.

(** A [str] is the sequence of its code points. *)
Definition Str : Type := list N.

Definition TAB : N := 9.

(** The characters that [str.strip()] removes: those for which
    [str.isspace] holds. *)
Definition is_whitespace (c : N) : bool :=
  ((9 <=? c) && (c <=? 13) || (28 <=? c) && (c <=? 32)
   || (c =? 133) || (c =? 160) || (c =? 5760)
   || (8192 <=? c) && (c <=? 8202)
   || (c =? 8232) || (c =? 8233) || (c =? 8239) || (c =? 8287)
   || (c =? 12288))%N.

(** [s.lstrip()] and [s.strip()] *)
Fixpoint lstrip (s : Str) : Str :=
  match s with
  | c :: rest => if is_whitespace c then lstrip rest else s
  | [] => []
  end.

Definition strip (s : Str) : Str := reverse (lstrip (reverse (lstrip s))).

(** [s.split(sep)] for a separator of one character: the fields between
    the separators, at least one. *)
Fixpoint split (sep : N) (s : Str) : list Str :=
  match s with
  | [] => [[]]
  | c :: rest =>
      if (c =? sep)%N then [] :: split sep rest
      else match split sep rest with
           | field :: fields => (c :: field) :: fields
           | [] => [[c]]
           end
  end.

(** The two [ValueError]s of [parse_flux_file]; [ended_at] is the line
    number of the message. *)
Inductive Error : Set :=
| TooFewHeaderLines (ended_at : Z)
| NoValidData.

Section Parser.

(** [float(s)] of a string, [None] when it raises [ValueError]. *)
Context (float_of_str : Str → option float).

(** Lines 27-33: [readline] gives [''] at the end of the file. *)
Fixpoint skip_header (i : Z) (count : nat) (lines : list Str) : Error + list Str :=
  match count with
  | O => inr lines
  | S count' =>
      match lines with
      | [] => inl (TooFewHeaderLines (i + 1))
      | line :: rest =>
          if bool_decide (line = []) then inl (TooFewHeaderLines (i + 1))
          else skip_header (i + 1) count' rest
      end
  end.

(** Lines 37-46 for one line: the value that is appended, [None] for
    each of the four [continue]s. *)
Definition row_value (line : Str) : option float :=
  let line := strip line in
  if bool_decide (line = []) then None
  else
    let columns := split TAB line in
    if (length columns <? 3)%nat then None
    else columns !! 2%nat ≫= float_of_str.

(** The body of the loop of lines 36-46 *)
Definition add_row (flux_values : list float) (line : Str) : list float :=
  match row_value line with
  | Some value => flux_values ++ [value]
  | None => flux_values
  end.

(** [parse_flux_file], lines 22-50, on the lines of the opened file, each
    with its line end. *)
Definition parse_flux_file (lines : list Str) : Error + list float :=
  match skip_header 0 4 lines with
  | inl e => inl e
  | inr data =>
      match foldl add_row [] data with
      | [] => inl NoValidData
      | flux_values => inr flux_values
      end
  end.

End Parser.

End DataParser.

(** ** What the detector is specified to do *)

Section DetectorSpec.

Context {A : Type} (ltb : A → A → bool).

(** The samples at [p-2 .. p+2]. *)
Definition window (flux : list A) (p : nat) (a b c d e : A) : Prop :=
  flux !! (p - 2)%nat = Some a ∧ flux !! (p - 1)%nat = Some b ∧
  flux !! p = Some c ∧
  flux !! (p + 1)%nat = Some d ∧ flux !! (p + 2)%nat = Some e.

(** [samples[p-2] > samples[p-1] > samples[p] < samples[p+1] < samples[p+2]],
    all five in the sequence. *)
Definition valley (flux : list A) (p : nat) : Prop :=
  (2 ≤ p)%nat ∧ (p + 2 < length flux)%nat ∧
  ∃ a b c d e, window flux p a b c d e ∧
    gtb ltb a b = true ∧ gtb ltb b c = true ∧ ltb c d = true ∧ ltb d e = true.

(** [samples[p-2] < samples[p-1] < samples[p] > samples[p+1] > samples[p+2]] *)
Definition peak (flux : list A) (p : nat) : Prop :=
  (2 ≤ p)%nat ∧ (p + 2 < length flux)%nat ∧
  ∃ a b c d e, window flux p a b c d e ∧
    ltb a b = true ∧ ltb b c = true ∧ gtb ltb c d = true ∧ gtb ltb d e = true.

(** Every written label sits on a validated reversal. *)
Definition sound (flux : list A) (lbls : list InflectionType) : Prop :=
  ∀ p : nat,
    (lbls !! p = Some DOWN_TO_UP → valley flux p) ∧
    (lbls !! p = Some UP_TO_DOWN → peak flux p).

(** The invariant of the scan loop. *)
Definition scan_inv (flux : list A) (st : ScanState) : Prop :=
  length st.2 = length flux ∧ sound flux st.2.

(** Adjacent samples [x = flux[i]], [y = flux[i+1]] all related by [R]. *)
Definition adjacent (R : A → A → Prop) (flux : list A) : Prop :=
  ∀ (i : nat) (x y : A), flux !! i = Some x → flux !! S i = Some y → R x y.

Definition strictly_increasing : list A → Prop :=
  adjacent (λ x y, ltb x y = true).

Definition strictly_decreasing : list A → Prop :=
  adjacent (λ x y, gtb ltb x y = true).

(** No adjacent pair is unequal: neither sample is [<] or [>] the other,
    which is how the code tells equal neighbours. *)
Definition no_unequal_pair : list A → Prop :=
  adjacent (λ x y, ltb x y = false ∧ gtb ltb x y = false).

(** [<] is asymmetric. It is on [int], and on [float] too, NaN included. *)
Definition asymmetric : Prop := ∀ x y : A, ltb x y = true → ltb y x = false.

End DetectorSpec.

(** ** Notions used to state what the code does *)

(** The label that mirrors a label. *)
Definition swap_label (t : InflectionType) : InflectionType :=
  match t with
  | NORMAL => NORMAL
  | DOWN_TO_UP => UP_TO_DOWN
  | UP_TO_DOWN => DOWN_TO_UP
  end.

Section Orders.

Context {A B : Type} (ltbA : A → A → bool) (ltbB : B → B → bool) (f : A → B).

(** [f] keeps the order of the samples of [flux]. *)
Definition keeps_order (flux : list A) : Prop :=
  ∀ x y, x ∈ flux → y ∈ flux → ltbB (f x) (f y) = ltbA x y.

End Orders.

(** [>] in the place of [<]. *)
Definition mirrored {A : Type} (ltb : A → A → bool) (x y : A) : bool := ltb y x.

(** What every widget of the window satisfies. *)
Definition configured (g : GraphWidget.t) : Prop :=
  1 ≤ GraphWidget.x_step g ∧ 1 ≤ GraphWidget.grid_x g ∧ 1 ≤ GraphWidget.grid_y g ∧
  dom (GraphWidget.colors g) = dom DEFAULT_COLORS.

(** A pixel coordinate that every call on [painter] in the data section
    can take: the calls pass [c], [c - 2], [c - 5], [c - 6] or [c - 8]. *)
Definition on_canvas (c : Z) : Prop := -2147483640 ≤ c ≤ 2147483647.

(** The pixel of sample [i], as the loop computes it. *)
Definition pixel_of (g : GraphWidget.t) (h : Z) (y_range : Py.Num) (start i : Z) (pt : Z * Z) : Prop :=
  ∃ val, GraphWidget.flux g !! Z.to_nat i = Some val ∧
         GraphWidget.flux_to_y g h y_range (Py.PyFloat val) = Some pt.2 ∧
         pt.1 = (i - start) * GraphWidget.x_step g.

(** A sample whose mapping raises or whose pixel is off the canvas. *)
Definition off_canvas (g : GraphWidget.t) (h : Z) (y_range : Py.Num) (start i : Z) : Prop :=
  ∃ val, GraphWidget.flux g !! Z.to_nat i = Some val ∧
         match GraphWidget.flux_to_y g h y_range (Py.PyFloat val) with
         | None => True
         | Some py => ¬ (on_canvas ((i - start) * GraphWidget.x_step g) ∧ on_canvas py)
         end.

(** What holds of the loop variables before sample [a]. *)
Definition drawn_up_to (g : GraphWidget.t) (h : Z) (y_range : Py.Num) (start a : Z) (s : GraphWidget.DataLoop) : Prop :=
  Forall2 (pixel_of g h y_range start) (Py.range start a) (GraphWidget.points s) ∧
  (start < a → pixel_of g h y_range start (a - 1) (GraphWidget.prev_x s, GraphWidget.prev_y s) ∧
               last (GraphWidget.points s) = Some (GraphWidget.prev_x s, GraphWidget.prev_y s)) ∧
  (∀ m, m ∈ GraphWidget.inflection_markers s →
        ∃ j, start ≤ j < a ∧ pixel_of g h y_range start j (m.1.1, m.1.2)) ∧
  (start + 1 < a → Forall (λ pt, GraphWidget.c_int pt.1 = true ∧ GraphWidget.c_int pt.2 = true) (GraphWidget.points s)).

(** ** Inputs used as instances *)

(** Ten samples in a widget 20 pixels wide, scrolled to sample 3. *)
Definition ten_samples : GraphWidget.t :=
  GraphWidget.set_scroll_offset
    (GraphWidget.set_data GraphWidget.init
       [100; 200; 300; 250; 200; 150; 175; 200; 225; 250]%float
       (replicate 10 NORMAL)) 3.

(** Two samples of which the second maps far below the widget. *)
Definition far_sample : GraphWidget.t :=
  GraphWidget.set_data GraphWidget.init [0; 1000000000000]%float [NORMAL; NORMAL].

(** The widget after the colour of the rising line was picked. *)
Definition picked_line_up : GraphWidget.t :=
  MainWindow.set_colors GraphWidget.init
    (<["line_up" := mkQColor 1 2 3]> (GraphWidget.colors GraphWidget.init)).

(** The range 1e16 .. 1e17 with a grid step of 1: the first grid value is
    1e16, and 1e16 + 1 is 1e16 again. *)
Definition stalled_grid : GraphWidget.t :=
  MainWindow.apply_settings_to_graph GraphWidget.init
    (MainWindow.mkForm (Some 10000000000000000%float) (Some 100000000000000000%float)
       None (Some 1) None None true true true false false false false).

(** The step field holds [0]; the other text fields do not parse. *)
Definition zero_step_form : MainWindow.Form :=
  MainWindow.mkForm None None (Some 0) None None None
    true true true false false false false.

(** [float] for the one cell of the files below, ["7"]. *)
Definition float_of_seven (s : DataParser.Str) : option float :=
  if decide (s = [55%N]) then Some 7%float else None.

(** Four header lines, a blank line, a row of two cells and the row
    ["a<TAB>b<TAB>7"]. *)
Definition small_file : list DataParser.Str :=
  [[104; 10]; [104; 10]; [104; 10]; [104; 10];
   [10]; [97; 9; 98; 10]; [97; 9; 98; 9; 55; 10]]%N.

(** ** The model on small inputs *)

Example index_from_the_end : Py.index [1; 2; 3] (-1) = Some 3.
Proof. reflexivity. Qed.

Example index_raises :
  Py.index [1; 2; 3] 3 = None ∧ Py.index [1; 2; 3] (-4) = None.
Proof. split; reflexivity. Qed.

Example range_2_6 : Py.range 2 6 = [2; 3; 4; 5] ∧ Py.range 5 2 = [].
Proof. split; reflexivity. Qed.

Example int_truncates :
  Py.int_of_float 192.75 = Some 192 ∧ Py.int_of_float (-3.5) = Some (-3) ∧
  Py.int_of_float nan = None ∧ Py.int_of_float infinity = None.
Proof. vm_compute. repeat split. Qed.

Example detect_two_reversals :
  detect_float [1; 2; 3; 2; 1; 2; 3; 4; 3; 2; 1]%float
  = Some (mkInflectionResult
            [NORMAL; NORMAL; UP_TO_DOWN; NORMAL; DOWN_TO_UP; NORMAL; NORMAL;
             UP_TO_DOWN; NORMAL; NORMAL; NORMAL]).
Proof. vm_compute. reflexivity. Qed.

(** A plateau breaks the strict rise before the turn: no label. *)
Example detect_plateau :
  detect_int [1; 2; 3; 3; 2; 1; 0]
  = Some (mkInflectionResult (replicate 7 NORMAL)).
Proof. reflexivity. Qed.

Example points_of_both_types :
  get_inflection_points [10; 8; 6; 7; 9; 11]%float
    [NORMAL; NORMAL; DOWN_TO_UP; NORMAL; UP_TO_DOWN; NORMAL] None
  = Some [(2, 6%float, DOWN_TO_UP); (4, 9%float, UP_TO_DOWN)].
Proof. vm_compute. reflexivity. Qed.

Example points_per_screen_default :
  GraphWidget.points_per_screen GraphWidget.init 800 = 160 ∧
  GraphWidget.points_per_screen GraphWidget.init 3 = 1.
Proof. split; reflexivity. Qed.

Example flux_to_y_default :
  GraphWidget.flux_to_y GraphWidget.init 200 (Py.PyInt 5000) (Py.PyFloat 2500)
  = Some 100 ∧
  GraphWidget.flux_to_y GraphWidget.init 200 (Py.PyInt 0) (Py.PyFloat 2500) = None.
Proof. vm_compute. split; reflexivity. Qed.

(** ** Python list lemmas *)

Lemma index_of_nat {B : Type} (l : list B) (k : nat) :
  Py.index l (Z.of_nat k) = l !! k.
Proof.
  unfold Py.index. destruct (Z.leb_spec 0 (Z.of_nat k)); [|lia].
  by rewrite Nat2Z.id.
Qed.

Lemma index_nonneg {B : Type} (l : list B) (i : Z) :
  0 ≤ i → Py.index l i = l !! Z.to_nat i.
Proof. intros Hi. by rewrite <- (Z2Nat.id i) at 1 by done; rewrite index_of_nat. Qed.

Lemma index_in_range {B : Type} (l : list B) (i : Z) :
  0 ≤ i < Z.of_nat (length l) → ∃ x, l !! Z.to_nat i = Some x ∧ Py.index l i = Some x.
Proof.
  intros Hi. destruct (lookup_lt_is_Some_2 l (Z.to_nat i)) as [x Hx]; [lia|].
  exists x. split; [done|]. rewrite index_nonneg; [done|lia].
Qed.

Lemma index_out_of_range {B : Type} (l : list B) (i : Z) :
  Z.of_nat (length l) ≤ i → Py.index l i = None.
Proof.
  intros Hi. rewrite index_nonneg by lia. apply lookup_ge_None. lia.
Qed.

Lemma setitem_in_range {B : Type} (l : list B) (i : Z) (v : B) :
  0 ≤ i < Z.of_nat (length l) → Py.setitem l i v = Some (<[Z.to_nat i := v]> l).
Proof.
  intros Hi. unfold Py.setitem.
  destruct (Z.leb_spec 0 i); [|lia].
  destruct (Z.ltb_spec i (Z.of_nat (length l))); [done|lia].
Qed.

Lemma elem_of_range (lo hi i : Z) : i ∈ Py.range lo hi ↔ lo ≤ i < hi.
Proof.
  unfold Py.range. rewrite list_elem_of_fmap. split.
  - intros (k & -> & Hk). apply elem_of_seq in Hk. lia.
  - intros Hi. exists (Z.to_nat (i - lo)). split; [lia|].
    apply elem_of_seq. lia.
Qed.

(** A loop whose body keeps an invariant, and does not raise while the
    invariant holds, ends without raising and keeps the invariant. *)
Lemma for_each_invariant {St I : Type} (body : St → I → option St)
    (Inv : St → Prop) (items : list I) (s : St) :
  Inv s →
  (∀ s i, i ∈ items → Inv s → ∃ s', body s i = Some s' ∧ Inv s') →
  ∃ s', Py.for_each body s items = Some s' ∧ Inv s'.
Proof.
  revert s. induction items as [|i rest IH]; intros s Hs Hbody; simpl.
  - by exists s.
  - destruct (Hbody s i) as (s1 & -> & Hs1); [left|done|]. simpl.
    apply IH; [done|]. intros s2 j Hj. apply Hbody. by right.
Qed.

(** ** The 5-point rule *)

Section DetectorFacts.

Context {A : Type} (ltb : A → A → bool).

Lemma lt_at_in_range (flux : list A) (i j : Z) :
  0 ≤ i < Z.of_nat (length flux) → 0 ≤ j < Z.of_nat (length flux) →
  ∃ x y, flux !! Z.to_nat i = Some x ∧ flux !! Z.to_nat j = Some y ∧
         lt_at ltb flux i j = Some (ltb x y) ∧
         gt_at ltb flux i j = Some (gtb ltb x y).
Proof.
  intros Hi Hj.
  destruct (index_in_range flux i Hi) as (x & Hx & Hix).
  destruct (index_in_range flux j Hj) as (y & Hy & Hjy).
  exists x, y. unfold lt_at, gt_at. rewrite Hix, Hjy. by repeat split.
Qed.

(** The subscripts of the validation, once the two bounds have passed. *)
Lemma window_in_range (flux : list A) (p : Z) :
  2 ≤ p → p + 2 < Z.of_nat (length flux) →
  ∃ a b c d e, window flux (Z.to_nat p) a b c d e ∧
    lt_at ltb flux p (p + 1) = Some (ltb c d) ∧
    lt_at ltb flux (p + 1) (p + 2) = Some (ltb d e) ∧
    lt_at ltb flux p (p - 1) = Some (ltb c b) ∧
    lt_at ltb flux (p - 1) (p - 2) = Some (ltb b a) ∧
    gt_at ltb flux p (p + 1) = Some (gtb ltb c d) ∧
    gt_at ltb flux (p + 1) (p + 2) = Some (gtb ltb d e) ∧
    gt_at ltb flux p (p - 1) = Some (gtb ltb c b) ∧
    gt_at ltb flux (p - 1) (p - 2) = Some (gtb ltb b a).
Proof.
  intros Hlo Hhi.
  destruct (index_in_range flux (p - 2)) as (a & Ha & Ha'); [lia|].
  destruct (index_in_range flux (p - 1)) as (b & Hb & Hb'); [lia|].
  destruct (index_in_range flux p) as (c & Hc & Hc'); [lia|].
  destruct (index_in_range flux (p + 1)) as (d & Hd & Hd'); [lia|].
  destruct (index_in_range flux (p + 2)) as (e & He & He'); [lia|].
  exists a, b, c, d, e. unfold window, lt_at, gt_at.
  rewrite Ha', Hb', Hc', Hd', He'. simpl.
  replace (Z.to_nat p - 2)%nat with (Z.to_nat (p - 2)) by lia.
  replace (Z.to_nat p - 1)%nat with (Z.to_nat (p - 1)) by lia.
  replace (Z.to_nat p + 1)%nat with (Z.to_nat (p + 1)) by lia.
  replace (Z.to_nat p + 2)%nat with (Z.to_nat (p + 2)) by lia.
  by repeat split.
Qed.

(** The validation never raises: its two bound tests come first. It
    accepts exactly the valleys. *)
Lemma valid_down_to_up_spec (flux : list A) (p : Z) :
  ∃ ok, valid_down_to_up ltb flux (Z.of_nat (length flux)) p = Some ok ∧
        (ok = true ↔ 0 ≤ p ∧ valley ltb flux (Z.to_nat p)).
Proof.
  unfold valid_down_to_up.
  destruct (Z.geb_spec p 2) as [Hlo|Hlo]; simpl.
  2: { exists false. split; [done|]. split; [done|]. intros [? [? _]]. lia. }
  destruct (Z.ltb_spec (p + 2) (Z.of_nat (length flux))) as [Hhi|Hhi]; simpl.
  2: { exists false. split; [done|]. split; [done|]. intros [? [? [? _]]]. lia. }
  destruct (window_in_range flux p) as
    (a & b & c & d & e & Hw & -> & -> & -> & -> & _); [lia|lia|].
  simpl. exists (ltb c d && ltb d e && ltb c b && ltb b a).
  split.
  { by destruct (ltb c d), (ltb d e), (ltb c b), (ltb b a). }
  rewrite !andb_true_iff. split.
  - intros [[[Hcd Hde] Hcb] Hba]. split; [lia|].
    split; [lia|]. split; [lia|]. by exists a, b, c, d, e.
  - intros [_ (_ & _ & a' & b' & c' & d' & e' & Hw' & Hab & Hbc & Hcd & Hde)].
    destruct Hw as (Ha & Hb & Hc & Hd & He).
    destruct Hw' as (Ha' & Hb' & Hc' & Hd' & He').
    unfold gtb in *. by simplify_eq.
Qed.

Lemma valid_up_to_down_spec (flux : list A) (p : Z) :
  ∃ ok, valid_up_to_down ltb flux (Z.of_nat (length flux)) p = Some ok ∧
        (ok = true ↔ 0 ≤ p ∧ peak ltb flux (Z.to_nat p)).
Proof.
  unfold valid_up_to_down.
  destruct (Z.geb_spec p 2) as [Hlo|Hlo]; simpl.
  2: { exists false. split; [done|]. split; [done|]. intros [? [? _]]. lia. }
  destruct (Z.ltb_spec (p + 2) (Z.of_nat (length flux))) as [Hhi|Hhi]; simpl.
  2: { exists false. split; [done|]. split; [done|]. intros [? [? [? _]]]. lia. }
  destruct (window_in_range flux p) as
    (a & b & c & d & e & Hw & _ & _ & _ & _ & -> & -> & -> & ->); [lia|lia|].
  simpl. exists (gtb ltb c d && gtb ltb d e && gtb ltb c b && gtb ltb b a).
  split.
  { by destruct (gtb ltb c d), (gtb ltb d e), (gtb ltb c b), (gtb ltb b a). }
  rewrite !andb_true_iff. split.
  - intros [[[Hcd Hde] Hcb] Hba]. split; [lia|].
    split; [lia|]. split; [lia|]. by exists a, b, c, d, e.
  - intros [_ (_ & _ & a' & b' & c' & d' & e' & Hw' & Hab & Hbc & Hcd & Hde)].
    destruct Hw as (Ha & Hb & Hc & Hd & He).
    destruct Hw' as (Ha' & Hb' & Hc' & Hd' & He').
    unfold gtb in *. by simplify_eq.
Qed.

(** *** The scan *)

Lemma sound_replicate (flux : list A) (k : nat) : sound ltb flux (replicate k NORMAL).
Proof.
  intros p. split; intros [H _]%lookup_replicate_1; discriminate.
Qed.

Lemma sound_insert_valley (flux : list A) (lbls : list InflectionType) (p : nat) :
  sound ltb flux lbls → valley ltb flux p → sound ltb flux (<[p := DOWN_TO_UP]> lbls).
Proof.
  intros Hs Hv q. destruct (decide (p = q)) as [->|Hne].
  - destruct (decide (q < length lbls)%nat) as [Hlt|Hge].
    + rewrite list_lookup_insert_eq by done. split; [done|discriminate].
    + rewrite list_insert_ge by lia. apply Hs.
  - rewrite list_lookup_insert_ne by done. apply Hs.
Qed.

Lemma sound_insert_peak (flux : list A) (lbls : list InflectionType) (p : nat) :
  sound ltb flux lbls → peak ltb flux p → sound ltb flux (<[p := UP_TO_DOWN]> lbls).
Proof.
  intros Hs Hv q. destruct (decide (p = q)) as [->|Hne].
  - destruct (decide (q < length lbls)%nat) as [Hlt|Hge].
    + rewrite list_lookup_insert_eq by done. split; [discriminate|done].
    + rewrite list_insert_ge by lia. apply Hs.
  - rewrite list_lookup_insert_ne by done. apply Hs.
Qed.

Lemma current_direction_total (flux : list A) (i : Z) :
  1 ≤ i < Z.of_nat (length flux) →
  ∃ x y, flux !! Z.to_nat i = Some x ∧ flux !! Z.to_nat (i - 1) = Some y ∧
    current_direction ltb flux i
    = Some (if gtb ltb x y then Some up else if ltb x y then Some down else None).
Proof.
  intros Hi.
  destruct (lt_at_in_range flux i (i - 1)) as (x & y & Hx & Hy & Hlt & Hgt);
    [lia|lia|].
  exists x, y. unfold current_direction. rewrite Hgt, Hlt. simpl.
  repeat split; [done..|]. by destruct (gtb ltb x y), (ltb x y).
Qed.

Lemma on_direction_inv (flux : list A) (st : ScanState) (i : Z) (cur : Direction) :
  scan_inv ltb flux st →
  ∃ st', on_direction ltb flux (Z.of_nat (length flux)) st i cur = Some st' ∧
         scan_inv ltb flux st'.
Proof.
  destruct st as [prev lbls]. intros [Hlen Hsound]. simpl in Hlen, Hsound.
  unfold on_direction. case_bool_decide as Hne; [|by eexists].
  destruct prev, cur; try done; simpl.
  - (* up, then down *)
    destruct (valid_up_to_down_spec flux (i - 1)) as (ok & -> & Hok). simpl.
    destruct ok; [|by eexists].
    destruct Hok as [[Hp Hpk] _]; [done|].
    rewrite setitem_in_range by (destruct Hpk as (? & ? & _); lia). simpl.
    eexists. split; [done|]. split; simpl.
    + by rewrite length_insert.
    + by apply sound_insert_peak.
  - (* down, then up *)
    destruct (valid_down_to_up_spec flux (i - 1)) as (ok & -> & Hok). simpl.
    destruct ok; [|by eexists].
    destruct Hok as [[Hp Hpk] _]; [done|].
    rewrite setitem_in_range by (destruct Hpk as (? & ? & _); lia). simpl.
    eexists. split; [done|]. split; simpl.
    + by rewrite length_insert.
    + by apply sound_insert_valley.
Qed.

Lemma scan_step_inv (flux : list A) (st : ScanState) (i : Z) :
  1 ≤ i < Z.of_nat (length flux) → scan_inv ltb flux st →
  ∃ st', scan_step ltb flux (Z.of_nat (length flux)) st i = Some st' ∧
         scan_inv ltb flux st'.
Proof.
  intros Hi Hinv.
  destruct (current_direction_total flux i Hi) as (x & y & _ & _ & Hc).
  unfold scan_step. rewrite Hc. simpl.
  destruct (gtb ltb x y); [by apply on_direction_inv|].
  destruct (ltb x y); [by apply on_direction_inv|]. by exists st.
Qed.

Lemma initial_direction_total (flux : list A) (idxs : list Z) :
  (∀ i, i ∈ idxs → 1 ≤ i < Z.of_nat (length flux)) →
  ∃ d, initial_direction ltb flux idxs = Some d.
Proof.
  induction idxs as [|i rest IH]; intros Hin; simpl; [by eexists|].
  destruct (lt_at_in_range flux i (i - 1)) as (x & y & _ & _ & -> & ->).
  { pose proof (Hin i (list_elem_of_here i rest)). lia. }
  { pose proof (Hin i (list_elem_of_here i rest)). lia. }
  simpl. destruct (gtb ltb x y); [by eexists|].
  destruct (ltb x y); [by eexists|].
  apply IH. intros j Hj. apply Hin. by right.
Qed.

(** [detect_inflections] never raises, gives one label per sample, and
    every label other than [NORMAL] sits on a validated reversal. *)
Lemma detect_inflections_sound (flux : list A) :
  ∃ lbls, detect_inflections ltb flux = Some (mkInflectionResult lbls) ∧
          length lbls = length flux ∧ sound ltb flux lbls.
Proof.
  unfold detect_inflections.
  destruct (Z.ltb_spec (Z.of_nat (length flux)) 5) as [Hshort|Hlong].
  { eexists. split; [done|]. split; [apply length_replicate|apply sound_replicate]. }
  destruct (initial_direction_total flux (Py.range 1 (Z.of_nat (length flux))))
    as [d ->].
  { intros i Hi%elem_of_range. lia. }
  simpl. destruct d as [prev|].
  2: { eexists. split; [done|]. split; [apply length_replicate|apply sound_replicate]. }
  destruct (for_each_invariant (scan_step ltb flux (Z.of_nat (length flux)))
              (scan_inv ltb flux) (Py.range 2 (Z.of_nat (length flux)))
              (prev, replicate (length flux) NORMAL)) as (st & Hst & Hlen & Hsound).
  { split; simpl; [apply length_replicate|apply sound_replicate]. }
  { intros s i Hi%elem_of_range Hs. apply scan_step_inv; [lia|done]. }
  unfold scan. rewrite Hst. simpl. by exists st.2.
Qed.

(** *** Sequences without a reversal *)

Lemma all_normal_short (flux : list A) :
  (length flux < 5)%nat →
  detect_inflections ltb flux
  = Some (mkInflectionResult (replicate (length flux) NORMAL)).
Proof.
  intros Hn. unfold detect_inflections.
  destruct (Z.ltb_spec (Z.of_nat (length flux)) 5); [done|lia].
Qed.

Lemma initial_direction_cons (flux : list A) (i : Z) (rest : list Z) :
  initial_direction ltb flux (i :: rest)
  = c ← current_direction ltb flux i;
    match c with
    | Some d => Some (Some d)
    | None => initial_direction ltb flux rest
    end.
Proof.
  simpl. unfold current_direction.
  destruct (gt_at ltb flux i (i - 1)) as [[|]|]; simpl; [done| |done].
  by destruct (lt_at ltb flux i (i - 1)) as [[|]|].
Qed.

Lemma scan_same_direction (flux : list A) (n : Z) (d : Direction)
    (lbls : list InflectionType) (idxs : list Z) :
  (∀ i, i ∈ idxs → current_direction ltb flux i = Some (Some d)) →
  scan ltb flux n (d, lbls) idxs = Some (d, lbls).
Proof.
  intros Hdir.
  destruct (for_each_invariant (scan_step ltb flux n) (λ st, st = (d, lbls))
              idxs (d, lbls)) as (st & Hst & ->); [done| |done].
  intros st i Hi ->. exists (d, lbls). split; [|done].
  unfold scan_step. rewrite (Hdir i Hi). simpl.
  by rewrite bool_decide_eq_false_2 by (intros Hne; by apply Hne).
Qed.

Lemma all_normal_one_direction (flux : list A) (d : Direction) :
  (∀ i, 1 ≤ i < Z.of_nat (length flux) →
        current_direction ltb flux i = Some (Some d)) →
  detect_inflections ltb flux
  = Some (mkInflectionResult (replicate (length flux) NORMAL)).
Proof.
  intros Hdir. unfold detect_inflections.
  destruct (Z.ltb_spec (Z.of_nat (length flux)) 5) as [|Hlong]; [done|].
  destruct (Py.range 1 (Z.of_nat (length flux))) as [|i rest] eqn:Hrange.
  { assert (1 ∈ Py.range 1 (Z.of_nat (length flux))) as Hin
      by (apply elem_of_range; lia).
    rewrite Hrange in Hin. by apply elem_of_nil in Hin. }
  rewrite initial_direction_cons, Hdir; simpl.
  2: { apply elem_of_range. rewrite Hrange. left. }
  rewrite scan_same_direction; [done|].
  intros j Hj%elem_of_range. apply Hdir. lia.
Qed.

Lemma all_normal_increasing (flux : list A) :
  strictly_increasing ltb flux →
  detect_inflections ltb flux
  = Some (mkInflectionResult (replicate (length flux) NORMAL)).
Proof.
  intros Hinc. apply (all_normal_one_direction flux up). intros i Hi.
  destruct (current_direction_total flux i Hi) as (x & y & Hx & Hy & ->).
  replace (Z.to_nat i) with (S (Z.to_nat (i - 1))) in Hx by lia.
  unfold gtb. by rewrite (Hinc _ _ _ Hy Hx).
Qed.

Lemma all_normal_decreasing (flux : list A) :
  asymmetric ltb → strictly_decreasing ltb flux →
  detect_inflections ltb flux
  = Some (mkInflectionResult (replicate (length flux) NORMAL)).
Proof.
  intros Hasym Hdec. apply (all_normal_one_direction flux down). intros i Hi.
  destruct (current_direction_total flux i Hi) as (x & y & Hx & Hy & ->).
  replace (Z.to_nat i) with (S (Z.to_nat (i - 1))) in Hx by lia.
  pose proof (Hdec _ _ _ Hy Hx) as Hlt. unfold gtb in *.
  by rewrite (Hasym _ _ Hlt), Hlt.
Qed.

Lemma all_normal_no_unequal_pair (flux : list A) :
  no_unequal_pair ltb flux →
  detect_inflections ltb flux
  = Some (mkInflectionResult (replicate (length flux) NORMAL)).
Proof.
  intros Heq. unfold detect_inflections.
  destruct (Z.ltb_spec (Z.of_nat (length flux)) 5) as [|Hlong]; [done|].
  assert (∀ idxs, (∀ i, i ∈ idxs → 1 ≤ i < Z.of_nat (length flux)) →
                  initial_direction ltb flux idxs = Some None) as Hnone.
  { induction idxs as [|i rest IH]; intros Hin; [done|].
    rewrite initial_direction_cons.
    pose proof (Hin i (list_elem_of_here i rest)) as Hi.
    destruct (current_direction_total flux i Hi) as (x & y & Hx & Hy & ->).
    replace (Z.to_nat i) with (S (Z.to_nat (i - 1))) in Hx by lia.
    destruct (Heq _ _ _ Hy Hx) as [Hlt Hgt]. unfold gtb in *.
    rewrite Hlt, Hgt. simpl. apply IH. intros j Hj. apply Hin. by right. }
  rewrite Hnone; [done|]. intros i Hi%elem_of_range. lia.
Qed.

(** *** Neighbouring labels *)

Lemma sound_no_neighbours (flux : list A) (lbls : list InflectionType)
    (p : nat) (t1 t2 : InflectionType) :
  asymmetric ltb → sound ltb flux lbls →
  lbls !! p = Some t1 → lbls !! S p = Some t2 →
  t1 = NORMAL ∨ t2 = NORMAL.
Proof.
  intros Hasym Hsound H1 H2.
  destruct (Hsound p) as [Hv1 Hp1], (Hsound (S p)) as [Hv2 Hp2].
  destruct t1; [by left| |]; destruct t2; [by right| | |by right| |]; exfalso.
  - destruct (Hv1 H1) as (_ & _ & a & b & c & d & e & Hw & _ & _ & Hcd & _).
    destruct (Hv2 H2) as (_ & _ & a' & b' & c' & d' & e' & Hw' & _ & Hbc & _).
    destruct Hw as (_ & _ & Hc & Hd & _), Hw' as (_ & Hb' & Hc' & _).
    replace (S p - 1)%nat with p in Hb' by lia.
    replace (p + 1)%nat with (S p) in Hd by lia.
    unfold gtb in *. simplify_eq. by rewrite (Hasym _ _ Hcd) in Hbc.
  - destruct (Hv1 H1) as (_ & _ & a & b & c & d & e & Hw & _ & _ & _ & Hde).
    destruct (Hp2 H2) as (_ & _ & a' & b' & c' & d' & e' & Hw' & _ & _ & Hcd & _).
    destruct Hw as (_ & _ & _ & Hd & He), Hw' as (_ & _ & Hc' & Hd' & _).
    replace (S p + 1)%nat with (p + 2)%nat in Hd' by lia.
    replace (p + 1)%nat with (S p) in Hd by lia.
    unfold gtb in *. simplify_eq. by rewrite (Hasym _ _ Hde) in Hcd.
  - destruct (Hp1 H1) as (_ & _ & a & b & c & d & e & Hw & _ & _ & _ & Hde).
    destruct (Hv2 H2) as (_ & _ & a' & b' & c' & d' & e' & Hw' & _ & _ & Hcd & _).
    destruct Hw as (_ & _ & _ & Hd & He), Hw' as (_ & _ & Hc' & Hd' & _).
    replace (S p + 1)%nat with (p + 2)%nat in Hd' by lia.
    replace (p + 1)%nat with (S p) in Hd by lia.
    unfold gtb in *. simplify_eq. by rewrite (Hasym _ _ Hde) in Hcd.
  - destruct (Hp1 H1) as (_ & _ & a & b & c & d & e & Hw & _ & _ & Hcd & _).
    destruct (Hp2 H2) as (_ & _ & a' & b' & c' & d' & e' & Hw' & _ & Hbc & _).
    destruct Hw as (_ & _ & Hc & Hd & _), Hw' as (_ & Hb' & Hc' & _).
    replace (S p - 1)%nat with p in Hb' by lia.
    replace (p + 1)%nat with (S p) in Hd by lia.
    unfold gtb in *. simplify_eq. by rewrite (Hasym _ _ Hcd) in Hbc.
Qed.

(** *** The properties of [detect_inflections] *)

(** C1. [detect_inflections] returns one label per sample, and labels an
    index [p] [DOWN_TO_UP] only if [2 <= p], [p + 2 < len(flux)] and
    [flux[p-2] > flux[p-1] > flux[p] < flux[p+1] < flux[p+2]], and
    [UP_TO_DOWN] only in the mirror image. An index with [p < 2] or
    [p + 2 >= len(flux)], or whose five samples are not such a strict V,
    keeps [NORMAL]. *)
Theorem detect_labels_only_validated_reversals (flux : list A) :
  ∃ lbls,
    detect_inflections ltb flux = Some (mkInflectionResult lbls) ∧
    length lbls = length flux ∧
    ∀ p : nat,
      (lbls !! p = Some DOWN_TO_UP → valley ltb flux p) ∧
      (lbls !! p = Some UP_TO_DOWN → peak ltb flux p) ∧
      ((p < length flux)%nat →
       (p < 2)%nat ∨ (p + 2 ≥ length flux)%nat ∨
         (¬ valley ltb flux p ∧ ¬ peak ltb flux p) →
       lbls !! p = Some NORMAL).
Proof.
  destruct (detect_inflections_sound flux) as (lbls & Hrun & Hlen & Hsound).
  exists lbls. split; [done|]. split; [done|]. intros p.
  destruct (Hsound p) as [Hv Hp]. split; [done|]. split; [done|].
  intros Hlt Hno.
  destruct (lookup_lt_is_Some_2 lbls p) as [t Ht]; [lia|]. rewrite Ht.
  destruct t; [done| |]; exfalso.
  - specialize (Hv Ht). destruct Hno as [?|[?|[Hnv _]]]; [| |done];
      destruct Hv as (? & ? & _); lia.
  - specialize (Hp Ht). destruct Hno as [?|[?|[_ Hnp]]]; [| |done];
      destruct Hp as (? & ? & _); lia.
Qed.

(** On any sample type whose [<] is asymmetric: the labelling is all
    [NORMAL] for a short input, an input without an unequal adjacent pair,
    and a strictly monotonic input. *)
Lemma all_normal_cases (flux : list A) :
  asymmetric ltb →
  (length flux < 5)%nat ∨ no_unequal_pair ltb flux ∨
    strictly_increasing ltb flux ∨ strictly_decreasing ltb flux →
  detect_inflections ltb flux
  = Some (mkInflectionResult (replicate (length flux) NORMAL)).
Proof.
  intros Hasym [Hshort|[Heq|[Hinc|Hdec]]].
  - by apply all_normal_short.
  - by apply all_normal_no_unequal_pair.
  - by apply all_normal_increasing.
  - by apply all_normal_decreasing.
Qed.

(** On any sample type whose [<] is asymmetric, two neighbours are never
    both labelled. *)
Lemma no_adjacent_reversals (flux : list A) :
  asymmetric ltb →
  ∃ lbls,
    detect_inflections ltb flux = Some (mkInflectionResult lbls) ∧
    (∀ (p : nat) (t1 t2 : InflectionType),
       lbls !! p = Some t1 → lbls !! S p = Some t2 →
       t1 = NORMAL ∨ t2 = NORMAL) ∧
    (∀ (p q : nat) (t1 t2 : InflectionType),
       lbls !! p = Some t1 → lbls !! q = Some t2 →
       t1 ≠ NORMAL → t2 ≠ NORMAL → (p < q)%nat → (p + 2 ≤ q)%nat).
Proof.
  intros Hasym.
  destruct (detect_inflections_sound flux) as (lbls & Hrun & Hlen & Hsound).
  exists lbls. split; [done|].
  assert (∀ (p : nat) (t1 t2 : InflectionType),
            lbls !! p = Some t1 → lbls !! S p = Some t2 →
            t1 = NORMAL ∨ t2 = NORMAL) as Hadj.
  { intros p t1 t2. by apply sound_no_neighbours with (flux := flux). }
  split; [done|]. intros p q t1 t2 H1 H2 Hn1 Hn2 Hpq.
  destruct (decide (q = S p)) as [->|Hne]; [|lia].
  destruct (Hadj p t1 t2 H1 H2); done.
Qed.

End DetectorFacts.

(** ** The detector on [int] and [float] samples *)

Lemma int_ltb_asymmetric : asymmetric Z.ltb.
Proof. intros x y Hlt. apply Z.ltb_lt in Hlt. apply Z.ltb_ge. lia. Qed.

(** Two floats compared both ways: every case of [SFcompare] but the one
    of two finite values of the same sign is decided by the constructors;
    that one compares exponents, then mantissas. *)
Ltac compare_both_ways x y :=
  unfold SFeqb, SFltb, SFcompare;
  let s1 := fresh "s" in let s2 := fresh "s" in
  let m1 := fresh "m" in let m2 := fresh "m" in
  let e1 := fresh "e" in let e2 := fresh "e" in
  destruct x as [s1|s1| |s1 m1 e1], y as [s2|s2| |s2 m2 e2];
  try destruct s1; try destruct s2; try done;
  rewrite (Z.compare_antisym e1 e2);
  change (Pos.compare_cont Eq m2 m1) with (m2 ?= m1)%positive;
  change (Pos.compare_cont Eq m1 m2) with (m1 ?= m2)%positive;
  rewrite (Pos.compare_antisym m1 m2);
  by destruct (e1 ?= e2), (m1 ?= m2)%positive.

Lemma SFltb_asymmetric : asymmetric SFltb.
Proof. intros x y. compare_both_ways x y. Qed.

Lemma float_ltb_asymmetric : asymmetric PrimFloat.ltb.
Proof. intros x y. rewrite !FloatAxioms.ltb_spec. apply SFltb_asymmetric. Qed.

(** C2. On [[10, 8, 6, 7, 9, 11]] the detector labels index 2
    [DOWN_TO_UP] and every other index [NORMAL], for [float] samples and
    for [int] samples alike. *)
Theorem detect_example_reversal :
  detect_float [10; 8; 6; 7; 9; 11]%float
  = Some (mkInflectionResult [NORMAL; NORMAL; DOWN_TO_UP; NORMAL; NORMAL; NORMAL]) ∧
  detect_int [10; 8; 6; 7; 9; 11]
  = Some (mkInflectionResult [NORMAL; NORMAL; DOWN_TO_UP; NORMAL; NORMAL; NORMAL]).
Proof. split; vm_compute; reflexivity. Qed.

(** C3. On [[10, 8, 6, 7, 5, 4]] every label is [NORMAL]. The first
    direction is [down]; the candidate at index 2 (seen at [i = 3]) fails
    its validation, yet the tracked direction becomes [up]; so the pair at
    [i = 4] gives a second candidate, at index 3, which fails too and
    leaves the direction [down]. *)
Theorem detect_example_false_reversal :
  let flux := [10; 8; 6; 7; 5; 4]%float in
  let normal := replicate 6 NORMAL in
  detect_float flux = Some (mkInflectionResult normal) ∧
  detect_int [10; 8; 6; 7; 5; 4] = Some (mkInflectionResult normal) ∧
  initial_direction PrimFloat.ltb flux (Py.range 1 6) = Some (Some down) ∧
  scan PrimFloat.ltb flux 6 (down, normal) [2] = Some (down, normal) ∧
  current_direction PrimFloat.ltb flux 3 = Some (Some up) ∧
  valid_down_to_up PrimFloat.ltb flux 6 2 = Some false ∧
  scan_step PrimFloat.ltb flux 6 (down, normal) 3 = Some (up, normal) ∧
  current_direction PrimFloat.ltb flux 4 = Some (Some down) ∧
  valid_up_to_down PrimFloat.ltb flux 6 3 = Some false ∧
  scan_step PrimFloat.ltb flux 6 (up, normal) 4 = Some (down, normal) ∧
  scan_step PrimFloat.ltb flux 6 (down, normal) 5 = Some (down, normal).
Proof. repeat split; vm_compute; reflexivity. Qed.

Lemma SFeqb_not_ltb (x y : spec_float) :
  SFeqb x y = true → SFltb x y = false ∧ SFltb y x = false.
Proof. compare_both_ways x y. Qed.

(** Adjacent floats that are all [==] form no unequal pair. *)
Lemma float_equal_pairs (flux : list float) :
  adjacent (λ x y, (x =? y)%float = true) flux → no_unequal_pair PrimFloat.ltb flux.
Proof.
  intros Heq i x y Hx Hy. specialize (Heq i x y Hx Hy). simpl in Heq.
  unfold gtb. rewrite FloatAxioms.eqb_spec in Heq. rewrite !FloatAxioms.ltb_spec.
  by apply SFeqb_not_ltb.
Qed.

(** C4. [detect_inflections] returns the all-[NORMAL] labelling of the
    length of its input when the input has fewer than 5 samples, or has
    no unequal adjacent pair, or is strictly increasing or strictly
    decreasing, of any length. *)
Theorem detect_all_normal (flux : list float) :
  (length flux < 5)%nat ∨ no_unequal_pair PrimFloat.ltb flux ∨
    strictly_increasing PrimFloat.ltb flux ∨
    strictly_decreasing PrimFloat.ltb flux →
  ∃ lbls,
    detect_float flux = Some (mkInflectionResult lbls) ∧
    length lbls = length flux ∧ Forall (λ t, t = NORMAL) lbls.
Proof.
  intros Hcases. exists (replicate (length flux) NORMAL).
  split; [by apply all_normal_cases; [apply float_ltb_asymmetric|]|].
  split; [apply length_replicate|]. apply Forall_forall.
  by intros t [-> _]%elem_of_replicate.
Qed.

Lemma detect_all_normal_witness :
  strictly_decreasing PrimFloat.ltb [9; 7; 5; 3; 1; 0]%float ∧
  ∃ lbls,
    detect_float [9; 7; 5; 3; 1; 0]%float = Some (mkInflectionResult lbls) ∧
    length lbls = 6%nat ∧ Forall (λ t, t = NORMAL) lbls.
Proof.
  assert (strictly_decreasing PrimFloat.ltb [9; 7; 5; 3; 1; 0]%float) as Hdec.
  { intros [|[|[|[|[|[|i]]]]]] x y Hx Hy; simpl in *; simplify_eq; reflexivity. }
  split; [exact Hdec|].
  exact (detect_all_normal [9; 7; 5; 3; 1; 0]%float
           (or_intror (or_intror (or_intror Hdec)))).
Defined.

(** C8. No two adjacent indices both get a label other than [NORMAL]:
    two labelled reversal points are at least 2 indices apart. *)
Theorem detect_reversals_not_adjacent (flux : list float) :
  ∃ lbls,
    detect_float flux = Some (mkInflectionResult lbls) ∧
    (∀ (p : nat) (t1 t2 : InflectionType),
       lbls !! p = Some t1 → lbls !! S p = Some t2 →
       t1 = NORMAL ∨ t2 = NORMAL) ∧
    (∀ (p q : nat) (t1 t2 : InflectionType),
       lbls !! p = Some t1 → lbls !! q = Some t2 →
       t1 ≠ NORMAL → t2 ≠ NORMAL → (p < q)%nat → (p + 2 ≤ q)%nat).
Proof. apply no_adjacent_reversals, float_ltb_asymmetric. Qed.

(** ** [get_inflection_points] *)

Section PointsFacts.

Context {A : Type}.
Implicit Types (flux : list A) (lbls : list InflectionType).
Implicit Types (filter_type : option InflectionType) (t : InflectionType).

Lemma add_point_selected flux filter_type (acc : list (Point A)) i t :
  selected filter_type t →
  add_point flux filter_type acc (i, t)
  = v ← Py.index flux i; Some (acc ++ [(i, v, t)]).
Proof.
  intros [Hn Hf]. unfold add_point.
  rewrite bool_decide_eq_false_2 by done.
  destruct Hf as [->| ->]; [done|].
  by rewrite bool_decide_eq_false_2 by (intros Hne; by apply Hne).
Qed.

Lemma add_point_skipped flux filter_type (acc : list (Point A)) i t :
  ¬ selected filter_type t →
  add_point flux filter_type acc (i, t) = Some acc.
Proof.
  intros Hskip. unfold add_point. case_bool_decide as Hn; [done|].
  destruct filter_type as [t'|].
  - case_bool_decide as Hne; [done|]. exfalso. apply Hskip.
    split; [done|]. right. f_equal. by destruct (decide (t = t')).
  - exfalso. apply Hskip. split; [done|by left].
Qed.

Lemma for_each_add_point flux filter_type lbls :
  ∀ (i : Z) (acc : list (Point A)), 0 ≤ i →
    match Py.for_each (add_point flux filter_type) acc (Py.enumerate_from i lbls) with
    | Some pts => ∃ new, pts = acc ++ new ∧ collected flux filter_type lbls i new
    | None => ∃ (k : nat) t, lbls !! k = Some t ∧ selected filter_type t ∧
                             Z.of_nat (length flux) ≤ i + Z.of_nat k
    end.
Proof.
  induction lbls as [|t rest IH]; intros i acc Hi.
  { simpl. exists []. rewrite app_nil_r. split; [done|]. split; [|split].
    - intros k t Hk. by rewrite lookup_nil in Hk.
    - intros j v t. split; [by intros ?%elem_of_nil|].
      intros (k & _ & Hk & _). by rewrite lookup_nil in Hk.
    - constructor. }
  cbn [Py.enumerate_from Py.for_each].
  destruct (decide (selected filter_type t)) as [Hsel|Hskip].
  - rewrite add_point_selected by done.
    destruct (Py.index flux i) as [v|] eqn:Hv; simpl.
    2: { exists 0%nat, t. split; [done|]. split; [done|].
         rewrite index_nonneg in Hv by done.
         apply lookup_ge_None in Hv. lia. }
    rewrite index_nonneg in Hv by done.
    specialize (IH (i + 1) (acc ++ [(i, v, t)])).
    destruct (Py.for_each _ _ _) as [pts|].
    + destruct IH as (new & -> & Hlim & Hmem & Hsort); [lia|].
      exists ((i, v, t) :: new). split; [by rewrite <- app_assoc|].
      split; [|split].
      * intros [|k] t' Hk Hsel'; simpl in Hk.
        -- apply lookup_lt_Some in Hv. lia.
        -- specialize (Hlim k t' Hk Hsel'). lia.
      * intros j v' t'. rewrite elem_of_cons, Hmem. split.
        -- intros [Heq|(k & -> & Hk & Hsel' & Hv')].
           ++ simplify_eq. exists 0%nat. by rewrite Z.add_0_r.
           ++ exists (S k). split; [lia|done].
        -- intros ([|k] & -> & Hk & Hsel' & Hv'); simpl in Hk.
           ++ left. replace (i + Z.of_nat 0) with i in * by lia. by simplify_eq.
           ++ right. exists k. split; [lia|done].
      * simpl. apply StronglySorted_cons. split; [|done].
        apply Forall_forall. intros j Hj.
        apply list_elem_of_fmap in Hj as ([j' v'] & -> & Hj).
        apply list_elem_of_fmap in Hj as ([[j'' v''] t''] & Heq & Hj).
        simpl in *. simplify_eq.
        apply Hmem in Hj as (k & -> & _). lia.
    + destruct IH as (k & t' & Hk & Hsel' & Hlen); [lia|].
      exists (S k), t'. split; [done|]. split; [done|lia].
  - rewrite add_point_skipped by done. simpl.
    specialize (IH (i + 1) acc).
    destruct (Py.for_each _ _ _) as [pts|].
    + destruct IH as (new & -> & Hlim & Hmem & Hsort); [lia|].
      exists new. split; [done|]. split; [|split; [|done]].
      * intros [|k] t' Hk Hsel'; simpl in Hk; [by simplify_eq|].
        specialize (Hlim k t' Hk Hsel'). lia.
      * intros j v' t'. rewrite Hmem. split.
        -- intros (k & -> & Hk & Hsel' & Hv'). exists (S k). split; [lia|done].
        -- intros ([|k] & -> & Hk & Hsel' & Hv'); simpl in Hk; [by simplify_eq|].
           exists k. split; [lia|done].
    + destruct IH as (k & t' & Hk & Hsel' & Hlen); [lia|].
      exists (S k), t'. split; [done|]. split; [done|lia].
Qed.

Lemma get_inflection_points_spec flux lbls filter_type :
  match get_inflection_points flux lbls filter_type with
  | Some pts => collected flux filter_type lbls 0 pts
  | None => ∃ (k : nat) t, lbls !! k = Some t ∧ selected filter_type t ∧
                           (length flux ≤ k)%nat
  end.
Proof.
  unfold get_inflection_points, Py.enumerate.
  pose proof (for_each_add_point flux filter_type lbls 0 [] (Z.le_refl 0)) as H.
  destruct (Py.for_each _ _ _) as [pts|].
  - by destruct H as (new & -> & Hnew).
  - destruct H as (k & t & Hk & Hsel & Hlen). exists k, t.
    split; [done|]. split; [done|lia].
Qed.

(** With a sample for every label the subscript [flux[i]] cannot raise. *)
Lemma get_inflection_points_total flux lbls filter_type :
  (length lbls ≤ length flux)%nat →
  ∃ pts, get_inflection_points flux lbls filter_type = Some pts ∧
         collected flux filter_type lbls 0 pts.
Proof.
  intros Hlen. pose proof (get_inflection_points_spec flux lbls filter_type) as H.
  destruct (get_inflection_points _ _ _) as [pts|]; [by exists pts|].
  destruct H as (k & t & Hk%lookup_lt_Some & _ & Hge). lia.
Qed.

(** A selected label beyond the samples makes it raise. *)
Lemma get_inflection_points_raises flux lbls filter_type (k : nat) t :
  lbls !! k = Some t → selected filter_type t → (length flux ≤ k)%nat →
  get_inflection_points flux lbls filter_type = None.
Proof.
  intros Hk Hsel Hge.
  pose proof (get_inflection_points_spec flux lbls filter_type) as H.
  destruct (get_inflection_points _ _ _) as [pts|]; [|done].
  destruct H as (Hlim & _). specialize (Hlim k t Hk Hsel). lia.
Qed.

Lemma ascending_NoDup (l : list Z) : StronglySorted Z.lt l → NoDup l.
Proof.
  induction 1 as [|x l _ IH Hall]; constructor; [|done].
  intros Hx. rewrite Forall_forall in Hall. specialize (Hall x Hx). lia.
Qed.

Lemma ascending_succ (l : list Z) :
  StronglySorted Z.lt l → StronglySorted Z.lt ((λ j, j + 1) <$> l).
Proof.
  induction 1 as [|x l _ IH Hall]; simpl; constructor; [done|].
  apply Forall_fmap. eapply Forall_impl; [done|]. simpl. lia.
Qed.

(** The listed frame numbers: the 1-based selected indices, going up. *)
Lemma listed_frame_indices_total flux lbls filter_type :
  (length lbls ≤ length flux)%nat →
  ∃ idxs, listed_frame_indices flux lbls filter_type = Some idxs ∧
          StronglySorted Z.lt idxs ∧
          ∀ k, k ∈ idxs ↔
               1 ≤ k ∧ ∃ t, lbls !! Z.to_nat (k - 1) = Some t ∧ selected filter_type t.
Proof.
  intros Hlen.
  destruct (get_inflection_points_total flux lbls filter_type Hlen)
    as (pts & Hrun & Hlim & Hmem & Hsort).
  unfold listed_frame_indices. rewrite Hrun. simpl. eexists. split; [done|].
  split.
  { replace ((λ pt : Point A, pt.1.1 + 1) <$> pts)
      with ((λ j, j + 1) <$> pts.*1.*1); [by apply ascending_succ|].
    rewrite <- !list_fmap_compose. by apply list_fmap_ext. }
  intros k. rewrite list_elem_of_fmap. split.
  - intros ([[j v] t] & -> & Hin). simpl.
    apply Hmem in Hin as (n & -> & Hn & Hsel & _).
    split; [lia|]. exists t. split; [|done].
    by replace (Z.to_nat (0 + Z.of_nat n + 1 - 1)) with n by lia.
  - intros (Hk & t & Ht & Hsel).
    destruct (lookup_lt_is_Some_2 flux (Z.to_nat (k - 1))) as [v Hv].
    { apply lookup_lt_Some in Ht. lia. }
    exists (k - 1, v, t). split; [simpl; lia|].
    apply Hmem. exists (Z.to_nat (k - 1)). split; [lia|done].
Qed.

(** C5. For labels that each have their sample, the listed frame numbers
    are unique, 1-based and ascending; for a requested reversal type
    ([DOWN_TO_UP] or [UP_TO_DOWN]) they are the indices whose label equals
    it, without a filter the indices whose label is not [NORMAL]; the list
    is empty on an all-[NORMAL] labelling. It is empty as well for the
    filter [NORMAL], which no caller passes. *)
Theorem select_frame_indices flux lbls filter_type :
  (length lbls ≤ length flux)%nat →
  ∃ idxs,
    listed_frame_indices flux lbls filter_type = Some idxs ∧
    StronglySorted Z.lt idxs ∧ NoDup idxs ∧ Forall (λ k, 1 ≤ k) idxs ∧
    (∀ t, filter_type = Some t → t ≠ NORMAL →
          ∀ k, k ∈ idxs ↔ 1 ≤ k ∧ lbls !! Z.to_nat (k - 1) = Some t) ∧
    (filter_type = None →
     ∀ k, k ∈ idxs ↔ 1 ≤ k ∧ ∃ t, lbls !! Z.to_nat (k - 1) = Some t ∧ t ≠ NORMAL) ∧
    (Forall (λ t, t = NORMAL) lbls → idxs = []) ∧
    (filter_type = Some NORMAL → idxs = []).
Proof.
  intros Hlen.
  destruct (listed_frame_indices_total flux lbls filter_type Hlen)
    as (idxs & Hrun & Hsort & Hmem).
  exists idxs. split; [done|]. split; [done|]. split; [by apply ascending_NoDup|].
  split. { apply Forall_forall. intros k Hk. by apply Hmem in Hk as [? _]. }
  split; [|split; [|split]].
  - intros t -> Hn k. rewrite Hmem. split.
    + intros (Hk & t' & Ht' & _ & [?|?]); by simplify_eq.
    + intros (Hk & Ht). split; [done|]. exists t. split; [done|]. split; [done|by right].
  - intros -> k. rewrite Hmem. split.
    + intros (Hk & t & Ht & Hn & _). split; [done|]. by exists t.
    + intros (Hk & t & Ht & Hn). split; [done|]. exists t.
      split; [done|]. split; [done|by left].
  - intros Hall. apply elem_of_nil_inv. intros k (_ & t & Ht & Hn & _)%Hmem.
    rewrite Forall_forall in Hall. apply Hn, Hall.
    by eapply list_elem_of_lookup_2.
  - intros ->. apply elem_of_nil_inv. intros k (_ & t & _ & Hn & [?|?])%Hmem;
      by simplify_eq.
Qed.

(** C9, as the code has it. With [len(flux) >= len(labels)] the function
    does not raise, every returned tuple [(i, v, t)] has [t = labels[i]],
    [t] other than [NORMAL] and [v = flux[i]], and the indices go up
    strictly in output order. When an index [>= len(flux)] carries a
    label other than [NORMAL] that the filter lets through (no filter, or
    a filter equal to that label), the subscript [flux[i]] raises. *)
Theorem get_inflection_points_safe flux lbls filter_type :
  ((length lbls ≤ length flux)%nat →
   ∃ pts,
     get_inflection_points flux lbls filter_type = Some pts ∧
     (∀ i v t, (i, v, t) ∈ pts →
               0 ≤ i ∧ lbls !! Z.to_nat i = Some t ∧ t ≠ NORMAL ∧
               flux !! Z.to_nat i = Some v) ∧
     StronglySorted Z.lt (pts.*1.*1)) ∧
  (∀ (k : nat) t,
     (length flux ≤ k)%nat → lbls !! k = Some t → t ≠ NORMAL →
     filter_type = None ∨ filter_type = Some t →
     get_inflection_points flux lbls filter_type = None).
Proof.
  split.
  - intros Hlen.
    destruct (get_inflection_points_total flux lbls filter_type Hlen)
      as (pts & Hrun & _ & Hmem & Hsort).
    exists pts. split; [done|]. split; [|done].
    intros i v t (k & -> & Hk & [Hn _] & Hv)%Hmem.
    replace (Z.to_nat (0 + Z.of_nat k)) with k in * by lia.
    split; [lia|done].
  - intros k t Hge Hk Hn Hf.
    by apply (get_inflection_points_raises flux lbls filter_type k t).
Qed.

End PointsFacts.

Lemma select_frame_indices_witness :
  let flux := [10; 8; 6; 7; 9; 11]%float in
  let lbls := [NORMAL; NORMAL; DOWN_TO_UP; NORMAL; NORMAL; NORMAL] in
  (length lbls ≤ length flux)%nat ∧
  ∃ idxs,
    listed_frame_indices flux lbls (Some DOWN_TO_UP) = Some idxs ∧
    StronglySorted Z.lt idxs ∧ NoDup idxs ∧ Forall (λ k, 1 ≤ k) idxs ∧
    (∀ t, Some DOWN_TO_UP = Some t → t ≠ NORMAL →
          ∀ k, k ∈ idxs ↔ 1 ≤ k ∧ lbls !! Z.to_nat (k - 1) = Some t) ∧
    (Some DOWN_TO_UP = None →
     ∀ k, k ∈ idxs ↔ 1 ≤ k ∧ ∃ t, lbls !! Z.to_nat (k - 1) = Some t ∧ t ≠ NORMAL) ∧
    (Forall (λ t, t = NORMAL) lbls → idxs = []) ∧
    (Some DOWN_TO_UP = Some NORMAL → idxs = []).
Proof.
  intros flux lbls.
  assert (length lbls ≤ length flux)%nat as Hlen by (simpl; lia).
  split; [exact Hlen|].
  exact (select_frame_indices flux lbls (Some DOWN_TO_UP) Hlen).
Defined.

Lemma get_inflection_points_safe_witness :
  let flux := [10; 8; 6; 7; 9; 11]%float in
  let lbls := [NORMAL; NORMAL; DOWN_TO_UP; NORMAL; NORMAL; NORMAL] in
  (length lbls ≤ length flux)%nat ∧
  (∃ pts,
     get_inflection_points flux lbls None = Some pts ∧
     (∀ i v t, (i, v, t) ∈ pts →
               0 ≤ i ∧ lbls !! Z.to_nat i = Some t ∧ t ≠ NORMAL ∧
               flux !! Z.to_nat i = Some v) ∧
     StronglySorted Z.lt (pts.*1.*1)) ∧
  get_inflection_points [10; 8]%float lbls None = None.
Proof.
  intros flux lbls.
  assert (length lbls ≤ length flux)%nat as Hlen by (simpl; lia).
  split; [exact Hlen|]. split.
  - exact (proj1 (get_inflection_points_safe flux lbls None) Hlen).
  - refine (proj2 (get_inflection_points_safe [10; 8]%float lbls None)
              2%nat DOWN_TO_UP _ _ _ _).
    + simpl. lia.
    + reflexivity.
    + discriminate.
    + left. reflexivity.
Defined.

(** The claim C9 read for every filter: [flux] is shorter than [labels],
    index 0 is beyond [flux] and carries [DOWN_TO_UP], and the call with
    the filter [UP_TO_DOWN] returns the empty list instead of raising. *)
Lemma get_inflection_points_filtered_counterexample :
  let flux : list float := [] in
  let lbls := [DOWN_TO_UP] in
  (length flux < length lbls)%nat ∧ (length flux ≤ 0)%nat ∧
  lbls !! 0%nat = Some DOWN_TO_UP ∧ DOWN_TO_UP ≠ NORMAL ∧
  get_inflection_points flux lbls (Some UP_TO_DOWN) = Some [].
Proof. repeat split; simpl; try lia; try discriminate. Qed.

(** ** The graph viewport *)

Section Viewport.

Import GraphWidget.

Implicit Types (g : GraphWidget.t) (w h : Z).

(** [points_per_screen] never divides by zero and is at least 1. *)
Lemma points_per_screen_spec g w :
  (0 < x_step g → points_per_screen g w = Z.max 1 (w / x_step g)) ∧
  (x_step g ≤ 0 → points_per_screen g w = 1) ∧
  1 ≤ points_per_screen g w.
Proof.
  unfold points_per_screen.
  destruct (Z.leb_spec (x_step g) 0); repeat split; intros; lia.
Qed.

(** [_paint] returns at line 109 when the difference it computed is not
    above zero. *)
Lemma paint_guard_no_range fuel g w h y_range :
  0 < w → 0 < h →
  Py.num_sub (y_high g) (y_low g) = Some y_range →
  Py.num_leb y_range (Py.PyInt 0) = true →
  paint_guard g w h = ReturnNoRange ∧ paint fuel g w h = (g, Returned).
Proof.
  intros Hw Hh Hsub Hrange. unfold paint, paint_guard.
  destruct (Z.leb_spec w 0); [lia|]. destruct (Z.leb_spec h 0); [lia|].
  simpl. by rewrite Hsub, Hrange.
Qed.

Lemma draw_data_empty g w h y_range :
  flux g = [] → draw_data g w h y_range = (g, NoData).
Proof. intros Hflux. unfold draw_data. by rewrite Hflux. Qed.

Lemma draw_data_writes_range g w h y_range :
  flux g ≠ [] →
  (draw_data g w h y_range).1
  = set_visible g (visible_range g w).1 (visible_range g w).2.
Proof.
  intros Hflux. unfold draw_data.
  destruct (Z.eqb_spec (Z.of_nat (length (flux g))) 0) as [Hn|Hn].
  { destruct (flux g); [done|simpl in Hn; lia]. }
  by destruct (visible_range g w) as [start stop].
Qed.

(** C6. The range of lines 158-160 is [start = max(0, scroll_offset)] and
    [end = min(n, start + points_per_screen + 1)], one point past the
    screen, and with samples the data section stores it as
    [visible_start = start] and [visible_end = end - 1]. Without samples
    [end] is 0, and so is [start] for an offset that is not above
    [max_scroll], which is 0 then; the data section returns at line 156
    and writes nothing, and the two range labels read 0. *)
Theorem visible_range_of_paint g w h y_range :
  let n := Z.of_nat (length (flux g)) in
  let start := Z.max 0 (scroll_offset g) in
  let stop := Z.min n (start + points_per_screen g w + 1) in
  visible_range g w = (start, stop) ∧
  (n ≠ 0 →
   visible_start (draw_data g w h y_range).1 = start ∧
   visible_end (draw_data g w h y_range).1 = stop - 1) ∧
  (n = 0 →
   stop = 0 ∧
   (scroll_offset g ≤ max_scroll g w → visible_range g w = (0, 0)) ∧
   draw_data g w h y_range = (g, NoData) ∧
   MainWindow.range_labels (flux g) g = (0, 0)).
Proof.
  intros n start stop. split; [done|]. split.
  - intros Hn. rewrite draw_data_writes_range; [done|].
    intros Hflux. apply Hn. unfold n. by rewrite Hflux.
  - intros Hn. assert (flux g = []) as Hflux.
    { destruct (flux g) eqn:E; [done|]. subst n. simpl in Hn. lia. }
    destruct (points_per_screen_spec g w) as (_ & _ & Hpps).
    split; [lia|]. split; [|split].
    + intros Hoff. unfold visible_range, max_scroll in *. fold n in Hoff |- *.
      f_equal; lia.
    + by apply draw_data_empty.
    + unfold MainWindow.range_labels. by rewrite Hflux.
Qed.

(** C10. [set_data] stores the two sequences and resets [scroll_offset]
    to 0; every other attribute keeps its value. *)
Theorem set_data_frame g (new_flux : list float) (new_labels : list InflectionType) :
  let g' := set_data g new_flux new_labels in
  flux g' = new_flux ∧ labels g' = new_labels ∧ scroll_offset g' = 0 ∧
  y_low g' = y_low g ∧ y_high g' = y_high g ∧ x_step g' = x_step g ∧
  grid_x g' = grid_x g ∧ grid_y g' = grid_y g ∧
  grid_font_size g' = grid_font_size g ∧ line_thickness g' = line_thickness g ∧
  show_x_grid g' = show_x_grid g ∧ show_y_grid g' = show_y_grid g ∧
  highlight_inversions g' = highlight_inversions g ∧
  draw_slice_number g' = draw_slice_number g ∧
  draw_point_marker g' = draw_point_marker g ∧
  show_down_to_up g' = show_down_to_up g ∧
  show_up_to_down g' = show_up_to_down g ∧
  colors g' = colors g ∧
  visible_start g' = visible_start g ∧ visible_end g' = visible_end g.
Proof. simpl. repeat split. Qed.

End Viewport.

Lemma visible_range_of_paint_witness :
  let g := GraphWidget.set_scroll_offset
             (GraphWidget.set_data GraphWidget.init
                [100; 200; 300; 250; 200; 150; 175; 200; 225; 250]%float
                (replicate 10 NORMAL)) 3 in
  let g0 := GraphWidget.init in
  (Z.of_nat (length (GraphWidget.flux g)) ≠ 0 ∧
   GraphWidget.visible_range g 20 = (3, 8) ∧
   GraphWidget.visible_start (GraphWidget.draw_data g 20 200 (Py.PyInt 5000)).1 = 3 ∧
   GraphWidget.visible_end (GraphWidget.draw_data g 20 200 (Py.PyInt 5000)).1 = 7) ∧
  (Z.of_nat (length (GraphWidget.flux g0)) = 0 ∧
   GraphWidget.scroll_offset g0 ≤ GraphWidget.max_scroll g0 20 ∧
   GraphWidget.visible_range g0 20 = (0, 0) ∧
   GraphWidget.draw_data g0 20 200 (Py.PyInt 5000) = (g0, GraphWidget.NoData) ∧
   MainWindow.range_labels (GraphWidget.flux g0) g0 = (0, 0)).
Proof.
  intros g g0.
  assert (Z.of_nat (length (GraphWidget.flux g)) ≠ 0) as Hn by (simpl; lia).
  assert (Z.of_nat (length (GraphWidget.flux g0)) = 0) as Hn0 by reflexivity.
  assert (GraphWidget.scroll_offset g0 ≤ GraphWidget.max_scroll g0 20) as Hoff
    by (vm_compute; discriminate).
  split.
  - split; [exact Hn|].
    pose proof (visible_range_of_paint g 20 200 (Py.PyInt 5000)) as (Hrange & Hdata & _).
    split; [exact Hrange|]. exact (Hdata Hn).
  - split; [exact Hn0|]. split; [exact Hoff|].
    pose proof (visible_range_of_paint g0 20 200 (Py.PyInt 5000)) as (_ & _ & Hempty).
    destruct (Hempty Hn0) as (_ & Hzero & Hnodata & Hlabels).
    split; [exact (Hzero Hoff)|]. split; [exact Hnodata|exact Hlabels].
Defined.

(** C7 at [y_low = y_high = inf], which [float(...)] of the two text
    fields accepts: [high <= low] holds, yet the difference is NaN, the test
    [y_range <= 0] is false and [_paint] goes on. The first grid value is
    NaN and the Y-grid loop takes no turn; then the mapping of the first
    sample divides by NaN and raises in [int(...)]. *)
Theorem degenerate_range_not_guarded :
  let g := GraphWidget.set_y_range
             (GraphWidget.set_data GraphWidget.init [1%float] [NORMAL])
             infinity infinity in
  Py.num_leb (GraphWidget.y_high g) (GraphWidget.y_low g) = true ∧
  GraphWidget.paint_guard g 800 200 = GraphWidget.Proceed (Py.PyFloat nan) ∧
  GraphWidget.flux_to_y g 200 (Py.PyFloat nan) (Py.PyFloat 1) = None ∧
  ∀ fuel,
    GraphWidget.y_grid fuel g 800 200 (Py.PyFloat nan) = GraphWidget.Ends ∧
    (GraphWidget.paint fuel g 800 200).2 = GraphWidget.Data GraphWidget.Raised.
Proof.
  split; [by vm_compute|]. split; [by vm_compute|]. split; [by vm_compute|].
  intros [|fuel]; split; vm_compute; reflexivity.
Qed.

(** * Beyond the stated properties *)

(** ** The added models on small inputs *)

Example parse_small_file :
  DataParser.parse_flux_file float_of_seven small_file = inr [7%float].
Proof. vm_compute. reflexivity. Qed.

Example parse_three_lines :
  DataParser.parse_flux_file float_of_seven [[104; 10]; [104; 10]; [104; 10]]%N
  = inl (DataParser.TooFewHeaderLines 4).
Proof. reflexivity. Qed.

Example parse_header_only :
  DataParser.parse_flux_file float_of_seven (take 6 small_file)
  = inl DataParser.NoValidData.
Proof. vm_compute. reflexivity. Qed.

Example split_on_tabs :
  DataParser.split DataParser.TAB [97; 9; 9; 98]%N = [[97]; []; [98]]%N ∧
  DataParser.split DataParser.TAB [] = [[]].
Proof. split; reflexivity. Qed.

Example strip_both_ends :
  DataParser.strip [32; 9; 97; 32; 98; 13; 10]%N = [97; 32; 98]%N.
Proof. reflexivity. Qed.

(** Frame 4 is requested but the video has no frame 4: output number 2
    stays missing and frame 5 is still number 3. *)
Example select_with_a_gap :
  let frames_dir : gmap Z nat := {[3 := 30%nat; 5 := 50%nat]} in
  VideoSampler.sorted_indices [5; 3; 4; 3] = [3; 4; 5] ∧
  VideoSampler.select_frames frames_dir [5; 3; 4; 3]
  = {[1 := 30%nat; 3 := 50%nat]}.
Proof. split; vm_compute; reflexivity. Qed.

Example up_points_of_the_example :
  on_find_data [10; 8; 6; 7; 9; 11]%float
  = Some (mkInflectionList [(3, 6%float, DOWN_TO_UP)] 1 6).
Proof. vm_compute. reflexivity. Qed.

Example settings_clamp_the_step :
  GraphWidget.x_step (MainWindow.apply_settings_to_graph GraphWidget.init zero_step_form) = 1.
Proof. reflexivity. Qed.

(** With the settings of a new widget the Y grid has 51 lines. *)
Example paint_default_grid :
  (GraphWidget.paint 51 ten_samples 20 200).2
  = GraphWidget.Data
      (GraphWidget.Polyline [(0, 190); (5, 192); (10, 194); (15, 193); (20, 192)]) ∧
  (GraphWidget.paint 50 ten_samples 20 200).2 = GraphWidget.GridRunning ∧
  GraphWidget.x_grid ten_samples 800 = [125; 250; 375; 500; 625; 750].
Proof. vm_compute. repeat split. Qed.

Example float_mod_examples :
  Py.float_mod 5.5 2 = Some 1.5%float ∧
  Py.float_mod (-1) 100 = Some 99%float ∧
  Py.float_mod 7.5 (-2) = Some (-0.5)%float ∧
  Py.float_mod infinity 100 = Some nan ∧
  Py.float_mod 1 0 = None ∧
  Py.num_mod (Py.PyFloat 10000000000000000) (Py.PyInt 1) = Some (Py.PyFloat 0) ∧
  Py.num_mod (Py.PyInt (-7)) (Py.PyInt 100) = Some (Py.PyInt 93) ∧
  Py.num_truediv (Py.PyInt 1) (Py.PyInt 4) = Some 0.25%float ∧
  Py.num_leb (Py.PyInt 9007199254740993) (Py.PyFloat 9007199254740992) = false ∧
  Py.as_float 9007199254740993 = Some 9007199254740992%float ∧
  Py.as_float (10 ^ 400) = None.
Proof. vm_compute. repeat split. Qed.

(** ** Loops over ranges *)

Lemma range_nil (lo hi : Z) : hi ≤ lo → Py.range lo hi = [].
Proof. intros H. unfold Py.range. by replace (Z.to_nat (hi - lo)) with 0%nat by lia. Qed.

Lemma range_split (lo mid hi : Z) :
  lo ≤ mid ≤ hi → Py.range lo hi = Py.range lo mid ++ Py.range mid hi.
Proof.
  intros H. unfold Py.range.
  replace (Z.to_nat (hi - lo)) with (Z.to_nat (mid - lo) + Z.to_nat (hi - mid))%nat
    by lia.
  rewrite seq_app, fmap_app. f_equal.
  replace (seq (0 + Z.to_nat (mid - lo)) (Z.to_nat (hi - mid)))
    with (Nat.add (Z.to_nat (mid - lo)) <$> seq 0 (Z.to_nat (hi - mid)))
    by (rewrite fmap_add_seq; f_equal; lia).
  rewrite <- list_fmap_compose. apply list_fmap_ext. intros _ k _. simpl. lia.
Qed.

Lemma range_cons (lo hi : Z) : lo < hi → Py.range lo hi = lo :: Py.range (lo + 1) hi.
Proof.
  intros H. rewrite (range_split lo (lo + 1) hi) by lia.
  unfold Py.range at 1. replace (lo + 1 - lo) with 1 by lia. simpl.
  by rewrite Z.add_0_r.
Qed.

Lemma length_range (lo hi : Z) : length (Py.range lo hi) = Z.to_nat (hi - lo).
Proof. unfold Py.range. by rewrite length_fmap, length_seq. Qed.

Lemma lookup_range (lo hi : Z) (k : nat) :
  (k < Z.to_nat (hi - lo))%nat → Py.range lo hi !! k = Some (lo + Z.of_nat k).
Proof.
  intros H. unfold Py.range. rewrite list_lookup_fmap, lookup_seq_lt by done. done.
Qed.

Lemma for_each_app {St I : Type} (body : St → I → option St) (s : St)
    (l1 l2 : list I) :
  Py.for_each body s (l1 ++ l2)
  = Py.for_each body s l1 ≫= λ s', Py.for_each body s' l2.
Proof.
  revert s. induction l1 as [|i l1 IH]; intros s; simpl; [done|].
  destruct (body s i) as [s1|]; simpl; [apply IH|done].
Qed.

(** ** Every strict V is found *)

Section DetectorComplete.

Context {A : Type} (ltb : A → A → bool).
Hypothesis ltb_asym : asymmetric ltb.

Implicit Types (flux : list A) (lbls : list InflectionType) (d : Direction).

(** An iteration of the scan leaves the direction of its pair behind. *)
Lemma scan_step_direction flux n (st st' : ScanState) (i : Z) d :
  current_direction ltb flux i = Some (Some d) →
  scan_step ltb flux n st i = Some st' → st'.1 = d.
Proof.
  intros Hc. unfold scan_step. rewrite Hc. simpl.
  destruct st as [prev lbls]. unfold on_direction.
  case_bool_decide as Hne.
  - by intros (l & _ & [= <-])%bind_Some.
  - intros [= <-]. simpl. by destruct (decide (d = prev)).
Qed.

(** It writes at most the label of index [i - 1]. *)
Lemma setitem_Some {B : Type} (l l' : list B) (i : Z) (v : B) :
  0 ≤ i → Py.setitem l i v = Some l' → l' = <[Z.to_nat i := v]> l.
Proof.
  intros Hi. unfold Py.setitem.
  destruct (Z.leb_spec 0 i); [|lia]. destruct (Z.ltb_spec i 0); [lia|].
  rewrite andb_false_r. destruct (i <? _); simpl; by intros [= <-].
Qed.

Lemma scan_step_other flux (st st' : ScanState) (i : Z) (q : nat) :
  scan_step ltb flux (Z.of_nat (length flux)) st i = Some st' →
  q ≠ Z.to_nat (i - 1) → st'.2 !! q = st.2 !! q.
Proof.
  unfold scan_step. destruct (current_direction ltb flux i) as [[cur|]|]; simpl;
    [|by intros [= <-]|done].
  destruct st as [prev lbls]. unfold on_direction.
  case_bool_decide as Hne; [|by intros [= <-]].
  intros (l & Hl & [= <-])%bind_Some Hq. simpl.
  destruct prev, cur; try done; simpl in Hl.
  - destruct (valid_up_to_down_spec ltb flux (i - 1)) as (ok & Hrun & Hok).
    rewrite Hrun in Hl. simpl in Hl. destruct ok; [|by simplify_eq].
    destruct Hok as [[Hp _] _]; [done|].
    apply setitem_Some in Hl as ->; [|done]. by rewrite list_lookup_insert_ne.
  - destruct (valid_down_to_up_spec ltb flux (i - 1)) as (ok & Hrun & Hok).
    rewrite Hrun in Hl. simpl in Hl. destruct ok; [|by simplify_eq].
    destruct Hok as [[Hp _] _]; [done|].
    apply setitem_Some in Hl as ->; [|done]. by rewrite list_lookup_insert_ne.
Qed.

(** The two pairs that meet in a valley point down, then up. *)
Lemma valley_directions flux (p : nat) :
  valley ltb flux p →
  current_direction ltb flux (Z.of_nat p) = Some (Some down) ∧
  current_direction ltb flux (Z.of_nat p + 1) = Some (Some up).
Proof.
  intros (Hlo & Hhi & a & b & c & d & e & (Ha & Hb & Hc & Hd & He) & Hab & Hbc & Hcd & Hde).
  unfold gtb in *. split.
  - destruct (current_direction_total ltb flux (Z.of_nat p)) as (x & y & Hx & Hy & ->);
      [lia|].
    replace (Z.to_nat (Z.of_nat p - 1)) with (p - 1)%nat in Hy by lia.
    rewrite Nat2Z.id in Hx. simplify_eq. unfold gtb.
    by rewrite (ltb_asym _ _ Hbc), Hbc.
  - destruct (current_direction_total ltb flux (Z.of_nat p + 1)) as (x & y & Hx & Hy & ->);
      [lia|].
    replace (Z.to_nat (Z.of_nat p + 1 - 1)) with p in Hy by lia.
    replace (Z.to_nat (Z.of_nat p + 1)) with (p + 1)%nat in Hx by lia.
    simplify_eq. unfold gtb. by rewrite Hcd.
Qed.

Lemma peak_directions flux (p : nat) :
  peak ltb flux p →
  current_direction ltb flux (Z.of_nat p) = Some (Some up) ∧
  current_direction ltb flux (Z.of_nat p + 1) = Some (Some down).
Proof.
  intros (Hlo & Hhi & a & b & c & d & e & (Ha & Hb & Hc & Hd & He) & Hab & Hbc & Hcd & Hde).
  unfold gtb in *. split.
  - destruct (current_direction_total ltb flux (Z.of_nat p)) as (x & y & Hx & Hy & ->);
      [lia|].
    replace (Z.to_nat (Z.of_nat p - 1)) with (p - 1)%nat in Hy by lia.
    rewrite Nat2Z.id in Hx. simplify_eq. unfold gtb. by rewrite Hbc.
  - destruct (current_direction_total ltb flux (Z.of_nat p + 1)) as (x & y & Hx & Hy & ->);
      [lia|].
    replace (Z.to_nat (Z.of_nat p + 1 - 1)) with p in Hy by lia.
    replace (Z.to_nat (Z.of_nat p + 1)) with (p + 1)%nat in Hx by lia.
    simplify_eq. unfold gtb. by rewrite (ltb_asym _ _ Hcd), Hcd.
Qed.

(** The iteration after a valley writes its label. *)
Lemma scan_step_valley flux lbls (p : nat) :
  valley ltb flux p → length lbls = length flux →
  scan_step ltb flux (Z.of_nat (length flux)) (down, lbls) (Z.of_nat p + 1)
  = Some (up, <[p := DOWN_TO_UP]> lbls).
Proof.
  intros Hv Hlen. destruct (valley_directions flux p Hv) as [_ Hup].
  unfold scan_step. rewrite Hup. simpl.
  replace (Z.of_nat p + 1 - 1) with (Z.of_nat p) by lia.
  destruct (valid_down_to_up_spec ltb flux (Z.of_nat p)) as (ok & -> & Hok). simpl.
  destruct ok.
  2: { destruct Hok as [_ Hok]. rewrite Nat2Z.id in Hok.
       by discriminate Hok; [split; [lia|]]. }
  rewrite setitem_in_range by (destruct Hv as (? & ? & _); lia).
  by rewrite Nat2Z.id.
Qed.

Lemma scan_step_peak flux lbls (p : nat) :
  peak ltb flux p → length lbls = length flux →
  scan_step ltb flux (Z.of_nat (length flux)) (up, lbls) (Z.of_nat p + 1)
  = Some (down, <[p := UP_TO_DOWN]> lbls).
Proof.
  intros Hv Hlen. destruct (peak_directions flux p Hv) as [_ Hdown].
  unfold scan_step. rewrite Hdown. simpl.
  replace (Z.of_nat p + 1 - 1) with (Z.of_nat p) by lia.
  destruct (valid_up_to_down_spec ltb flux (Z.of_nat p)) as (ok & -> & Hok). simpl.
  destruct ok.
  2: { destruct Hok as [_ Hok]. rewrite Nat2Z.id in Hok.
       by discriminate Hok; [split; [lia|]]. }
  rewrite setitem_in_range by (destruct Hv as (? & ? & _); lia).
  by rewrite Nat2Z.id.
Qed.

(** A label written after the pair [(p, p+1)] is still there at the end
    of the scan. *)
Lemma scan_writes_label flux (p : nat) (d1 d2 prev : Direction) (L : InflectionType)
    (st : ScanState) :
  (2 ≤ p)%nat → (p + 2 < length flux)%nat →
  current_direction ltb flux (Z.of_nat p) = Some (Some d1) →
  (∀ lbls, length lbls = length flux →
     scan_step ltb flux (Z.of_nat (length flux)) (d1, lbls) (Z.of_nat p + 1)
     = Some (d2, <[p := L]> lbls)) →
  scan ltb flux (Z.of_nat (length flux)) (prev, replicate (length flux) NORMAL)
    (Py.range 2 (Z.of_nat (length flux))) = Some st →
  st.2 !! p = Some L.
Proof.
  intros Hlo Hhi Hd1 Hwrite. set (n := Z.of_nat (length flux)).
  rewrite (range_split 2 (Z.of_nat p) n) by lia.
  rewrite (range_cons (Z.of_nat p) n) by lia.
  rewrite (range_cons (Z.of_nat p + 1) n) by lia.
  unfold scan. rewrite for_each_app.
  destruct (for_each_invariant (scan_step ltb flux n) (scan_inv ltb flux)
              (Py.range 2 (Z.of_nat p)) (prev, replicate (length flux) NORMAL))
    as (st1 & -> & Hinv1).
  { split; simpl; [apply length_replicate|apply sound_replicate]. }
  { intros s i Hi%elem_of_range Hs. apply scan_step_inv; [lia|done]. }
  simpl.
  destruct (scan_step_inv ltb flux st1 (Z.of_nat p)) as (st2 & Hst2 & Hinv2);
    [lia|done|].
  fold n in Hst2. rewrite Hst2. simpl.
  pose proof (scan_step_direction flux n st1 st2 _ d1 Hd1 Hst2) as Hdir.
  destruct st2 as [d lbls2]. simpl in Hdir. subst d.
  destruct (scan_step_inv ltb flux (d1, lbls2) (Z.of_nat p + 1)) as (st3 & Hst3 & Hinv3);
    [lia|done|].
  rewrite Hwrite in Hst3 by apply Hinv2. injection Hst3 as <-.
  fold n. rewrite Hwrite by apply Hinv2. simpl.
  destruct (for_each_invariant (scan_step ltb flux n)
              (λ s, scan_inv ltb flux s ∧ s.2 !! p = Some L)
              (Py.range (Z.of_nat p + 1 + 1) n) (d2, <[p := L]> lbls2))
    as (st4 & -> & _ & Hp).
  { split; [done|]. simpl. apply list_lookup_insert_eq.
    destruct Hinv2 as [Hlen _]. simpl in Hlen. lia. }
  { intros s i Hi%elem_of_range [Hs Hp].
    destruct (scan_step_inv ltb flux s i) as (s' & Hs' & Hinv'); [lia|done|].
    exists s'. split; [done|]. split; [done|].
    rewrite (scan_step_other flux s s' i p Hs') by lia. done. }
  by intros [= <-].
Qed.

(** With an asymmetric [<], every valley is labelled [DOWN_TO_UP] and
    every peak [UP_TO_DOWN]. *)
Lemma detect_finds_reversals flux lbls (p : nat) :
  detect_inflections ltb flux = Some (mkInflectionResult lbls) →
  (valley ltb flux p → lbls !! p = Some DOWN_TO_UP) ∧
  (peak ltb flux p → lbls !! p = Some UP_TO_DOWN).
Proof.
  intros Hrun.
  assert (∀ (d1 d2 : Direction) (L : InflectionType),
            (2 ≤ p)%nat → (p + 2 < length flux)%nat →
            current_direction ltb flux (Z.of_nat p) = Some (Some d1) →
            (∀ l, length l = length flux →
               scan_step ltb flux (Z.of_nat (length flux)) (d1, l) (Z.of_nat p + 1)
               = Some (d2, <[p := L]> l)) →
            lbls !! p = Some L) as Hlabel.
  { intros d1 d2 L Hlo Hhi Hd1 Hwrite. unfold detect_inflections in Hrun.
    destruct (Z.ltb_spec (Z.of_nat (length flux)) 5); [lia|].
    destruct (initial_direction ltb flux _) as [[prev|]|] eqn:Hinit;
      simpl in Hrun; [| |done].
    - apply bind_Some in Hrun as (st & Hscan & [= <-]).
      by eapply scan_writes_label.
    - exfalso. clear Hrun.
      assert (∀ idxs, initial_direction ltb flux idxs = Some None →
                      ∀ i, i ∈ idxs → current_direction ltb flux i ≠ Some (Some d1))
        as Hnone.
      { induction idxs as [|j rest IH]; intros Hi i Hin; [by apply elem_of_nil in Hin|].
        rewrite initial_direction_cons in Hi.
        destruct (current_direction ltb flux j) as [[?|]|] eqn:Hj; simpl in Hi; try done.
        apply elem_of_cons in Hin as [->|Hin]; [by rewrite Hj|by apply IH]. }
      apply (Hnone _ Hinit (Z.of_nat p)); [|done]. apply elem_of_range. lia. }
  split.
  - intros Hv. destruct (valley_directions flux p Hv) as [Hd _].
    destruct (Hv) as (? & ? & _).
    apply (Hlabel down up DOWN_TO_UP); [done..|]. intros l Hl. by apply scan_step_valley.
  - intros Hv. destruct (peak_directions flux p Hv) as [Hd _].
    destruct (Hv) as (? & ? & _).
    apply (Hlabel up down UP_TO_DOWN); [done..|]. intros l Hl. by apply scan_step_peak.
Qed.

(** The labelling, exactly. *)
Lemma detect_exact flux :
  ∃ lbls,
    detect_inflections ltb flux = Some (mkInflectionResult lbls) ∧
    length lbls = length flux ∧
    ∀ p : nat,
      (lbls !! p = Some DOWN_TO_UP ↔ valley ltb flux p) ∧
      (lbls !! p = Some UP_TO_DOWN ↔ peak ltb flux p).
Proof.
  destruct (detect_inflections_sound ltb flux) as (lbls & Hrun & Hlen & Hsound).
  exists lbls. split; [done|]. split; [done|]. intros p.
  destruct (Hsound p) as [Hv Hp].
  destruct (detect_finds_reversals flux lbls p Hrun) as [Hv' Hp'].
  by split; split.
Qed.

End DetectorComplete.

(** ** The labelling depends on the order of five neighbours only *)

Lemma labels_eq_at (l1 l2 : list InflectionType) (p : nat) :
  (is_Some (l1 !! p) ↔ is_Some (l2 !! p)) →
  (l1 !! p = Some DOWN_TO_UP ↔ l2 !! p = Some DOWN_TO_UP) →
  (l1 !! p = Some UP_TO_DOWN ↔ l2 !! p = Some UP_TO_DOWN) →
  l1 !! p = l2 !! p.
Proof.
  intros Hsome Hd Hu.
  destruct (l1 !! p) as [t1|] eqn:H1, (l2 !! p) as [t2|] eqn:H2.
  - destruct t1, t2; try done;
      try (by apply Hd); try (by apply Hu);
      try (by symmetry; apply Hd); try (by symmetry; apply Hu).
  - by destruct (proj1 Hsome (mk_is_Some _ _ eq_refl)).
  - by destruct (proj2 Hsome (mk_is_Some _ _ eq_refl)).
  - done.
Qed.

Section OrderOnly.

Context {A B : Type} (ltbA : A → A → bool) (ltbB : B → B → bool) (f : A → B).

Implicit Types (flux : list A).

Lemma index_fmap flux (i : Z) : Py.index (f <$> flux) i = f <$> Py.index flux i.
Proof. unfold Py.index. rewrite length_fmap, !list_lookup_fmap. by repeat case_match. Qed.

Lemma index_elem_of flux (i : Z) (x : A) : Py.index flux i = Some x → x ∈ flux.
Proof.
  unfold Py.index. repeat case_match; try done; by intros ?%list_elem_of_lookup_2.
Qed.

Lemma lt_at_fmap flux (i j : Z) :
  keeps_order ltbA ltbB f flux →
  lt_at ltbB (f <$> flux) i j = lt_at ltbA flux i j ∧
  gt_at ltbB (f <$> flux) i j = gt_at ltbA flux i j.
Proof.
  intros Hf. unfold lt_at, gt_at, gtb. rewrite !index_fmap.
  destruct (Py.index flux i) as [x|] eqn:Hx; [|done].
  destruct (Py.index flux j) as [y|] eqn:Hy; [|done]. simpl.
  apply index_elem_of in Hx, Hy. by rewrite !Hf.
Qed.

Lemma current_direction_fmap flux (i : Z) :
  keeps_order ltbA ltbB f flux →
  current_direction ltbB (f <$> flux) i = current_direction ltbA flux i.
Proof.
  intros Hf. unfold current_direction.
  by destruct (lt_at_fmap flux i (i - 1) Hf) as [-> ->].
Qed.

Lemma initial_direction_fmap flux (idxs : list Z) :
  keeps_order ltbA ltbB f flux →
  initial_direction ltbB (f <$> flux) idxs = initial_direction ltbA flux idxs.
Proof.
  intros Hf. induction idxs as [|i rest IH]; [done|].
  by rewrite !initial_direction_cons, current_direction_fmap, IH.
Qed.

Lemma scan_step_fmap flux (n : Z) (st : ScanState) (i : Z) :
  keeps_order ltbA ltbB f flux →
  scan_step ltbB (f <$> flux) n st i = scan_step ltbA flux n st i.
Proof.
  intros Hf. unfold scan_step. rewrite current_direction_fmap by done.
  destruct (current_direction ltbA flux i) as [[cur|]|]; simpl; [|done..].
  unfold on_direction, valid_down_to_up, valid_up_to_down.
  destruct (lt_at_fmap flux (i - 1) (i - 1 + 1) Hf) as [-> ->].
  destruct (lt_at_fmap flux (i - 1 + 1) (i - 1 + 2) Hf) as [-> ->].
  destruct (lt_at_fmap flux (i - 1) (i - 1 - 1) Hf) as [-> ->].
  by destruct (lt_at_fmap flux (i - 1 - 1) (i - 1 - 2) Hf) as [-> ->].
Qed.

Lemma scan_fmap flux (n : Z) (st : ScanState) (idxs : list Z) :
  keeps_order ltbA ltbB f flux →
  scan ltbB (f <$> flux) n st idxs = scan ltbA flux n st idxs.
Proof.
  intros Hf. unfold scan. revert st.
  induction idxs as [|i rest IH]; intros st; simpl; [done|].
  rewrite scan_step_fmap by done.
  destruct (scan_step ltbA flux n st i); simpl; [apply IH|done].
Qed.

(** A map that keeps the order of the samples keeps the labelling. *)
Lemma detect_fmap flux :
  keeps_order ltbA ltbB f flux →
  detect_inflections ltbB (f <$> flux) = detect_inflections ltbA flux.
Proof.
  intros Hf. unfold detect_inflections. rewrite length_fmap.
  rewrite initial_direction_fmap by done.
  destruct (_ <? 5); [done|].
  destruct (initial_direction ltbA flux _) as [[d|]|]; simpl; [|done..].
  by rewrite scan_fmap.
Qed.

End OrderOnly.

Section Mirror.

Context {A : Type} (ltb : A → A → bool).
Hypothesis ltb_asym : asymmetric ltb.

Implicit Types (flux : list A).

Lemma mirrored_asymmetric : asymmetric (mirrored ltb).
Proof. intros x y. unfold mirrored. apply ltb_asym. Qed.

Lemma valley_mirrored flux (p : nat) :
  (valley (mirrored ltb) flux p ↔ peak ltb flux p) ∧
  (peak (mirrored ltb) flux p ↔ valley ltb flux p).
Proof. unfold valley, peak, gtb, mirrored. done. Qed.

(** Under the mirrored order the two reversal types change places. *)
Lemma detect_mirrored flux :
  detect_inflections (mirrored ltb) flux
  = (λ r, mkInflectionResult (swap_label <$> labels r)) <$> detect_inflections ltb flux.
Proof.
  destruct (detect_exact ltb ltb_asym flux) as (l1 & -> & Hlen1 & H1).
  destruct (detect_exact (mirrored ltb) mirrored_asymmetric flux) as (l2 & -> & Hlen2 & H2).
  simpl. do 2 f_equal. apply list_eq. intros p.
  destruct (H1 p) as [Hd1 Hu1], (H2 p) as [Hd2 Hu2].
  destruct (valley_mirrored flux p) as [Hvm Hpm].
  apply labels_eq_at.
  - rewrite !lookup_lt_is_Some, length_fmap. lia.
  - rewrite Hd2, Hvm, <- Hu1, list_lookup_fmap.
    destruct (l1 !! p) as [[]|]; simpl; split; by intros [=].
  - rewrite Hu2, Hpm, <- Hd1, list_lookup_fmap.
    destruct (l1 !! p) as [[]|]; simpl; split; by intros [=].
Qed.

(** Two sequences that agree on the samples [p-2 .. p+2] get the same
    label at [p]. *)
Lemma detect_local (flux1 flux2 : list A) (p : nat) :
  (∀ k : nat, (p - 2 ≤ k ≤ p + 2)%nat → flux1 !! k = flux2 !! k) →
  ∃ l1 l2,
    detect_inflections ltb flux1 = Some (mkInflectionResult l1) ∧
    detect_inflections ltb flux2 = Some (mkInflectionResult l2) ∧
    l1 !! p = l2 !! p.
Proof.
  intros Hsame.
  destruct (detect_exact ltb ltb_asym flux1) as (l1 & Hrun1 & Hlen1 & H1).
  destruct (detect_exact ltb ltb_asym flux2) as (l2 & Hrun2 & Hlen2 & H2).
  exists l1, l2. split; [done|]. split; [done|].
  assert (∀ f1 f2 : list A,
            (∀ k : nat, (p - 2 ≤ k ≤ p + 2)%nat → f1 !! k = f2 !! k) →
            (valley ltb f1 p → valley ltb f2 p) ∧ (peak ltb f1 p → peak ltb f2 p))
    as Hmove.
  { intros f1 f2 Hk.
    split; intros (Hlo & Hhi & a & b & c & d & e & (Ha & Hb & Hc & Hd & He) & Hcmp);
      rewrite Hk in Ha, Hb, Hc, Hd, He by lia;
      (split; [done|]); (split; [by apply lookup_lt_Some in He|]);
      by exists a, b, c, d, e. }
  destruct (Hmove flux1 flux2 Hsame) as [Hv12 Hp12].
  destruct (Hmove flux2 flux1) as [Hv21 Hp21].
  { intros k Hk. symmetry. by apply Hsame. }
  destruct (H1 p) as [Hd1 Hu1], (H2 p) as [Hd2 Hu2].
  apply labels_eq_at.
  - rewrite !lookup_lt_is_Some, Hlen1, Hlen2, <- !lookup_lt_is_Some.
    rewrite (Hsame p) by lia. done.
  - rewrite Hd1, Hd2. by split.
  - rewrite Hu1, Hu2. by split.
Qed.

End Mirror.

(** ** The detector on floats, continued *)

Lemma SFltb_opp (x y : spec_float) : SFltb (SFopp x) (SFopp y) = SFltb y x.
Proof.
  unfold SFltb, SFcompare, SFopp.
  destruct x as [s1|s1| |s1 m1 e1], y as [s2|s2| |s2 m2 e2];
    try destruct s1; try destruct s2; try done; simpl;
    rewrite (Z.compare_antisym e1 e2);
    change (Pos.compare_cont Eq m2 m1) with (m2 ?= m1)%positive;
    change (Pos.compare_cont Eq m1 m2) with (m1 ?= m2)%positive;
    rewrite (Pos.compare_antisym m1 m2);
    by destruct (e1 ?= e2), (m1 ?= m2)%positive.
Qed.

Lemma float_ltb_opp (x y : float) : (- x <? - y)%float = (y <? x)%float.
Proof. by rewrite !FloatAxioms.ltb_spec, !FloatAxioms.opp_spec, SFltb_opp. Qed.

(** Every strict 5-point V of a float sequence is labelled, and nothing
    else is: index [p] is [DOWN_TO_UP] exactly when
    [flux[p-2] > flux[p-1] > flux[p] < flux[p+1] < flux[p+2]], and
    [UP_TO_DOWN] exactly in the mirror image. *)
Theorem detect_float_exact (flux : list float) :
  ∃ lbls,
    detect_float flux = Some (mkInflectionResult lbls) ∧
    length lbls = length flux ∧
    ∀ p : nat,
      (lbls !! p = Some DOWN_TO_UP ↔ valley PrimFloat.ltb flux p) ∧
      (lbls !! p = Some UP_TO_DOWN ↔ peak PrimFloat.ltb flux p).
Proof. apply detect_exact, float_ltb_asymmetric. Qed.

(** Negating every sample turns each [DOWN_TO_UP] into [UP_TO_DOWN] and
    back, and leaves [NORMAL] where it was. *)
Theorem detect_float_negated (flux : list float) :
  detect_float (PrimFloat.opp <$> flux)
  = (λ r, mkInflectionResult (swap_label <$> labels r)) <$> detect_float flux.
Proof.
  unfold detect_float.
  rewrite (detect_fmap (mirrored PrimFloat.ltb) PrimFloat.ltb PrimFloat.opp).
  - apply detect_mirrored, float_ltb_asymmetric.
  - intros x y _ _. apply float_ltb_opp.
Qed.

(** The label of index [p] depends on the samples [p-2 .. p+2] only: two
    sequences that agree there get the same label at [p], whatever their
    other samples and their lengths. *)
Theorem detect_float_local (flux1 flux2 : list float) (p : nat) :
  (∀ k : nat, (p - 2 ≤ k ≤ p + 2)%nat → flux1 !! k = flux2 !! k) →
  ∃ l1 l2,
    detect_float flux1 = Some (mkInflectionResult l1) ∧
    detect_float flux2 = Some (mkInflectionResult l2) ∧
    l1 !! p = l2 !! p.
Proof. apply detect_local, float_ltb_asymmetric. Qed.

(** ** The inflection list *)

Section PointsMore.

Context {A : Type}.
Implicit Types (flux : list A) (lbls : list InflectionType) (t : InflectionType).

Lemma for_each_add_point_filtered flux lbls t :
  ∀ (i : Z) (acc r : list (Point A)),
    Py.for_each (add_point flux None) acc (Py.enumerate_from i lbls) = Some r →
    Py.for_each (add_point flux (Some t)) (filter (λ pt, pt.2 = t) acc)
      (Py.enumerate_from i lbls)
    = Some (filter (λ pt, pt.2 = t) r).
Proof.
  induction lbls as [|label rest IH]; intros i acc r; simpl; [by intros [= <-]|].
  case_bool_decide as Hn; simpl; [apply IH|].
  destruct (Py.index flux i) as [v|]; simpl; [|done]. intros Hr.
  apply IH in Hr. rewrite filter_app in Hr.
  case_bool_decide as Ht; simpl.
  - by rewrite filter_cons_False, filter_nil, app_nil_r in Hr by done.
  - assert (label = t) as Heq by (by destruct (decide (label = t))).
    by rewrite filter_cons_True, filter_nil in Hr by done.
Qed.

(** The filtered list is the unfiltered one restricted to the requested
    type, in the same order. *)
Theorem get_inflection_points_filter flux lbls t (pts : list (Point A)) :
  get_inflection_points flux lbls None = Some pts →
  get_inflection_points flux lbls (Some t) = Some (filter (λ pt, pt.2 = t) pts).
Proof.
  unfold get_inflection_points, Py.enumerate. intros Hrun.
  by apply (for_each_add_point_filtered flux lbls t 0 []) in Hrun.
Qed.

End PointsMore.

(** After a file is loaded, the list shows the valleys of the samples and
    nothing else: an item [(k, v, t)] is listed exactly when [t] is
    [DOWN_TO_UP], [v] is sample number [k] (counted from 1) and that sample
    is the bottom of a strict 5-point V. The items go up in [k], and the
    count is their number. *)
Theorem on_find_data_lists_valleys (flux : list float) :
  ∃ view,
    on_find_data flux = Some view ∧
    StronglySorted Z.lt ((items view).*1.*1) ∧
    count view = Z.of_nat (length (items view)) ∧
    ∀ k v t,
      (k, v, t) ∈ items view ↔
      t = DOWN_TO_UP ∧ 1 ≤ k ∧ flux !! Z.to_nat (k - 1) = Some v ∧
      valley PrimFloat.ltb flux (Z.to_nat (k - 1)).
Proof.
  destruct (detect_exact PrimFloat.ltb float_ltb_asymmetric flux)
    as (lbls & Hrun & Hlen & Hexact).
  unfold on_find_data, detect_float. rewrite Hrun. simpl.
  destruct (get_inflection_points_total flux lbls (Some DOWN_TO_UP))
    as (pts & Hpts & _ & Hmem & Hsort); [lia|].
  destruct flux as [|x flux'].
  { eexists. split; [done|]. split; [constructor|]. split; [done|].
    intros k v t. simpl. split; [by intros ?%elem_of_nil|].
    intros (_ & _ & Hv & _). by rewrite lookup_nil in Hv. }
  unfold update_inflection_list. change (shown_type 1) with DOWN_TO_UP.
  rewrite Hpts. simpl. eexists. split; [done|]. simpl.
  split; [|split; [by rewrite length_fmap|]].
  { replace (((λ pt : Point float, (pt.1.1 + 1, pt.1.2, pt.2)) <$> pts).*1.*1)
      with ((λ j, j + 1) <$> pts.*1.*1); [by apply ascending_succ|].
    rewrite <- !list_fmap_compose. by apply list_fmap_ext. }
  intros k v t. rewrite list_elem_of_fmap. split.
  - intros ([[j v'] t'] & [= -> -> ->] & Hin). simpl.
    apply Hmem in Hin as (i & -> & Hi & [Hn [?|Ht]] & Hv); [done|].
    injection Ht as <-.
    replace (Z.to_nat (0 + Z.of_nat i + 1 - 1)) with i by lia.
    replace (Z.to_nat (0 + Z.of_nat i)) with i in Hv by lia.
    split; [done|]. split; [lia|]. split; [done|]. by apply Hexact.
  - intros (-> & Hk & Hv & Hvalley). exists (k - 1, v, DOWN_TO_UP).
    split; [simpl; do 2 f_equal; lia|].
    apply Hmem. exists (Z.to_nat (k - 1)). split; [lia|].
    split; [by apply Hexact|]. split; [split; [done|by right]|].
    by replace (Z.to_nat (k - 1)) with (Z.to_nat (k - 1)) by lia.
Qed.

(** ** Scrolling and painting *)

Section ViewportMore.

Import GraphWidget MainWindow.

Implicit Types (g : GraphWidget.t) (w h : Z).

Lemma visible_range_scrolled g w :
  let n := Z.of_nat (length (flux g)) in
  0 < n → 0 ≤ scroll_offset g ≤ max_scroll g w →
  ∃ stop,
    visible_range g w = (scroll_offset g, stop) ∧
    scroll_offset g < stop ≤ n ∧
    stop - scroll_offset g = Z.min (points_per_screen g w + 1) (n - scroll_offset g) ∧
    (scroll_offset g = max_scroll g w → stop = n).
Proof.
  intros n Hn Hoff. unfold visible_range, max_scroll in *. fold n in Hoff |- *.
  destruct (points_per_screen_spec g w) as (_ & _ & Hpps).
  eexists. split; [by rewrite Z.max_r by lia|]. lia.
Qed.

(** With the scroll offset between 0 and [max_scroll], the range painted
    starts at the offset, is not empty, ends within the samples, holds
    [points_per_screen + 1] samples unless the samples end before, and at
    the largest offset it ends with the last sample. *)
Theorem scroll_range_in_bounds g w :
  let n := Z.of_nat (length (flux g)) in
  0 < n → 0 ≤ scroll_offset g ≤ max_scroll g w →
  ∃ stop,
    visible_range g w = (scroll_offset g, stop) ∧
    scroll_offset g < stop ≤ n ∧
    stop - scroll_offset g = Z.min (points_per_screen g w + 1) (n - scroll_offset g) ∧
    (scroll_offset g = max_scroll g w → stop = n).
Proof. apply visible_range_scrolled. Qed.

(** Every sample can be scrolled into view: for each index there is an
    offset between 0 and [max_scroll] whose painted range holds it. *)
Theorem every_sample_scrollable g w (i : nat) :
  (i < length (flux g))%nat →
  ∃ value start stop,
    0 ≤ value ≤ max_scroll g w ∧
    visible_range (set_scroll_offset g value) w = (start, stop) ∧
    start ≤ Z.of_nat i < stop.
Proof.
  intros Hi. set (value := Z.min (Z.of_nat i) (max_scroll g w)).
  assert (0 ≤ max_scroll g w) as Hmax by (unfold max_scroll; lia).
  destruct (visible_range_scrolled (set_scroll_offset g value) w)
    as (stop & Hrange & Hstop & _ & Hlast); simpl; [lia| |].
  { change (max_scroll (set_scroll_offset g value) w) with (max_scroll g w).
    unfold value. lia. }
  simpl in *. exists value, value, stop.
  split; [unfold value; lia|]. split; [done|].
  destruct (Z.le_gt_cases (Z.of_nat i) (max_scroll g w)).
  - unfold value in *. lia.
  - assert (value = max_scroll g w) as Hv by (unfold value; lia).
    rewrite Hv in *. specialize (Hlast eq_refl). lia.
Qed.

Lemma qt_call_Some (args : list Z) :
  qt_call args = Some () ↔ Forall (λ z, c_int z = true) args.
Proof.
  unfold qt_call. induction args as [|z args IH]; simpl; [done|].
  rewrite Forall_cons. destruct (c_int z); simpl; [|split; [done|by intros [? _]]].
  rewrite IH. tauto.
Qed.

Lemma qt_call_None (args : list Z) :
  qt_call args = None ↔ Exists (λ z, c_int z = false) args.
Proof.
  unfold qt_call. induction args as [|z args IH]; simpl.
  { split; [done|]. by intros ?%Exists_nil. }
  rewrite Exists_cons. destruct (c_int z); simpl; [|split; [by left|done]].
  rewrite IH. split; [by right|]. by intros [?|?].
Qed.

Lemma c_int_on_canvas (c d : Z) :
  0 ≤ d ≤ 8 → c_int (c - d) = false → ¬ on_canvas c.
Proof. unfold on_canvas, c_int. lia. Qed.

(** A loop that raises does so in its body at one of the items. *)
Lemma for_each_None {St I : Type} (body : St → I → option St) (items : list I) (s : St) :
  Py.for_each body s items = None → ∃ s' i, i ∈ items ∧ body s' i = None.
Proof.
  revert s. induction items as [|i rest IH]; intros s; simpl; [done|].
  destruct (body s i) as [s1|] eqn:E; simpl.
  - intros (s' & j & Hj & Hnone)%IH. exists s', j. split; [by right|done].
  - intros _. exists s, i. split; [by left|done].
Qed.

Lemma pixel_off_canvas g h y_range start i (pt : Z * Z) (d1 d2 : Z) :
  pixel_of g h y_range start i pt → 0 ≤ d1 ≤ 8 → 0 ≤ d2 ≤ 8 →
  c_int (pt.1 - d1) = false ∨ c_int (pt.2 - d2) = false →
  off_canvas g h y_range start i.
Proof.
  intros (val & Hval & Hy & Hx) Hd1 Hd2 Hbad. exists val. split; [done|].
  rewrite Hy, <- Hx. intros [H1 H2].
  destruct Hbad as [Hbad|Hbad]; by eapply c_int_on_canvas in Hbad.
Qed.


Lemma range_snoc (lo hi : Z) : lo ≤ hi → Py.range lo (hi + 1) = Py.range lo hi ++ [hi].
Proof.
  intros H. rewrite (range_split lo hi (hi + 1)) by lia. f_equal.
  rewrite range_cons by lia. by rewrite range_nil by lia.
Qed.

Lemma draw_sample_step g h y_range start a s :
  0 ≤ start ≤ a → a < Z.of_nat (length (flux g)) →
  drawn_up_to g h y_range start a s →
  match draw_sample g h y_range start s a with
  | Some s' => drawn_up_to g h y_range start (a + 1) s'
  | None => (∃ i, start ≤ i ≤ a ∧ off_canvas g h y_range start i)
            ∨ Py.as_float (line_thickness g) = None
  end.
Proof.
  intros Hstart Ha (Hpts & Hprev & Hmarks & Hfits). unfold draw_sample.
  destruct (index_in_range (flux g) a) as (val & Hval & ->); [lia|]. simpl.
  destruct (flux_to_y g h y_range (Py.PyFloat val)) as [py|] eqn:Hpy; simpl.
  2: { left. exists a. split; [lia|]. exists val. split; [done|]. by rewrite Hpy. }
  set (px := (a - start) * x_step g).
  assert (pixel_of g h y_range start a (px, py)) as Hpixel.
  { exists val. by repeat split. }
  (* the line from the sample before *)
  assert (match (if start <? a
                 then _ ← Py.index (flux g) (a - 1);
                      _ ← Py.as_float (line_thickness g);
                      qt_call [prev_x s; prev_y s; px; py]
                 else Some ()) with
          | Some _ => start < a →
                      (c_int (prev_x s) = true ∧ c_int (prev_y s) = true) ∧
                      (c_int px = true ∧ c_int py = true)
          | None => (∃ i, start ≤ i ≤ a ∧ off_canvas g h y_range start i)
                    ∨ Py.as_float (line_thickness g) = None
          end) as Hline.
  { destruct (Z.ltb_spec start a) as [Hlt|Hge]; [|simpl; lia].
    destruct (index_in_range (flux g) (a - 1)) as (v' & _ & ->); [lia|]. simpl.
    destruct (Py.as_float (line_thickness g)); simpl; [|by right].
    destruct (Hprev Hlt) as [Hprevpix _].
    destruct (qt_call _) as [[]|] eqn:Hcall.
    - intros _. apply qt_call_Some in Hcall.
      rewrite !Forall_cons in Hcall. tauto.
    - left. apply qt_call_None in Hcall. rewrite !Exists_cons, Exists_nil in Hcall.
      destruct Hcall as [Hc|[Hc|[Hc|[Hc|[]]]]].
      + exists (a - 1). split; [lia|].
        apply (pixel_off_canvas _ _ _ _ _ _ 0 0 Hprevpix); [lia..|].
        left. simpl. by rewrite Z.sub_0_r.
      + exists (a - 1). split; [lia|].
        apply (pixel_off_canvas _ _ _ _ _ _ 0 0 Hprevpix); [lia..|].
        right. simpl. by rewrite Z.sub_0_r.
      + exists a. split; [lia|].
        apply (pixel_off_canvas _ _ _ _ _ _ 0 0 Hpixel); [lia..|].
        left. simpl. by rewrite Z.sub_0_r.
      + exists a. split; [lia|].
        apply (pixel_off_canvas _ _ _ _ _ _ 0 0 Hpixel); [lia..|].
        right. simpl. by rewrite Z.sub_0_r. }
  destruct (if start <? a then _ else _) as [[]|]; simpl; [|done].
  (* the markers *)
  assert (∃ new, markers_of g a px py = Some new ∧
                 ∀ m, m ∈ new → (m.1.1, m.1.2) = (px, py)) as (new & -> & Hnew).
  { unfold markers_of. destruct (highlight_inversions g); simpl.
    2: { exists []. split; [done|]. by intros m ?%elem_of_nil. }
    destruct (Z.ltb_spec a (Z.of_nat (length (labels g)))) as [Hlt|Hge].
    2: { exists []. split; [done|]. by intros m ?%elem_of_nil. }
    destruct (index_in_range (labels g) a) as (lbl & _ & ->); [lia|]. simpl.
    eexists. split; [done|]. intros m.
    repeat case_match; rewrite ?elem_of_nil, ?list_elem_of_singleton;
      by intros; simplify_eq. }
  simpl.
  (* the point marker *)
  destruct (if draw_point_marker g then _ else _) as [[]|] eqn:Hmark; simpl.
  2: { destruct (draw_point_marker g); [|done].
       apply qt_call_None in Hmark. rewrite !Exists_cons, Exists_nil in Hmark.
       left. exists a. split; [lia|].
       apply (pixel_off_canvas _ _ _ _ _ _ 2 2 Hpixel); [lia..|].
       destruct Hmark as [Hc|[Hc|[Hc|[Hc|[]]]]]; [by left|by right|done..]. }
  (* the slice number *)
  destruct (if draw_slice_number g && _ then _ else _) as [[]|] eqn:Hnum; simpl.
  2: { destruct (draw_slice_number g && _); [|done].
       apply qt_call_None in Hnum. rewrite !Exists_cons, Exists_nil in Hnum.
       left. exists a. split; [lia|].
       apply (pixel_off_canvas _ _ _ _ _ _ 5 8 Hpixel); [lia..|].
       destruct Hnum as [Hc|[Hc|[]]]; [by left|by right]. }
  (* the variables afterwards *)
  split; [|split; [|split]]; simpl.
  - rewrite range_snoc by lia. apply Forall2_app; [done|].
    by apply Forall2_cons.
  - intros _. replace (a + 1 - 1) with a by lia. split; [done|].
    by rewrite last_snoc.
  - intros m [Hm|Hm]%elem_of_app.
    + destruct (Hmarks m Hm) as (j & Hj & Hpix). exists j. split; [lia|done].
    + exists a. split; [lia|]. by rewrite (Hnew m Hm).
  - intros Hlt. assert (start < a) as Hlt' by lia.
    destruct (Hline Hlt') as [Hp Hc]. apply Forall_app. split.
    + destruct (Z.lt_ge_cases (start + 1) a) as [Hfar|Hnear]; [by apply Hfits|].
      assert (a = start + 1) as -> by lia.
      destruct (Hprev Hlt') as [_ Hlast].
      apply Forall2_length in Hpts. rewrite length_range in Hpts.
      replace (Z.to_nat (start + 1 - start)) with 1%nat in Hpts by lia.
      destruct (points s) as [|pt [|??]]; simplify_eq/=.
      by apply Forall_singleton.
    + by apply Forall_singleton.
Qed.

Lemma draw_samples_loop g h y_range start (k : nat) a s :
  0 ≤ start ≤ a → a + Z.of_nat k ≤ Z.of_nat (length (flux g)) →
  drawn_up_to g h y_range start a s →
  match Py.for_each (draw_sample g h y_range start) s
          (Py.range a (a + Z.of_nat k)) with
  | Some s' => drawn_up_to g h y_range start (a + Z.of_nat k) s'
  | None => (∃ i, start ≤ i < a + Z.of_nat k ∧ off_canvas g h y_range start i)
            ∨ Py.as_float (line_thickness g) = None
  end.
Proof.
  revert a s. induction k as [|k IH]; intros a s Hstart Hend Hinv.
  { rewrite range_nil by lia. simpl. by replace (a + Z.of_nat 0) with a by lia. }
  rewrite range_cons by lia. simpl.
  pose proof (draw_sample_step g h y_range start a s Hstart) as Hstep.
  destruct (draw_sample g h y_range start s a) as [s1|]; simpl.
  - replace (a + Z.of_nat (S k)) with (a + 1 + Z.of_nat k) by lia.
    apply IH; [lia..|]. apply Hstep; [lia|done].
  - destruct Hstep as [(i & Hi & Hbad)|Hpen]; [lia|done| |by right].
    left. exists i. split; [lia|done].
Qed.

(** The data section never raises on a subscript. It either draws one
    point per sample of the visible range, point [k] at
    [x = k * x_step] and the mapped value of sample [start + k], every
    coordinate a C [int] when there are two points or more; or it raises,
    and then the mapping of a sample of the range raises, or the pixel of
    one is off the canvas, or the line thickness is an int too large for
    the width of a pen. *)
Theorem draw_data_polyline g w h y_range :
  flux g ≠ [] →
  ∃ start stop,
    visible_range g w = (start, stop) ∧
    match (draw_data g w h y_range).2 with
    | NoData => False
    | Polyline points =>
        length points = Z.to_nat (stop - start) ∧
        (∀ k : nat, (k < length points)%nat →
           ∃ val py,
             flux g !! (Z.to_nat start + k)%nat = Some val ∧
             flux_to_y g h y_range (Py.PyFloat val) = Some py ∧
             points !! k = Some (Z.of_nat k * x_step g, py)) ∧
        ((2 ≤ length points)%nat →
         Forall (λ pt, c_int pt.1 = true ∧ c_int pt.2 = true) points)
    | Raised =>
        (∃ (i : Z) val,
           start ≤ i < stop ∧ flux g !! Z.to_nat i = Some val ∧
           match flux_to_y g h y_range (Py.PyFloat val) with
           | None => True
           | Some py => ¬ (on_canvas ((i - start) * x_step g) ∧ on_canvas py)
           end)
        ∨ Py.as_float (line_thickness g) = None
    end.
Proof.
  intros Hflux. unfold draw_data.
  set (n := Z.of_nat (length (flux g))).
  assert (0 < n) as Hn.
  { unfold n. destruct (flux g); [done|simpl; lia]. }
  destruct (Z.eqb_spec n 0); [lia|].
  destruct (visible_range g w) as [start stop] eqn:Hrange.
  exists start, stop. split; [done|].
  unfold visible_range in Hrange. fold n in Hrange. injection Hrange as Hstart Hstop.
  destruct (points_per_screen_spec g w) as (_ & _ & Hpps).
  assert (0 ≤ start) as Hstart0 by lia.
  assert (stop ≤ n) as Hstopn by lia.
  cbn [snd].
  (* the first sample, mapped before the loop *)
  assert (∀ first_y : option Z,
            first_y = (if start <? n
                       then val ← Py.index (flux g) start;
                            flux_to_y g h y_range (Py.PyFloat val)
                       else Some 0) →
            first_y = None →
            ∃ i val, start ≤ i < stop ∧ flux g !! Z.to_nat i = Some val ∧
                     flux_to_y g h y_range (Py.PyFloat val) = None) as Hfirst.
  { intros first_y -> Hnone. destruct (Z.ltb_spec start n) as [Hlt|Hge]; [|done].
    destruct (index_in_range (flux g) start) as (v0 & Hv0 & Hidx); [lia|].
    rewrite Hidx in Hnone. simpl in Hnone. exists start, v0. split; [lia|done]. }
  destruct (if start <? n then _ else _) as [first_y|] eqn:Hfy; simpl.
  2: { destruct (Hfirst None eq_refl eq_refl) as (i & val & Hi & Hval & Hy).
       left. exists i, val. split; [done|]. split; [done|]. by rewrite Hy. }
  clear Hfirst Hfy.
  (* the loop *)
  assert (drawn_up_to g h y_range start start (mkDataLoop 0 first_y [] [])) as Hinv.
  { split; [|split; [|split]]; simpl.
    - rewrite range_nil by lia. constructor.
    - lia.
    - by intros m ?%elem_of_nil.
    - lia. }
  destruct (Z.le_gt_cases start stop) as [Hle|Hgt].
  2: { rewrite range_nil by lia. simpl.
       replace (Z.to_nat (stop - start)) with 0%nat by lia.
       split; [done|]. split; [intros k Hk; simpl in Hk; lia|simpl; lia]. }
  assert (start + Z.of_nat (Z.to_nat (stop - start)) ≤ Z.of_nat (length (flux g)))
    as Hend by (fold n; lia).
  pose proof (draw_samples_loop g h y_range start (Z.to_nat (stop - start)) start _
                ltac:(lia) Hend Hinv) as Hloop.
  replace (start + Z.of_nat (Z.to_nat (stop - start))) with stop in Hloop by lia.
  destruct (Py.for_each _ _ (Py.range start stop)) as [s|]; simpl.
  2: { destruct Hloop as [(i & Hi & val & Hval & Hbad)|Hpen]; [|by right].
       left. by exists i, val. }
  destruct Hloop as (Hpts & _ & Hmarks & Hfits).
  (* the circles *)
  destruct (Py.for_each draw_marker () (inflection_markers s)) as [[]|] eqn:Hcircles;
    simpl.
  - pose proof (Forall2_length _ _ _ Hpts) as Hlen. rewrite length_range in Hlen.
    split; [done|]. split.
    + intros k Hk.
      destruct (lookup_lt_is_Some_2 (points s) k Hk) as [pt Hpt].
      destruct (Forall2_lookup_r _ _ _ k pt Hpts Hpt) as (i & Hi & val & Hval & Hy & Hx).
      rewrite lookup_range in Hi by lia. injection Hi as <-.
      exists val, pt.2.
      replace (Z.to_nat start + k)%nat with (Z.to_nat (start + Z.of_nat k)) by lia.
      split; [done|]. split; [done|]. rewrite Hpt. f_equal.
      destruct pt as [x y]. simpl in *. f_equal. lia.
    + intros H2. apply Hfits. lia.
  - apply for_each_None in Hcircles as ([] & m & Hm & Hcall).
    destruct (Hmarks m Hm) as (j & Hj & Hpix).
    unfold draw_marker in Hcall. apply qt_call_None in Hcall.
    rewrite !Exists_cons, Exists_nil in Hcall.
    assert (off_canvas g h y_range start j) as (val & Hval & Hbad).
    { apply (pixel_off_canvas _ _ _ _ _ _ 6 6 Hpix); [lia..|].
      destruct Hcall as [Hc|[Hc|[Hc|[Hc|[]]]]]; [by left|by right|done..]. }
    left. by exists j, val.
Qed.

Lemma draw_data_not_empty g w h y_range :
  flux g ≠ [] → (draw_data g w h y_range).2 ≠ NoData.
Proof.
  intros Hflux. unfold draw_data.
  destruct (Z.eqb_spec (Z.of_nat (length (flux g))) 0) as [Hn|Hn].
  { destruct (flux g); [done|simpl in Hn; lia]. }
  destruct (visible_range g w) as [start stop]. cbn [snd].
  by destruct (_ ≫= _).
Qed.

(** A paint of samples shown from an offset between 0 and [max_scroll]
    that gets to its data section leaves, whether the section draws its
    points or raises, a stored range from which [_update_range_labels]
    writes the numbers, counted from 1, of the first and the last sample
    painted. A paint that returns at one of its two tests, raises before
    the data section or does not leave the Y-grid loop writes nothing:
    the labels stay what they were. *)
Theorem range_labels_after_paint fuel g w h :
  let n := Z.of_nat (length (flux g)) in
  0 < n → 0 ≤ scroll_offset g ≤ max_scroll g w →
  match (paint fuel g w h).2 with
  | Data d =>
      d ≠ NoData ∧
      ∃ first last,
        range_labels (flux g) (paint fuel g w h).1 = (first, last) ∧
        first = scroll_offset g + 1 ∧
        visible_range g w = (first - 1, last) ∧
        1 ≤ first ≤ last ∧ last ≤ n
  | Returned | RaisedEarly | GridRunning => (paint fuel g w h).1 = g
  end.
Proof.
  intros n Hn Hoff. unfold paint.
  destruct (paint_guard g w h) as [| | |y_range]; [done..|].
  destruct (read_colors g); [|done].
  destruct (y_grid fuel g w h y_range); [|done..].
  destruct (visible_range_scrolled g w Hn Hoff) as (stop & Hrange & Hstop & _).
  assert (flux g ≠ []) as Hflux.
  { intros Heq. unfold n in Hn. rewrite Heq in Hn. simpl in Hn. lia. }
  pose proof (draw_data_writes_range g w h y_range Hflux) as Hwrites.
  pose proof (draw_data_not_empty g w h y_range Hflux) as Hdrawn.
  destruct (draw_data g w h y_range) as [g' d]. simpl in *. subst g'.
  split; [done|].
  exists (scroll_offset g + 1), stop. rewrite Hrange.
  split.
  { pose proof Hrange as Heq. unfold visible_range in Heq. injection Heq as Hs He.
    unfold range_labels. subst n. destruct (flux g) eqn:E; [done|].
    simpl in *. f_equal; lia. }
  split; [done|].
  split; [by replace (scroll_offset g + 1 - 1) with (scroll_offset g) by lia|].
  lia.
Qed.

(** *** Settings and colours *)

Lemma foldl_insert_union (l : list (string * QColor)) (c : gmap string QColor) :
  NoDup l.*1 →
  foldl (λ c (kv : string * QColor), <[kv.1 := kv.2]> c) c l = list_to_map l ∪ c.
Proof.
  revert c. induction l as [|[k v] l IH]; intros c Hnd.
  { simpl. by rewrite (left_id_L ∅ (∪)). }
  rewrite fmap_cons in Hnd. apply NoDup_cons in Hnd as [Hk Hnd].
  cbn [foldl fst snd]. rewrite IH by done.
  rewrite list_to_map_cons, <- insert_union_l. symmetry. apply insert_union_r.
  by apply not_elem_of_list_to_map_1.
Qed.

Lemma reset_colours_union g :
  colors (reset_colours g) = DEFAULT_COLORS ∪ colors g.
Proof.
  unfold reset_colours. simpl.
  rewrite foldl_insert_union by apply NoDup_fst_map_to_list.
  by rewrite list_to_map_to_list.
Qed.

Lemma color_labels_keys (key : string) :
  is_Some (COLOR_LABELS !! key) ↔ is_Some (DEFAULT_COLORS !! key).
Proof.
  assert (dom COLOR_LABELS = dom DEFAULT_COLORS) as Hdom by (vm_compute; reflexivity).
  by rewrite <- !(elem_of_dom (D := gset string)), Hdom.
Qed.

Lemma paint_writes_range_only fuel g w h :
  (paint fuel g w h).1 = g
  ∨ flux g ≠ [] ∧
    (paint fuel g w h).1 = set_visible g (visible_range g w).1 (visible_range g w).2.
Proof.
  unfold paint. destruct (paint_guard g w h); [by left..|].
  destruct (read_colors g); [|by left].
  destruct (y_grid fuel g w h _); [|by left..].
  destruct (decide (flux g = [])) as [Hflux|Hflux].
  - left. by rewrite draw_data_empty.
  - right. split; [done|].
    rewrite (surjective_pairing (draw_data g w h _)). simpl.
    by apply draw_data_writes_range.
Qed.

(** A paint leaves a widget of the window one. *)
Lemma reachable_paint fuel g w h : reachable g → reachable (paint fuel g w h).1.
Proof.
  intros Hg. destruct (paint_writes_range_only fuel g w h) as [->|[Hflux ->]];
    [done|by apply reach_paint].
Qed.

Lemma reachable_configured g : reachable g → configured g.
Proof.
  induction 1 as [|g form _ IH|g f l _ IH|g v _ IH|g g' key chosen _ IH Hpick
                  |g _ IH|g key color _ IH Hkey|g w _ IH Hflux]; unfold configured in *.
  - simpl. repeat split; lia.
  - destruct IH as (Hx & Hgx & Hgy & Hc). simpl.
    destruct (txt_xstep form), (txt_grid_x form), (txt_grid_y form); simpl;
      repeat split; (lia || done).
  - done.
  - done.
  - destruct IH as (Hx & Hgx & Hgy & Hc).
    unfold pick_color in Hpick. apply bind_Some in Hpick as (c0 & Hkey & Hpick).
    apply bind_Some in Hpick as (label & _ & [= <-]).
    destruct chosen as [color|]; simpl; [|done].
    repeat split; [done..|]. rewrite dom_insert_L, <- Hc.
    apply (elem_of_dom_2 (D := gset string)) in Hkey.
    by apply subseteq_union_1_L, singleton_subseteq_l.
  - destruct IH as (Hx & Hgx & Hgy & Hc).
    repeat split; [done..|]. rewrite reset_colours_union, dom_union_L, Hc.
    apply union_idemp_L.
  - destruct IH as (Hx & Hgx & Hgy & Hc). simpl.
    repeat split; [done..|]. rewrite dom_insert_L, Hc.
    apply (elem_of_dom (D := gset string)) in Hkey.
    by apply subseteq_union_1_L, singleton_subseteq_l.
  - done.
Qed.

(** Whatever the text fields hold, the widget of the window has
    [x_step], [grid_x] and [grid_y] of at least 1, so that
    [points_per_screen] is [max(1, width // x_step)] and its guard for
    [x_step <= 0] is never taken. *)
Theorem reachable_steps_positive g :
  reachable g →
  1 ≤ x_step g ∧ 1 ≤ grid_x g ∧ 1 ≤ grid_y g ∧
  ∀ w, points_per_screen g w = Z.max 1 (w / x_step g).
Proof.
  intros (Hx & Hgx & Hgy & _)%reachable_configured.
  repeat split; [done..|]. intros w.
  apply (points_per_screen_spec g w). lia.
Qed.

(** The colour table of the window's widget always has the eight default
    keys and no other: picking a colour raises [KeyError] exactly for a
    key that is not one of them, a picked colour is stored under its key
    and changes no other colour, and [_reset_colours] brings back the
    default table whatever was picked before. *)
Theorem reachable_colours g :
  reachable g →
  (∀ key, is_Some (colors g !! key) ↔ is_Some (DEFAULT_COLORS !! key)) ∧
  (∀ key chosen, pick_color g key chosen = None ↔ DEFAULT_COLORS !! key = None) ∧
  (∀ key color g',
     pick_color g key (Some color) = Some g' →
     colors g' !! key = Some color ∧
     ∀ other, other ≠ key → colors g' !! other = colors g !! other) ∧
  colors (reset_colours g) = DEFAULT_COLORS.
Proof.
  intros (_ & _ & _ & Hdom)%reachable_configured.
  assert (∀ key, is_Some (colors g !! key) ↔ is_Some (DEFAULT_COLORS !! key)) as Hkeys.
  { intros key. by rewrite <- !(elem_of_dom (D := gset string)), Hdom. }
  split; [done|]. split; [|split].
  - intros key chosen. unfold pick_color. specialize (Hkeys key).
    pose proof (color_labels_keys key) as Hlabels.
    destruct (colors g !! key) eqn:E; simpl.
    + destruct (COLOR_LABELS !! key) eqn:E''; simpl.
      * split; [done|]. intros Hnone.
        destruct (proj1 Hkeys (mk_is_Some _ _ eq_refl)) as [x Hx]. congruence.
      * split; [|done]. intros _. apply eq_None_not_Some. intros Hsome.
        by destruct (proj2 Hlabels Hsome).
    + split; [|done]. intros _. apply eq_None_not_Some. intros Hsome.
      by destruct (proj2 Hkeys Hsome).
  - intros key color g' Hpick. unfold pick_color in Hpick.
    apply bind_Some in Hpick as (c0 & _ & Hpick).
    apply bind_Some in Hpick as (label & _ & [= <-]). simpl. split.
    + apply lookup_insert_eq.
    + intros other Hne. by apply lookup_insert_ne.
  - rewrite reset_colours_union. apply map_eq. intros key.
    rewrite lookup_union. specialize (Hkeys key).
    destruct (DEFAULT_COLORS !! key) eqn:E; simpl.
    + by destruct (colors g !! key).
    + destruct (colors g !! key) eqn:E'; [|done].
      by destruct (proj1 Hkeys (mk_is_Some _ _ eq_refl)).
Qed.

End ViewportMore.

(** ** The two grids *)

Section GridFacts.

Import GraphWidget.

Implicit Types (g : GraphWidget.t) (w h : Z).

(** The Y-grid loop does not end once adding [grid_y] leaves a float grid
    value as it is, which rounding does for a value large enough, while
    the value is not above [y_high] and its position is computed without
    an exception: however many turns are allowed, the loop is still
    running. *)
Theorem y_grid_loop_never_ends g w h y_range (x : float) y :
  c_int w = true → c_int h = true →
  Py.num_leb (Py.PyFloat x) (y_high g) = true →
  flux_to_y g h y_range (Py.PyFloat x) = Some y →
  Py.num_add (Py.PyFloat x) (Py.PyInt (grid_y g)) = Some (Py.PyFloat x) →
  ∀ fuel, y_grid_loop fuel g w h y_range (Py.PyFloat x) = Running.
Proof.
  intros Hw Hh Hle Hy Hadd fuel. induction fuel as [|fuel IH]; cbn [y_grid_loop].
  { by rewrite Hle. }
  rewrite Hle, Hy. cbn [mbind option_bind].
  destruct (Z.leb_spec 0 y), (Z.leb_spec y h);
    cbn [andb mbind option_bind Py.to_float]; rewrite ?Hadd; try done.
  rewrite (proj2 (qt_call_Some [0; y; w; y])),
    (proj2 (qt_call_Some [4; y - 3])).
  - done.
  - repeat constructor; unfold c_int in *; lia.
  - repeat constructor; unfold c_int in *; lia.
Qed.

Lemma x_grid_loop_spec (turns : nat) (x pixel_spacing w : Z) :
  0 < pixel_spacing → (Z.to_nat (w - x) ≤ turns)%nat →
  x_grid_loop turns x pixel_spacing w
  = (λ k : nat, x + Z.of_nat k * pixel_spacing)
    <$> seq 0 (Z.to_nat ((w - x + pixel_spacing - 1) / pixel_spacing)).
Proof.
  intros Hps. revert x. induction turns as [|turns IH]; intros x Hturns; simpl.
  - replace (Z.to_nat ((w - x + pixel_spacing - 1) / pixel_spacing)) with 0%nat;
      [done|].
    assert ((w - x + pixel_spacing - 1) / pixel_spacing < 1)
      by (apply Z.div_lt_upper_bound; lia).
    lia.
  - destruct (Z.ltb_spec x w) as [Hlt|Hge].
    + rewrite IH by lia.
      replace ((w - x + pixel_spacing - 1) / pixel_spacing)
        with ((w - (x + pixel_spacing) + pixel_spacing - 1) / pixel_spacing + 1).
      2: { rewrite <- Z.div_add by lia. f_equal. lia. }
      assert (0 ≤ (w - (x + pixel_spacing) + pixel_spacing - 1) / pixel_spacing)
        by (apply Z.div_pos; lia).
      rewrite Z2Nat.inj_add by lia. rewrite Nat.add_comm. simpl.
      f_equal; [lia|]. rewrite <- fmap_S_seq, <- list_fmap_compose.
      apply list_fmap_ext. intros _ k _. simpl. lia.
    + replace (Z.to_nat ((w - x + pixel_spacing - 1) / pixel_spacing)) with 0%nat;
        [done|].
      assert ((w - x + pixel_spacing - 1) / pixel_spacing < 1)
        by (apply Z.div_lt_upper_bound; lia).
      lia.
Qed.

(** The X grid, when it is shown, draws its lines at the multiples of
    [grid_x * x_step] below [w], from the first on, and its loop is over
    within [w] turns: more turns give the same lines. Without the toggle,
    or with a step that is not positive, nothing is drawn. *)
Theorem x_grid_lines g w :
  let pixel_spacing := grid_x g * x_step g in
  (show_x_grid g = true → 0 < grid_x g → 0 < x_step g →
   x_grid g w
   = (λ k : nat, Z.of_nat (S k) * pixel_spacing)
     <$> seq 0 (Z.to_nat ((w - 1) / pixel_spacing)) ∧
   ∀ turns, (Z.to_nat w ≤ turns)%nat →
     x_grid_loop turns pixel_spacing pixel_spacing w = x_grid g w) ∧
  (show_x_grid g = false ∨ grid_x g ≤ 0 ∨ x_step g ≤ 0 → x_grid g w = []).
Proof.
  intros pixel_spacing. split.
  - intros Hshow Hgx Hstep. assert (0 < pixel_spacing) as Hps by (unfold pixel_spacing; lia).
    assert (∀ turns, (Z.to_nat w ≤ turns)%nat →
              x_grid_loop turns pixel_spacing pixel_spacing w
              = (λ k : nat, Z.of_nat (S k) * pixel_spacing)
                <$> seq 0 (Z.to_nat ((w - 1) / pixel_spacing))) as Hloop.
    { intros turns Hturns. rewrite x_grid_loop_spec by lia.
      replace (w - pixel_spacing + pixel_spacing - 1) with (w - 1) by lia.
      apply list_fmap_ext. intros _ k _. lia. }
    assert (x_grid g w = x_grid_loop (Z.to_nat w) pixel_spacing pixel_spacing w) as Hgrid.
    { unfold x_grid. rewrite Hshow. fold pixel_spacing.
      destruct (Z.ltb_spec 0 (grid_x g)); [|lia].
      destruct (Z.ltb_spec 0 (x_step g)); [|lia].
      destruct (Z.ltb_spec 0 pixel_spacing); [done|lia]. }
    split.
    + rewrite Hgrid. by apply Hloop.
    + intros turns Hturns. rewrite Hgrid, !Hloop; [done|lia..].
  - intros Hoff. unfold x_grid.
    destruct (show_x_grid g); simpl; [|done].
    destruct (Z.ltb_spec 0 (grid_x g)); simpl; [|done].
    destruct (Z.ltb_spec 0 (x_step g)); simpl; [|done].
    destruct Hoff as [?|[?|?]]; [done|lia..].
Qed.

End GridFacts.

(** ** The frames kept for the video *)

Section FrameSelection.

Import VideoSampler.

Context {Frame : Type}.
Implicit Types (frames_dir : gmap Z Frame) (l : list Z).

Lemma sorted_indices_ascending l : StronglySorted Z.lt (sorted_indices l).
Proof.
  unfold sorted_indices.
  assert (NoDup (merge_sort Z.le (elements (list_to_set l : gset Z)))) as Hnd.
  { rewrite merge_sort_Permutation. apply NoDup_elements. }
  pose proof (StronglySorted_merge_sort Z.le (elements (list_to_set l : gset Z)))
    as Hsort.
  induction Hsort as [|x k _ IH Hall]; [constructor|].
  apply NoDup_cons in Hnd as [Hx Hnd]. constructor; [by apply IH|].
  rewrite Forall_forall in Hall |- *. intros y Hy. specialize (Hall y Hy).
  assert (x ≠ y) by (by intros ->). lia.
Qed.

Lemma elem_of_sorted_indices l x : x ∈ sorted_indices l ↔ x ∈ l.
Proof.
  unfold sorted_indices.
  by rewrite merge_sort_Permutation, elem_of_elements, elem_of_list_to_set.
Qed.

Lemma ascending_unique (l1 l2 : list Z) :
  StronglySorted Z.lt l1 → StronglySorted Z.lt l2 →
  (∀ x, x ∈ l1 ↔ x ∈ l2) → l1 = l2.
Proof.
  intros H1 H2 Hsame.
  assert (∀ l, StronglySorted Z.lt l → StronglySorted Z.le l) as Hle.
  { induction 1 as [|x k _ IH Hall]; constructor; [done|].
    eapply Forall_impl; [done|]. simpl. lia. }
  apply (StronglySorted_unique Z.le); [by apply Hle..|].
  apply NoDup_Permutation; [by apply ascending_NoDup..|done].
Qed.

Lemma copy_frames_lookup frames_dir l :
  ∀ (first : Z) (selected_dir : gmap Z Frame),
    let result := foldl (copy_frame frames_dir) selected_dir
                    (Py.enumerate_from first l) in
    (∀ k : nat, (k < length l)%nat →
       result !! (first + Z.of_nat k)
       = match l !! k ≫= (frames_dir !!.) with
         | Some frame => Some frame
         | None => selected_dir !! (first + Z.of_nat k)
         end) ∧
    (∀ j, ¬ (first ≤ j < first + Z.of_nat (length l)) →
       result !! j = selected_dir !! j).
Proof.
  induction l as [|x l IH]; intros first selected_dir result; subst result.
  { simpl. split; [intros k Hk; lia|done]. }
  cbn [Py.enumerate_from foldl length].
  destruct (IH (first + 1) (copy_frame frames_dir selected_dir (first, x)))
    as [Hin Hout].
  split.
  - intros [|k] Hk.
    + rewrite Nat2Z.inj_0, Z.add_0_r, Hout by lia. simpl. unfold copy_frame.
      destruct (frames_dir !! x); [apply lookup_insert_eq|done].
    + replace (first + Z.of_nat (S k)) with (first + 1 + Z.of_nat k) by lia.
      rewrite Hin by (simpl in Hk; lia). simpl.
      destruct (l !! k ≫= (frames_dir !!.)); [done|].
      unfold copy_frame. destruct (frames_dir !! x); [|done].
      apply lookup_insert_ne. lia.
  - intros j Hj. rewrite Hout by lia. unfold copy_frame.
    destruct (frames_dir !! x); [|done]. apply lookup_insert_ne. lia.
Qed.

(** Output frame [k + 1] is the source frame whose number is the [k]-th
    smallest of the distinct requested numbers. When the source has no
    such frame, number [k + 1] stays missing: the frames after it are not
    renumbered. No other number is written. *)
Theorem select_frames_lookup frames_dir l :
  (∀ k : nat,
     select_frames frames_dir l !! (Z.of_nat k + 1)
     = sorted_indices l !! k ≫= (frames_dir !!.)) ∧
  (∀ j, j ≤ 0 → select_frames frames_dir l !! j = None).
Proof.
  unfold select_frames.
  destruct (copy_frames_lookup frames_dir (sorted_indices l) 1 ∅) as [Hin Hout].
  split.
  - intros k. replace (Z.of_nat k + 1) with (1 + Z.of_nat k) by lia.
    destruct (decide (k < length (sorted_indices l))%nat) as [Hk|Hk].
    + rewrite Hin by done. by destruct (_ ≫= _).
    + rewrite Hout by lia. rewrite lookup_empty.
      by rewrite (lookup_ge_None_2 (sorted_indices l) k) by lia.
  - intros j Hj. by rewrite Hout by lia.
Qed.

(** Repeated numbers and the order of the request make no difference. *)
Theorem select_frames_same_numbers frames_dir (l1 l2 : list Z) :
  (∀ x, x ∈ l1 ↔ x ∈ l2) →
  select_frames frames_dir l1 = select_frames frames_dir l2.
Proof.
  intros Hsame. unfold select_frames.
  rewrite (ascending_unique (sorted_indices l1) (sorted_indices l2));
    [done|apply sorted_indices_ascending..|].
  intros x. by rewrite !elem_of_sorted_indices.
Qed.

(** The frame numbers of the inflection list are ascending and distinct
    already, so [sorted(set(...))] leaves them as they are: item [k] of
    the list becomes frame [k] of the output, when the video has that
    frame. *)
Theorem listed_frames_keep_their_order {A : Type} (flux : list A)
    (lbls : list InflectionType) (filter_type : option InflectionType)
    (idxs : list Z) frames_dir :
  listed_frame_indices flux lbls filter_type = Some idxs →
  sorted_indices idxs = idxs ∧
  ∀ k : nat,
    select_frames frames_dir idxs !! (Z.of_nat k + 1) = idxs !! k ≫= (frames_dir !!.).
Proof.
  intros Hrun.
  assert (StronglySorted Z.lt idxs) as Hsort.
  { unfold listed_frame_indices in Hrun.
    pose proof (get_inflection_points_spec flux lbls filter_type) as Hspec.
    destruct (get_inflection_points flux lbls filter_type) as [pts|];
      simpl in Hrun; [|done].
    injection Hrun as <-. destruct Hspec as (_ & _ & Hsort).
    replace ((λ pt : Point A, pt.1.1 + 1) <$> pts)
      with ((λ j, j + 1) <$> pts.*1.*1); [by apply ascending_succ|].
    rewrite <- !list_fmap_compose. by apply list_fmap_ext. }
  assert (sorted_indices idxs = idxs) as Heq.
  { apply ascending_unique; [apply sorted_indices_ascending|done|].
    apply elem_of_sorted_indices. }
  split; [done|]. intros k.
  unfold select_frames.
  destruct (copy_frames_lookup frames_dir (sorted_indices idxs) 1 ∅) as [Hin Hout].
  replace (Z.of_nat k + 1) with (1 + Z.of_nat k) by lia.
  destruct (decide (k < length (sorted_indices idxs))%nat) as [Hk|Hk].
  - rewrite Hin by done. rewrite Heq. by destruct (_ ≫= _).
  - rewrite Hout by lia. rewrite lookup_empty.
    rewrite Heq in Hk. by rewrite (lookup_ge_None_2 idxs k) by lia.
Qed.

End FrameSelection.

(** ** The parser *)

Section ParserFacts.

Import DataParser.

Context (float_of_str : Str → option float).

Implicit Types (line : Str) (lines data : list Str).

Lemma foldl_add_row data (acc : list float) :
  foldl (add_row float_of_str) acc data = acc ++ omap (row_value float_of_str) data.
Proof.
  revert acc. induction data as [|line data IH]; intros acc; simpl.
  { by rewrite app_nil_r. }
  rewrite IH. unfold add_row.
  destruct (row_value float_of_str line); [by rewrite <- app_assoc|done].
Qed.

Lemma skip_header_real_file (i : Z) (count : nat) lines :
  Forall (λ line, line ≠ []) lines →
  skip_header i count lines
  = if decide (length lines < count)%nat
    then inl (TooFewHeaderLines (i + Z.of_nat (length lines) + 1))
    else inr (drop count lines).
Proof.
  revert i lines. induction count as [|count IH]; intros i lines Hreal.
  { destruct (decide (length lines < 0)%nat); [lia|]. by rewrite drop_0. }
  destruct Hreal as [|line lines Hline Hreal].
  { destruct (decide (length (@nil Str) < S count)%nat) as [_|Hge]; simpl in *; [|lia].
    do 2 f_equal. lia. }
  cbn [skip_header]. rewrite bool_decide_eq_false_2 by done. rewrite IH by done.
  destruct (decide (length lines < count)%nat),
    (decide (length (line :: lines) < S count)%nat); simpl in *; try lia; [|done].
  do 2 f_equal. lia.
Qed.

(** What [parse_flux_file] does with a file, each line of which has at
    least its line end: with fewer than 4 lines it raises the header
    error, naming the line after the last; otherwise it returns, in the
    order of the file, the values of the rows after the 4 header lines
    that have one, whatever the header lines say, and raises the other
    error instead of returning an empty list. *)
Theorem parse_flux_file_spec lines :
  Forall (λ line, line ≠ []) lines →
  parse_flux_file float_of_str lines
  = if decide (length lines < 4)%nat
    then inl (TooFewHeaderLines (Z.of_nat (length lines) + 1))
    else match omap (row_value float_of_str) (drop 4 lines) with
         | [] => inl NoValidData
         | flux_values => inr flux_values
         end.
Proof.
  intros Hreal. unfold parse_flux_file.
  rewrite skip_header_real_file by done.
  case_decide; [done|]. by rewrite foldl_add_row.
Qed.

Lemma lstrip_whitespace (ws s : Str) :
  Forall (λ c, is_whitespace c = true) ws → lstrip (ws ++ s) = lstrip s.
Proof. induction 1 as [|c ws Hc _ IH]; simpl; [done|by rewrite Hc]. Qed.

(** White space at the start of a line is removed before the line is
    split: a row that starts with tabs, that is with empty cells, is read
    as the row without them, so that its third cell is not the one that
    is parsed. *)
Theorem row_value_leading_whitespace (ws line : Str) :
  Forall (λ c, is_whitespace c = true) ws →
  row_value float_of_str (ws ++ line) = row_value float_of_str line.
Proof.
  intros Hws. unfold row_value, strip. by rewrite lstrip_whitespace.
Qed.

End ParserFacts.

(** ** The detector reads the same from either end *)

Lemma labels_eq_between (l1 l2 : list InflectionType) (p q : nat) :
  (is_Some (l1 !! p) ↔ is_Some (l2 !! q)) →
  (l1 !! p = Some DOWN_TO_UP ↔ l2 !! q = Some DOWN_TO_UP) →
  (l1 !! p = Some UP_TO_DOWN ↔ l2 !! q = Some UP_TO_DOWN) →
  l1 !! p = l2 !! q.
Proof.
  intros Hsome Hd Hu.
  destruct (l1 !! p) as [t1|] eqn:H1, (l2 !! q) as [t2|] eqn:H2.
  - destruct t1, t2; try done;
      try (by apply Hd); try (by apply Hu);
      try (by symmetry; apply Hd); try (by symmetry; apply Hu).
  - by destruct (proj1 Hsome (mk_is_Some _ _ eq_refl)).
  - by destruct (proj2 Hsome (mk_is_Some _ _ eq_refl)).
  - done.
Qed.

Section Reversed.

Context {A : Type} (ltb : A → A → bool).
Hypothesis ltb_asym : asymmetric ltb.

Implicit Types (flux : list A).

Lemma window_reverse flux (p : nat) (a b c d e : A) :
  (2 ≤ p)%nat → (p + 2 < length flux)%nat →
  window flux p a b c d e →
  window (reverse flux) (length flux - 1 - p) e d c b a.
Proof.
  intros Hlo Hhi (Ha & Hb & Hc & Hd & He). unfold window.
  rewrite !reverse_lookup by lia.
  replace (length flux - S (length flux - 1 - p - 2))%nat with (p + 2)%nat by lia.
  replace (length flux - S (length flux - 1 - p - 1))%nat with (p + 1)%nat by lia.
  replace (length flux - S (length flux - 1 - p))%nat with p by lia.
  replace (length flux - S (length flux - 1 - p + 1))%nat with (p - 1)%nat by lia.
  replace (length flux - S (length flux - 1 - p + 2))%nat with (p - 2)%nat by lia.
  done.
Qed.

Lemma valley_reverse flux (p : nat) :
  (valley ltb flux p → valley ltb (reverse flux) (length flux - 1 - p)) ∧
  (peak ltb flux p → peak ltb (reverse flux) (length flux - 1 - p)).
Proof.
  split; intros (Hlo & Hhi & a & b & c & d & e & Hw & H1 & H2 & H3 & H4);
    (split; [lia|]); (split; [rewrite length_reverse; lia|]);
    exists e, d, c, b, a; (split; [by apply window_reverse|]);
    unfold gtb in *; done.
Qed.

(** Reading the samples backwards gives the same labels, backwards. *)
Lemma detect_reverse flux :
  detect_inflections ltb (reverse flux)
  = (λ r, mkInflectionResult (reverse (labels r))) <$> detect_inflections ltb flux.
Proof.
  destruct (detect_exact ltb ltb_asym flux) as (l1 & -> & Hlen1 & H1).
  destruct (detect_exact ltb ltb_asym (reverse flux)) as (l2 & -> & Hlen2 & H2).
  simpl. do 2 f_equal. rewrite length_reverse in Hlen2.
  apply list_eq. intros q.
  destruct (decide (q < length flux)%nat) as [Hq|Hq].
  2: { rewrite !lookup_ge_None_2; [done|rewrite length_reverse; lia|lia]. }
  rewrite (reverse_lookup l1) by lia. rewrite Hlen1.
  set (p := (length flux - S q)%nat).
  destruct (H1 p) as [Hd1 Hu1], (H2 q) as [Hd2 Hu2].
  destruct (valley_reverse flux p) as [Hv Hp].
  destruct (valley_reverse (reverse flux) q) as [Hv' Hp'].
  rewrite reverse_involutive in Hv', Hp'.
  replace (length (reverse flux) - 1 - q)%nat with p in Hv', Hp'
    by (rewrite length_reverse; unfold p; lia).
  replace (length flux - 1 - p)%nat with q in Hv, Hp by (unfold p; lia).
  apply labels_eq_between.
  - rewrite !lookup_lt_is_Some. unfold p. lia.
  - rewrite Hd1, Hd2. by split.
  - rewrite Hu1, Hu2. by split.
Qed.

End Reversed.

(** The scan runs from left to right with a tracked direction, yet its
    result has no direction: the labels of the reversed float sequence are
    the reversed labels, each reversal with its type. *)
Theorem detect_float_reversed (flux : list float) :
  detect_float (reverse flux)
  = (λ r, mkInflectionResult (reverse (labels r))) <$> detect_float flux.
Proof. apply detect_reverse, float_ltb_asymmetric. Qed.

(** ** Instances *)

Lemma detect_float_local_witness :
  let flux1 := [10; 8; 6; 7; 9; 11]%float in
  let flux2 := [10; 8; 6; 7; 9; 3; 5; 100; 1]%float in
  (∀ k : nat, (2 - 2 ≤ k ≤ 2 + 2)%nat → flux1 !! k = flux2 !! k) ∧
  ∃ l1 l2,
    detect_float flux1 = Some (mkInflectionResult l1) ∧
    detect_float flux2 = Some (mkInflectionResult l2) ∧
    l1 !! 2%nat = l2 !! 2%nat.
Proof.
  intros flux1 flux2.
  assert (∀ k : nat, (2 - 2 ≤ k ≤ 2 + 2)%nat → flux1 !! k = flux2 !! k) as Hsame.
  { intros [|[|[|[|[|k]]]]] Hk; try reflexivity. simpl in Hk. lia. }
  split; [exact Hsame|]. exact (detect_float_local flux1 flux2 2 Hsame).
Defined.

Lemma get_inflection_points_filter_witness :
  let flux := [10; 8; 6; 7; 9; 11]%float in
  let lbls := [NORMAL; NORMAL; DOWN_TO_UP; NORMAL; UP_TO_DOWN; NORMAL] in
  let pts := [(2, 6%float, DOWN_TO_UP); (4, 9%float, UP_TO_DOWN)] in
  get_inflection_points flux lbls None = Some pts ∧
  get_inflection_points flux lbls (Some UP_TO_DOWN)
  = Some (filter (λ pt, pt.2 = UP_TO_DOWN) pts).
Proof.
  intros flux lbls pts.
  assert (get_inflection_points flux lbls None = Some pts) as Hrun
    by (vm_compute; reflexivity).
  split; [exact Hrun|].
  exact (get_inflection_points_filter flux lbls UP_TO_DOWN pts Hrun).
Defined.

Lemma scroll_range_in_bounds_witness :
  0 < Z.of_nat (length (GraphWidget.flux ten_samples)) ∧
  0 ≤ GraphWidget.scroll_offset ten_samples ≤ GraphWidget.max_scroll ten_samples 20 ∧
  ∃ stop,
    GraphWidget.visible_range ten_samples 20 = (3, stop) ∧
    3 < stop ≤ 10 ∧
    stop - 3 = Z.min (GraphWidget.points_per_screen ten_samples 20 + 1) (10 - 3) ∧
    (3 = GraphWidget.max_scroll ten_samples 20 → stop = 10).
Proof.
  assert (0 < Z.of_nat (length (GraphWidget.flux ten_samples))) as Hn
    by reflexivity.
  assert (0 ≤ GraphWidget.scroll_offset ten_samples
            ≤ GraphWidget.max_scroll ten_samples 20) as Hoff
    by (vm_compute; split; discriminate).
  split; [exact Hn|]. split; [exact Hoff|].
  exact (scroll_range_in_bounds ten_samples 20 Hn Hoff).
Defined.

Lemma every_sample_scrollable_witness :
  (9 < length (GraphWidget.flux ten_samples))%nat ∧
  ∃ value start stop,
    0 ≤ value ≤ GraphWidget.max_scroll ten_samples 20 ∧
    GraphWidget.visible_range (GraphWidget.set_scroll_offset ten_samples value) 20
    = (start, stop) ∧
    start ≤ 9 < stop.
Proof.
  assert (9 < length (GraphWidget.flux ten_samples))%nat as Hi by (simpl; lia).
  split; [exact Hi|]. exact (every_sample_scrollable ten_samples 20 9 Hi).
Defined.

Lemma draw_data_polyline_witness :
  (GraphWidget.flux ten_samples ≠ [] ∧
   (GraphWidget.draw_data ten_samples 20 200 (Py.PyInt 5000)).2
   = GraphWidget.Polyline [(0, 190); (5, 192); (10, 194); (15, 193); (20, 192)] ∧
   ∃ start stop,
     GraphWidget.visible_range ten_samples 20 = (start, stop) ∧
     match (GraphWidget.draw_data ten_samples 20 200 (Py.PyInt 5000)).2 with
     | GraphWidget.NoData => False
     | GraphWidget.Polyline points =>
         length points = Z.to_nat (stop - start) ∧
         (∀ k : nat, (k < length points)%nat →
            ∃ val py,
              GraphWidget.flux ten_samples !! (Z.to_nat start + k)%nat = Some val ∧
              GraphWidget.flux_to_y ten_samples 200 (Py.PyInt 5000) (Py.PyFloat val) = Some py ∧
              points !! k = Some (Z.of_nat k * GraphWidget.x_step ten_samples, py)) ∧
         ((2 ≤ length points)%nat →
          Forall (λ pt, GraphWidget.c_int pt.1 = true ∧ GraphWidget.c_int pt.2 = true)
            points)
     | GraphWidget.Raised =>
         (∃ (i : Z) val,
            start ≤ i < stop ∧
            GraphWidget.flux ten_samples !! Z.to_nat i = Some val ∧
            match GraphWidget.flux_to_y ten_samples 200 (Py.PyInt 5000) (Py.PyFloat val) with
            | None => True
            | Some py =>
                ¬ (on_canvas ((i - start) * GraphWidget.x_step ten_samples)
                   ∧ on_canvas py)
            end)
         ∨ Py.as_float (GraphWidget.line_thickness ten_samples) = None
     end) ∧
  (GraphWidget.flux far_sample ≠ [] ∧
   (GraphWidget.draw_data far_sample 800 200 (Py.PyInt 5000)).2 = GraphWidget.Raised ∧
   ∃ start stop,
     GraphWidget.visible_range far_sample 800 = (start, stop) ∧
     match (GraphWidget.draw_data far_sample 800 200 (Py.PyInt 5000)).2 with
     | GraphWidget.NoData => False
     | GraphWidget.Polyline points =>
         length points = Z.to_nat (stop - start) ∧
         (∀ k : nat, (k < length points)%nat →
            ∃ val py,
              GraphWidget.flux far_sample !! (Z.to_nat start + k)%nat = Some val ∧
              GraphWidget.flux_to_y far_sample 200 (Py.PyInt 5000) (Py.PyFloat val) = Some py ∧
              points !! k = Some (Z.of_nat k * GraphWidget.x_step far_sample, py)) ∧
         ((2 ≤ length points)%nat →
          Forall (λ pt, GraphWidget.c_int pt.1 = true ∧ GraphWidget.c_int pt.2 = true)
            points)
     | GraphWidget.Raised =>
         (∃ (i : Z) val,
            start ≤ i < stop ∧
            GraphWidget.flux far_sample !! Z.to_nat i = Some val ∧
            match GraphWidget.flux_to_y far_sample 200 (Py.PyInt 5000) (Py.PyFloat val) with
            | None => True
            | Some py =>
                ¬ (on_canvas ((i - start) * GraphWidget.x_step far_sample)
                   ∧ on_canvas py)
            end)
         ∨ Py.as_float (GraphWidget.line_thickness far_sample) = None
     end).
Proof.
  assert (GraphWidget.flux ten_samples ≠ []) as Hflux by discriminate.
  assert (GraphWidget.flux far_sample ≠ []) as Hfar by discriminate.
  split.
  - split; [exact Hflux|]. split; [vm_compute; reflexivity|].
    exact (draw_data_polyline ten_samples 20 200 (Py.PyInt 5000) Hflux).
  - split; [exact Hfar|]. split; [vm_compute; reflexivity|].
    exact (draw_data_polyline far_sample 800 200 (Py.PyInt 5000) Hfar).
Defined.

Lemma range_labels_after_paint_witness :
  0 < Z.of_nat (length (GraphWidget.flux ten_samples)) ∧
  0 ≤ GraphWidget.scroll_offset ten_samples ≤ GraphWidget.max_scroll ten_samples 20 ∧
  (GraphWidget.paint 60 ten_samples 20 200).2
  = GraphWidget.Data
      (GraphWidget.Polyline [(0, 190); (5, 192); (10, 194); (15, 193); (20, 192)]) ∧
  MainWindow.range_labels (GraphWidget.flux ten_samples)
    (GraphWidget.paint 60 ten_samples 20 200).1 = (4, 8) ∧
  match (GraphWidget.paint 60 ten_samples 20 200).2 with
  | GraphWidget.Data d =>
      d ≠ GraphWidget.NoData ∧
      ∃ first last,
        MainWindow.range_labels (GraphWidget.flux ten_samples)
          (GraphWidget.paint 60 ten_samples 20 200).1 = (first, last) ∧
        first = GraphWidget.scroll_offset ten_samples + 1 ∧
        GraphWidget.visible_range ten_samples 20 = (first - 1, last) ∧
        1 ≤ first ≤ last ∧ last ≤ Z.of_nat (length (GraphWidget.flux ten_samples))
  | GraphWidget.Returned | GraphWidget.RaisedEarly | GraphWidget.GridRunning =>
      (GraphWidget.paint 60 ten_samples 20 200).1 = ten_samples
  end.
Proof.
  assert (0 < Z.of_nat (length (GraphWidget.flux ten_samples))) as Hn
    by reflexivity.
  assert (0 ≤ GraphWidget.scroll_offset ten_samples
            ≤ GraphWidget.max_scroll ten_samples 20) as Hoff
    by (vm_compute; split; discriminate).
  split; [exact Hn|]. split; [exact Hoff|].
  split; [vm_compute; reflexivity|]. split; [vm_compute; reflexivity|].
  exact (range_labels_after_paint 60 ten_samples 20 200 Hn Hoff).
Defined.

Lemma y_grid_loop_never_ends_witness :
  let g := stalled_grid in
  let x := 10000000000000000%float in
  let grid_val := Py.PyFloat x in
  let y_range := Py.PyFloat 90000000000000000 in
  GraphWidget.c_int 800 = true ∧ GraphWidget.c_int 200 = true ∧
  Py.num_leb grid_val (GraphWidget.y_high g) = true ∧
  GraphWidget.flux_to_y g 200 y_range grid_val = Some 200 ∧
  Py.num_add grid_val (Py.PyInt (GraphWidget.grid_y g)) = Some grid_val ∧
  (∀ fuel, GraphWidget.y_grid_loop fuel g 800 200 y_range grid_val
           = GraphWidget.Running) ∧
  ∀ fuel, GraphWidget.paint fuel g 800 200 = (g, GraphWidget.GridRunning).
Proof.
  intros g x grid_val y_range.
  assert (GraphWidget.c_int 800 = true) as Hw by reflexivity.
  assert (GraphWidget.c_int 200 = true) as Hh by reflexivity.
  assert (Py.num_leb grid_val (GraphWidget.y_high g) = true) as Hle
    by (vm_compute; reflexivity).
  assert (GraphWidget.flux_to_y g 200 y_range grid_val = Some 200) as Hy
    by (vm_compute; reflexivity).
  assert (Py.num_add grid_val (Py.PyInt (GraphWidget.grid_y g)) = Some grid_val)
    as Hadd
    by (vm_compute; reflexivity).
  pose proof (y_grid_loop_never_ends g 800 200 y_range x 200 Hw Hh Hle Hy Hadd)
    as Hloop.
  do 5 (split; [assumption|]). split; [exact Hloop|].
  intros fuel.
  assert (GraphWidget.paint_guard g 800 200 = GraphWidget.Proceed y_range) as Hguard
    by (vm_compute; reflexivity).
  assert (GraphWidget.read_colors g = Some ()) as Hcolors by (vm_compute; reflexivity).
  assert (GraphWidget.y_grid fuel g 800 200 y_range
          = GraphWidget.y_grid_loop fuel g 800 200 y_range grid_val) as Hgrid.
  { unfold GraphWidget.y_grid.
    assert (Py.num_mod (GraphWidget.y_low g) (Py.PyInt (GraphWidget.grid_y g))
            = Some (Py.PyFloat 0)) as -> by (vm_compute; reflexivity).
    reflexivity. }
  unfold GraphWidget.paint. by rewrite Hguard, Hcolors, Hgrid, Hloop.
Defined.

Lemma x_grid_lines_witness :
  GraphWidget.show_x_grid ten_samples = true ∧
  0 < GraphWidget.grid_x ten_samples ∧ 0 < GraphWidget.x_step ten_samples ∧
  GraphWidget.x_grid ten_samples 800 = [125; 250; 375; 500; 625; 750] ∧
  GraphWidget.x_grid ten_samples 800
  = (λ k : nat, Z.of_nat (S k) * (25 * 5)) <$> seq 0 (Z.to_nat ((800 - 1) / (25 * 5))) ∧
  ∀ turns, (Z.to_nat 800 ≤ turns)%nat →
    GraphWidget.x_grid_loop turns (25 * 5) (25 * 5) 800
    = GraphWidget.x_grid ten_samples 800.
Proof.
  assert (GraphWidget.show_x_grid ten_samples = true) as Hshow by reflexivity.
  assert (0 < GraphWidget.grid_x ten_samples) as Hgx by reflexivity.
  assert (0 < GraphWidget.x_step ten_samples) as Hstep by reflexivity.
  split; [exact Hshow|]. split; [exact Hgx|]. split; [exact Hstep|].
  split; [vm_compute; reflexivity|].
  exact (proj1 (x_grid_lines ten_samples 800) Hshow Hgx Hstep).
Defined.

Lemma reachable_steps_positive_witness :
  let g := MainWindow.apply_settings_to_graph GraphWidget.init zero_step_form in
  MainWindow.reachable g ∧
  1 ≤ GraphWidget.x_step g ∧ 1 ≤ GraphWidget.grid_x g ∧ 1 ≤ GraphWidget.grid_y g ∧
  ∀ w, GraphWidget.points_per_screen g w = Z.max 1 (w / GraphWidget.x_step g).
Proof.
  intros g.
  assert (MainWindow.reachable g) as Hreach
    by apply MainWindow.reach_settings, MainWindow.reach_init.
  split; [exact Hreach|]. exact (reachable_steps_positive g Hreach).
Defined.

Lemma reachable_colours_witness :
  let g := picked_line_up in
  MainWindow.reachable g ∧
  GraphWidget.colors g !! "line_up" = Some (mkQColor 1 2 3) ∧
  (∀ key, is_Some (GraphWidget.colors g !! key) ↔ is_Some (DEFAULT_COLORS !! key)) ∧
  (∀ key chosen,
     MainWindow.pick_color g key chosen = None ↔ DEFAULT_COLORS !! key = None) ∧
  (∀ key color g',
     MainWindow.pick_color g key (Some color) = Some g' →
     GraphWidget.colors g' !! key = Some color ∧
     ∀ other, other ≠ key →
       GraphWidget.colors g' !! other = GraphWidget.colors g !! other) ∧
  GraphWidget.colors (MainWindow.reset_colours g) = DEFAULT_COLORS.
Proof.
  intros g.
  assert (MainWindow.reachable g) as Hreach.
  { apply (MainWindow.reach_pick GraphWidget.init g "line_up" (Some (mkQColor 1 2 3))
             MainWindow.reach_init).
    reflexivity. }
  split; [exact Hreach|]. split; [reflexivity|].
  exact (reachable_colours g Hreach).
Defined.

Lemma select_frames_same_numbers_witness :
  let frames_dir : gmap Z nat := {[3 := 30%nat; 5 := 50%nat]} in
  (∀ x, x ∈ [5; 3; 3] ↔ x ∈ [3; 5]) ∧
  VideoSampler.select_frames frames_dir [5; 3; 3]
  = VideoSampler.select_frames frames_dir [3; 5].
Proof.
  intros frames_dir.
  assert (∀ x : Z, x ∈ [5; 3; 3] ↔ x ∈ [3; 5]) as Hsame.
  { intros x. rewrite !elem_of_cons, !elem_of_nil. tauto. }
  split; [exact Hsame|].
  exact (select_frames_same_numbers frames_dir [5; 3; 3] [3; 5] Hsame).
Defined.

Lemma listed_frames_keep_their_order_witness :
  let flux := [10; 8; 6; 7; 9; 11]%float in
  let lbls := [NORMAL; NORMAL; DOWN_TO_UP; NORMAL; UP_TO_DOWN; NORMAL] in
  let frames_dir : gmap Z nat := {[3 := 30%nat; 5 := 50%nat]} in
  listed_frame_indices flux lbls None = Some [3; 5] ∧
  VideoSampler.sorted_indices [3; 5] = [3; 5] ∧
  ∀ k : nat,
    VideoSampler.select_frames frames_dir [3; 5] !! (Z.of_nat k + 1)
    = [3; 5] !! k ≫= (frames_dir !!.).
Proof.
  intros flux lbls frames_dir.
  assert (listed_frame_indices flux lbls None = Some [3; 5]) as Hrun
    by (vm_compute; reflexivity).
  split; [exact Hrun|].
  exact (listed_frames_keep_their_order flux lbls None [3; 5] frames_dir Hrun).
Defined.

Lemma parse_flux_file_spec_witness :
  Forall (λ line, line ≠ []) small_file ∧
  DataParser.parse_flux_file float_of_seven small_file
  = if decide (length small_file < 4)%nat
    then inl (DataParser.TooFewHeaderLines (Z.of_nat (length small_file) + 1))
    else match omap (DataParser.row_value float_of_seven) (drop 4 small_file) with
         | [] => inl DataParser.NoValidData
         | flux_values => inr flux_values
         end.
Proof.
  assert (Forall (λ line : DataParser.Str, line ≠ []) small_file) as Hreal
    by (repeat constructor; discriminate).
  split; [exact Hreal|].
  exact (parse_flux_file_spec float_of_seven small_file Hreal).
Defined.

Lemma row_value_leading_whitespace_witness :
  let row := [97; 9; 98; 9; 55; 10]%N in
  Forall (λ c, DataParser.is_whitespace c = true) [9%N] ∧
  DataParser.row_value float_of_seven ([9%N] ++ row)
  = DataParser.row_value float_of_seven row.
Proof.
  intros row.
  assert (Forall (λ c, DataParser.is_whitespace c = true) [9%N]) as Hws
    by (repeat constructor).
  split; [exact Hws|].
  exact (row_value_leading_whitespace float_of_seven [9%N] row Hws).
Defined.

(** ** The two views of the inflection list *)

(** For the labels detected from the samples, the list shows, under
    "Down points" (entry 0), exactly the peaks, and under any other entry,
    "Up points", exactly the valleys: each with its sample number counted
    from 1 and its sample, and nothing else. *)
Theorem inflection_list_shows_reversals (flux : list float) (current_index : Z) :
  ∃ lbls view,
    detect_float flux = Some (mkInflectionResult lbls) ∧
    update_inflection_list flux lbls current_index = Some view ∧
    ∀ k v t,
      (k, v, t) ∈ items view ↔
      t = shown_type current_index ∧ 1 ≤ k ∧
      flux !! Z.to_nat (k - 1) = Some v ∧
      if current_index =? 0
      then peak PrimFloat.ltb flux (Z.to_nat (k - 1))
      else valley PrimFloat.ltb flux (Z.to_nat (k - 1)).
Proof.
  destruct (detect_exact PrimFloat.ltb float_ltb_asymmetric flux)
    as (lbls & Hrun & Hlen & Hexact).
  exists lbls.
  destruct (get_inflection_points_total flux lbls (Some (shown_type current_index)))
    as (pts & Hpts & _ & Hmem & _); [lia|].
  assert (shown_type current_index ≠ NORMAL) as Hshown
    by (unfold shown_type; by destruct (_ =? _)).
  assert (∀ p : nat,
            lbls !! p = Some (shown_type current_index) ↔
            if current_index =? 0 then peak PrimFloat.ltb flux p
            else valley PrimFloat.ltb flux p) as Hkind.
  { intros p. unfold shown_type. destruct (_ =? _); apply Hexact. }
  destruct flux as [|x flux'].
  { eexists. split; [done|]. split; [done|].
    intros k v t. simpl. split; [by intros ?%elem_of_nil|].
    intros (_ & _ & Hv & _). by rewrite lookup_nil in Hv. }
  unfold update_inflection_list. rewrite Hpts. simpl.
  eexists. split; [done|]. split; [done|]. simpl.
  intros k v t. rewrite list_elem_of_fmap. split.
  - intros ([[j v'] t'] & [= -> -> ->] & Hin). simpl.
    apply Hmem in Hin as (i & -> & Hi & [Hn [?|Ht]] & Hv); [done|].
    injection Ht as Ht.
    replace (Z.to_nat (0 + Z.of_nat i + 1 - 1)) with i by lia.
    replace (Z.to_nat (0 + Z.of_nat i)) with i in Hv by lia.
    split; [done|]. split; [lia|]. split; [done|].
    apply Hkind. by rewrite Ht.
  - intros (-> & Hk & Hv & Hrev). exists (k - 1, v, shown_type current_index).
    split; [simpl; do 2 f_equal; lia|].
    apply Hmem. exists (Z.to_nat (k - 1)). split; [lia|].
    split; [by apply Hkind|]. split; [split; [done|by right]|].
    by replace (Z.to_nat (0 + Z.of_nat (Z.to_nat (k - 1)))) with (Z.to_nat (k - 1)) by lia.
Qed.
